(** * KorzeTerm: the terminal-emulation core of [TerminalWidget]

    A shallow embedding of the byte decoder, the escape-sequence state
    machine, the screen buffer and the colour palette of the PTY-backed
    [TerminalWidget] class, followed by the properties of the
    specification that are checked against it.

    Conventions of the embedding:
    - C++ [int] is a [Z] kept in the 32-bit range by [wrap_int] after every
      addition and subtraction of the source;
    - C++ [char] is a signed 8-bit value, a [Z] in [-128, 127];
    - [QChar] is a 16-bit code unit, [QString] a list of code units,
      [QByteArray] a list of [char];
    - [QVector] is a list; [v[i]] is stdpp's total lookup and an indexed
      assignment is stdpp's insert/alter, which leave the list alone when
      the index is out of range (the source has no defined behaviour there);
    - the widget's fields that the core never reads (font, metrics, file
      descriptor, timers, cursor colour) are left out of the state. *)

From Stdlib Require Import ZArith Lia List Bool Ascii.
From stdpp Require Import base decidable option list list_numbers strings.
Import ListNotations.

Local Open Scope Z_scope.

(** ** Machine integers and the Qt helpers on them *)

Definition INT_MIN : Z := -2147483648.
Definition INT_MAX : Z := 2147483647.

Definition wrap_int (z : Z) : Z := (z + 2147483648) mod 4294967296 - 2147483648.

Definition int_add (a b : Z) : Z := wrap_int (a + b).
Definition int_sub (a b : Z) : Z := wrap_int (a - b).
Definition int_mul (a b : Z) : Z := wrap_int (a * b).
(* C++ division truncates towards zero *)
Definition int_div (a b : Z) : Z := wrap_int (Z.quot a b).

Definition qMin (a b : Z) : Z := if a <? b then a else b.
Definition qMax (a b : Z) : Z := if a <? b then b else a.
Definition qBound (lo v hi : Z) : Z := qMax lo (qMin hi v).

(** A counted loop [for (int i = lo; i < hi; i++) body], for loops whose
    bounds do not change while they run. *)
Definition for_range {S : Type} (lo hi : Z) (body : Z -> S -> S) (s : S) : S :=
  fold_left (fun acc i => body i acc) (seqZ lo (hi - lo)) s.

(** ** Colours *)

Inductive QColor : Type :=
  | QColorInvalid
  | QColorRgb (r g b : Z).

#[global] Instance QColor_eq_dec : EqDecision QColor.
Proof. solve_decision. Defined.

#[global] Instance QColor_inhabited : Inhabited QColor := populate QColorInvalid.

(** [QColor(r, g, b)]: Qt invalidates the colour when a component is
    outside 0..255. *)
Definition mkQColor (r g b : Z) : QColor :=
  if (0 <=? r) && (r <=? 255) && (0 <=? g) && (g <=? 255) && (0 <=? b) && (b <=? 255)
  then QColorRgb r g b else QColorInvalid.

Definition vec_set {A : Type} (i : Z) (x : A) (v : list A) : list A :=
  if 0 <=? i then <[Z.to_nat i := x]> v else v.

Definition vec_get {A : Type} `{Inhabited A} (v : list A) (i : Z) : A :=
  v !!! Z.to_nat i.

Definition initializeColorPalette : list QColor :=
  let p := replicate 256 QColorInvalid in
  (* Standard colors (0-7) *)
  let p := vec_set 0 (mkQColor 40 40 40) p in
  let p := vec_set 1 (mkQColor 204 36 29) p in
  let p := vec_set 2 (mkQColor 152 151 26) p in
  let p := vec_set 3 (mkQColor 215 153 33) p in
  let p := vec_set 4 (mkQColor 69 133 136) p in
  let p := vec_set 5 (mkQColor 177 98 134) p in
  let p := vec_set 6 (mkQColor 104 157 106) p in
  let p := vec_set 7 (mkQColor 168 153 132) p in
  (* Bright colors (8-15) *)
  let p := vec_set 8 (mkQColor 146 131 116) p in
  let p := vec_set 9 (mkQColor 251 73 52) p in
  let p := vec_set 10 (mkQColor 184 187 38) p in
  let p := vec_set 11 (mkQColor 250 189 47) p in
  let p := vec_set 12 (mkQColor 131 165 152) p in
  let p := vec_set 13 (mkQColor 211 134 155) p in
  let p := vec_set 14 (mkQColor 142 192 124) p in
  let p := vec_set 15 (mkQColor 235 219 178) p in
  (* 6x6x6 colour cube (16-231); the loop state is (palette, index) *)
  let '(p, _) :=
    for_range 0 6 (fun r =>
      for_range 0 6 (fun g =>
        for_range 0 6 (fun b '(p, index) =>
          let red := if r =? 0 then 0 else int_add (int_mul r 40) 55 in
          let green := if g =? 0 then 0 else int_add (int_mul g 40) 55 in
          let blue := if b =? 0 then 0 else int_add (int_mul b 40) 55 in
          (vec_set index (mkQColor red green blue) p, int_add index 1))))
      (p, 16) in
  (* 24 grayscale colours (232-255) *)
  for_range 0 24 (fun i p =>
    let value := int_add (int_mul i 10) 8 in
    vec_set (int_add 232 i) (mkQColor value value value) p) p.

(** The fixed table of the first sixteen entries, as the specification
    lists it (8 standard colours, then 8 bright ones). *)
Definition fixed16 : list QColor :=
  [ QColorRgb 40 40 40; QColorRgb 204 36 29; QColorRgb 152 151 26;
    QColorRgb 215 153 33; QColorRgb 69 133 136; QColorRgb 177 98 134;
    QColorRgb 104 157 106; QColorRgb 168 153 132;
    QColorRgb 146 131 116; QColorRgb 251 73 52; QColorRgb 184 187 38;
    QColorRgb 250 189 47; QColorRgb 131 165 152; QColorRgb 211 134 155;
    QColorRgb 142 192 124; QColorRgb 235 219 178 ].

Definition cube_level (n : Z) : Z := if n =? 0 then 0 else 55 + 40 * n.

(** ** Cells *)

Definition QChar : Type := Z.
Definition QString : Type := list QChar.
Definition QByteArray : Type := list Z.

(** A character literal of the source as the integer it denotes. *)
Definition chr (a : ascii) : Z := Z.of_N (N_of_ascii a).

Record TermChar : Type := mkTermChar {
  character : QChar;
  foreground : QColor;
  background : QColor;
  bold : bool;
  italic : bool;
  underline : bool
}.

(** The default constructor [TermChar()]. *)
Definition TermChar_default : TermChar :=
  {| character := chr " ";
     foreground := mkQColor 235 219 178;
     background := mkQColor 40 40 40;
     bold := false; italic := false; underline := false |}.

#[global] Instance TermChar_inhabited : Inhabited TermChar := populate TermChar_default.

#[global] Instance TermChar_eq_dec : EqDecision TermChar.
Proof. solve_decision. Defined.

Definition set_character (ch : QChar) (t : TermChar) : TermChar :=
  mkTermChar ch (foreground t) (background t) (bold t) (italic t) (underline t).

(** ** The widget state *)

Module EscapeState.
Inductive t : Type :=
  | None          (* Not in an escape sequence *)
  | Escape        (* Just received ESC *)
  | Bracket       (* Received ESC [ *)
  | Parameter_    (* Collecting parameters; [Parameter] in the source *)
  | OSC           (* Operating System Command (ESC ]) *)
  | OSCParameter. (* Collecting OSC parameters *)
End EscapeState.

#[global] Instance EscapeState_eq_dec : EqDecision EscapeState.t.
Proof. solve_decision. Defined.

Record TerminalWidget : Type := mkTerminalWidget {
  m_rows : Z;
  m_cols : Z;
  m_buffer : list (list TermChar);
  m_colorPalette : list QColor;
  m_defaultFg : QColor;
  m_defaultBg : QColor;
  m_currentFg : QColor;
  m_currentBg : QColor;
  m_cursorX : Z;
  m_cursorY : Z;
  m_savedCursorX : Z;
  m_savedCursorY : Z;
  m_cursorVisible : bool;
  m_pendingNewline : bool;
  m_bold : bool;
  m_italic : bool;
  m_underline : bool;
  m_utf8Remaining : Z;
  m_utf8Buffer : QByteArray;
  m_escapeState : EscapeState.t;
  m_escapeSequence : QString
}.

(** Field updates. *)

Definition set_m_rows (v : Z) (s : TerminalWidget) : TerminalWidget :=
  mkTerminalWidget v (m_cols s) (m_buffer s) (m_colorPalette s)
    (m_defaultFg s) (m_defaultBg s) (m_currentFg s) (m_currentBg s)
    (m_cursorX s) (m_cursorY s) (m_savedCursorX s) (m_savedCursorY s)
    (m_cursorVisible s) (m_pendingNewline s) (m_bold s) (m_italic s)
    (m_underline s) (m_utf8Remaining s) (m_utf8Buffer s) (m_escapeState s)
    (m_escapeSequence s).

Definition set_m_cols (v : Z) (s : TerminalWidget) : TerminalWidget :=
  mkTerminalWidget (m_rows s) v (m_buffer s) (m_colorPalette s)
    (m_defaultFg s) (m_defaultBg s) (m_currentFg s) (m_currentBg s)
    (m_cursorX s) (m_cursorY s) (m_savedCursorX s) (m_savedCursorY s)
    (m_cursorVisible s) (m_pendingNewline s) (m_bold s) (m_italic s)
    (m_underline s) (m_utf8Remaining s) (m_utf8Buffer s) (m_escapeState s)
    (m_escapeSequence s).

Definition set_m_buffer (v : list (list TermChar)) (s : TerminalWidget) : TerminalWidget :=
  mkTerminalWidget (m_rows s) (m_cols s) v (m_colorPalette s) (m_defaultFg s)
    (m_defaultBg s) (m_currentFg s) (m_currentBg s) (m_cursorX s) (m_cursorY s)
    (m_savedCursorX s) (m_savedCursorY s) (m_cursorVisible s)
    (m_pendingNewline s) (m_bold s) (m_italic s) (m_underline s)
    (m_utf8Remaining s) (m_utf8Buffer s) (m_escapeState s) (m_escapeSequence s).

Definition set_m_currentFg (v : QColor) (s : TerminalWidget) : TerminalWidget :=
  mkTerminalWidget (m_rows s) (m_cols s) (m_buffer s) (m_colorPalette s)
    (m_defaultFg s) (m_defaultBg s) v (m_currentBg s) (m_cursorX s)
    (m_cursorY s) (m_savedCursorX s) (m_savedCursorY s) (m_cursorVisible s)
    (m_pendingNewline s) (m_bold s) (m_italic s) (m_underline s)
    (m_utf8Remaining s) (m_utf8Buffer s) (m_escapeState s) (m_escapeSequence s).

Definition set_m_currentBg (v : QColor) (s : TerminalWidget) : TerminalWidget :=
  mkTerminalWidget (m_rows s) (m_cols s) (m_buffer s) (m_colorPalette s)
    (m_defaultFg s) (m_defaultBg s) (m_currentFg s) v (m_cursorX s)
    (m_cursorY s) (m_savedCursorX s) (m_savedCursorY s) (m_cursorVisible s)
    (m_pendingNewline s) (m_bold s) (m_italic s) (m_underline s)
    (m_utf8Remaining s) (m_utf8Buffer s) (m_escapeState s) (m_escapeSequence s).

Definition set_m_cursorX (v : Z) (s : TerminalWidget) : TerminalWidget :=
  mkTerminalWidget (m_rows s) (m_cols s) (m_buffer s) (m_colorPalette s)
    (m_defaultFg s) (m_defaultBg s) (m_currentFg s) (m_currentBg s) v
    (m_cursorY s) (m_savedCursorX s) (m_savedCursorY s) (m_cursorVisible s)
    (m_pendingNewline s) (m_bold s) (m_italic s) (m_underline s)
    (m_utf8Remaining s) (m_utf8Buffer s) (m_escapeState s) (m_escapeSequence s).

Definition set_m_cursorY (v : Z) (s : TerminalWidget) : TerminalWidget :=
  mkTerminalWidget (m_rows s) (m_cols s) (m_buffer s) (m_colorPalette s)
    (m_defaultFg s) (m_defaultBg s) (m_currentFg s) (m_currentBg s)
    (m_cursorX s) v (m_savedCursorX s) (m_savedCursorY s) (m_cursorVisible s)
    (m_pendingNewline s) (m_bold s) (m_italic s) (m_underline s)
    (m_utf8Remaining s) (m_utf8Buffer s) (m_escapeState s) (m_escapeSequence s).

Definition set_m_savedCursorX (v : Z) (s : TerminalWidget) : TerminalWidget :=
  mkTerminalWidget (m_rows s) (m_cols s) (m_buffer s) (m_colorPalette s)
    (m_defaultFg s) (m_defaultBg s) (m_currentFg s) (m_currentBg s)
    (m_cursorX s) (m_cursorY s) v (m_savedCursorY s) (m_cursorVisible s)
    (m_pendingNewline s) (m_bold s) (m_italic s) (m_underline s)
    (m_utf8Remaining s) (m_utf8Buffer s) (m_escapeState s) (m_escapeSequence s).

Definition set_m_savedCursorY (v : Z) (s : TerminalWidget) : TerminalWidget :=
  mkTerminalWidget (m_rows s) (m_cols s) (m_buffer s) (m_colorPalette s)
    (m_defaultFg s) (m_defaultBg s) (m_currentFg s) (m_currentBg s)
    (m_cursorX s) (m_cursorY s) (m_savedCursorX s) v (m_cursorVisible s)
    (m_pendingNewline s) (m_bold s) (m_italic s) (m_underline s)
    (m_utf8Remaining s) (m_utf8Buffer s) (m_escapeState s) (m_escapeSequence s).

Definition set_m_cursorVisible (v : bool) (s : TerminalWidget) : TerminalWidget :=
  mkTerminalWidget (m_rows s) (m_cols s) (m_buffer s) (m_colorPalette s)
    (m_defaultFg s) (m_defaultBg s) (m_currentFg s) (m_currentBg s)
    (m_cursorX s) (m_cursorY s) (m_savedCursorX s) (m_savedCursorY s) v
    (m_pendingNewline s) (m_bold s) (m_italic s) (m_underline s)
    (m_utf8Remaining s) (m_utf8Buffer s) (m_escapeState s) (m_escapeSequence s).

Definition set_m_pendingNewline (v : bool) (s : TerminalWidget) : TerminalWidget :=
  mkTerminalWidget (m_rows s) (m_cols s) (m_buffer s) (m_colorPalette s)
    (m_defaultFg s) (m_defaultBg s) (m_currentFg s) (m_currentBg s)
    (m_cursorX s) (m_cursorY s) (m_savedCursorX s) (m_savedCursorY s)
    (m_cursorVisible s) v (m_bold s) (m_italic s) (m_underline s)
    (m_utf8Remaining s) (m_utf8Buffer s) (m_escapeState s) (m_escapeSequence s).

Definition set_m_bold (v : bool) (s : TerminalWidget) : TerminalWidget :=
  mkTerminalWidget (m_rows s) (m_cols s) (m_buffer s) (m_colorPalette s)
    (m_defaultFg s) (m_defaultBg s) (m_currentFg s) (m_currentBg s)
    (m_cursorX s) (m_cursorY s) (m_savedCursorX s) (m_savedCursorY s)
    (m_cursorVisible s) (m_pendingNewline s) v (m_italic s) (m_underline s)
    (m_utf8Remaining s) (m_utf8Buffer s) (m_escapeState s) (m_escapeSequence s).

Definition set_m_italic (v : bool) (s : TerminalWidget) : TerminalWidget :=
  mkTerminalWidget (m_rows s) (m_cols s) (m_buffer s) (m_colorPalette s)
    (m_defaultFg s) (m_defaultBg s) (m_currentFg s) (m_currentBg s)
    (m_cursorX s) (m_cursorY s) (m_savedCursorX s) (m_savedCursorY s)
    (m_cursorVisible s) (m_pendingNewline s) (m_bold s) v (m_underline s)
    (m_utf8Remaining s) (m_utf8Buffer s) (m_escapeState s) (m_escapeSequence s).

Definition set_m_underline (v : bool) (s : TerminalWidget) : TerminalWidget :=
  mkTerminalWidget (m_rows s) (m_cols s) (m_buffer s) (m_colorPalette s)
    (m_defaultFg s) (m_defaultBg s) (m_currentFg s) (m_currentBg s)
    (m_cursorX s) (m_cursorY s) (m_savedCursorX s) (m_savedCursorY s)
    (m_cursorVisible s) (m_pendingNewline s) (m_bold s) (m_italic s) v
    (m_utf8Remaining s) (m_utf8Buffer s) (m_escapeState s) (m_escapeSequence s).

Definition set_m_utf8Remaining (v : Z) (s : TerminalWidget) : TerminalWidget :=
  mkTerminalWidget (m_rows s) (m_cols s) (m_buffer s) (m_colorPalette s)
    (m_defaultFg s) (m_defaultBg s) (m_currentFg s) (m_currentBg s)
    (m_cursorX s) (m_cursorY s) (m_savedCursorX s) (m_savedCursorY s)
    (m_cursorVisible s) (m_pendingNewline s) (m_bold s) (m_italic s)
    (m_underline s) v (m_utf8Buffer s) (m_escapeState s) (m_escapeSequence s).

Definition set_m_utf8Buffer (v : QByteArray) (s : TerminalWidget) : TerminalWidget :=
  mkTerminalWidget (m_rows s) (m_cols s) (m_buffer s) (m_colorPalette s)
    (m_defaultFg s) (m_defaultBg s) (m_currentFg s) (m_currentBg s)
    (m_cursorX s) (m_cursorY s) (m_savedCursorX s) (m_savedCursorY s)
    (m_cursorVisible s) (m_pendingNewline s) (m_bold s) (m_italic s)
    (m_underline s) (m_utf8Remaining s) v (m_escapeState s) (m_escapeSequence s).

Definition set_m_escapeState (v : EscapeState.t) (s : TerminalWidget) : TerminalWidget :=
  mkTerminalWidget (m_rows s) (m_cols s) (m_buffer s) (m_colorPalette s)
    (m_defaultFg s) (m_defaultBg s) (m_currentFg s) (m_currentBg s)
    (m_cursorX s) (m_cursorY s) (m_savedCursorX s) (m_savedCursorY s)
    (m_cursorVisible s) (m_pendingNewline s) (m_bold s) (m_italic s)
    (m_underline s) (m_utf8Remaining s) (m_utf8Buffer s) v (m_escapeSequence s).

Definition set_m_escapeSequence (v : QString) (s : TerminalWidget) : TerminalWidget :=
  mkTerminalWidget (m_rows s) (m_cols s) (m_buffer s) (m_colorPalette s)
    (m_defaultFg s) (m_defaultBg s) (m_currentFg s) (m_currentBg s)
    (m_cursorX s) (m_cursorY s) (m_savedCursorX s) (m_savedCursorY s)
    (m_cursorVisible s) (m_pendingNewline s) (m_bold s) (m_italic s)
    (m_underline s) (m_utf8Remaining s) (m_utf8Buffer s) (m_escapeState s) v.

(** ** The screen buffer *)

(** [m_buffer[y][x]] read and updated in place. *)
Definition buffer_get (buf : list (list TermChar)) (y x : Z) : TermChar :=
  vec_get (vec_get buf y) x.

Definition buffer_alter (f : TermChar -> TermChar) (y x : Z)
    (buf : list (list TermChar)) : list (list TermChar) :=
  if (0 <=? y) && (0 <=? x)
  then alter (alter f (Z.to_nat x)) (Z.to_nat y) buf
  else buf.

Definition buffer_set (t : TermChar) (y x : Z)
    (buf : list (list TermChar)) : list (list TermChar) :=
  buffer_alter (fun _ => t) y x buf.

Definition scrollUp (s : TerminalWidget) : TerminalWidget :=
  (* Move all lines up one position *)
  let buf :=
    for_range 0 (int_sub (m_rows s) 1)
      (fun y buf => vec_set y (vec_get buf (int_add y 1)) buf) (m_buffer s) in
  (* Clear the bottom line *)
  let buf :=
    for_range 0 (m_cols s)
      (fun x buf => buffer_set TermChar_default (int_sub (m_rows s) 1) x buf) buf in
  set_m_buffer buf s.

Definition clearScreen (startRow startCol endRow endCol : Z)
    (s : TerminalWidget) : TerminalWidget :=
  set_m_buffer
    (for_range startRow (endRow + 1)
       (fun y buf =>
          for_range (if y =? startRow then startCol else 0)
                    ((if y =? endRow then endCol else int_sub (m_cols s) 1) + 1)
            (fun x buf => buffer_set TermChar_default y x buf) buf)
       (m_buffer s)) s.

Definition clearLine (row startCol endCol : Z) (s : TerminalWidget) : TerminalWidget :=
  set_m_buffer
    (for_range startCol (endCol + 1)
       (fun x buf => buffer_set TermChar_default row x buf) (m_buffer s)) s.

Definition resizeBuffer (newRows newCols : Z) (s : TerminalWidget) : TerminalWidget :=
  let oldRows := m_rows s in
  let oldCols := m_cols s in
  (* a new buffer with the new dimensions *)
  let newBuffer :=
    replicate (Z.to_nat newRows) (replicate (Z.to_nat newCols) TermChar_default) in
  (* copy the data from the old buffer to the new one *)
  let newBuffer :=
    for_range 0 (qMin oldRows newRows)
      (fun y nb =>
         for_range 0 (qMin oldCols newCols)
           (fun x nb => buffer_set (buffer_get (m_buffer s) y x) y x nb) nb)
      newBuffer in
  let s := set_m_rows newRows s in
  let s := set_m_cols newCols s in
  let s := set_m_buffer newBuffer s in
  (* make sure the cursor is still in bounds *)
  let s := set_m_cursorX (qMin (m_cursorX s) (int_sub (m_cols s) 1)) s in
  let s := set_m_cursorY (qMin (m_cursorY s) (int_sub (m_rows s) 1)) s in
  s.

(** The block [m_cursorY++; if (m_cursorY >= m_rows) { scrollUp();
    m_cursorY = m_rows - 1; }] that line feed, tab and both character
    writers share. *)
Definition nextRow (s : TerminalWidget) : TerminalWidget :=
  let s := set_m_cursorY (int_add (m_cursorY s) 1) s in
  if m_rows s <=? m_cursorY s then
    let s := scrollUp s in
    set_m_cursorY (int_sub (m_rows s) 1) s
  else s.

(** [if (m_cursorX >= m_cols) { m_cursorX = 0; nextRow }] *)
Definition lineWrap (s : TerminalWidget) : TerminalWidget :=
  if m_cols s <=? m_cursorX s then nextRow (set_m_cursorX 0 s) else s.

(** The six assignments that store a character with the current
    attributes in the cell under the cursor. *)
Definition storeAtCursor (ch : QChar) (s : TerminalWidget) : TerminalWidget :=
  set_m_buffer
    (buffer_alter
       (fun _ => mkTermChar ch (m_currentFg s) (m_currentBg s)
                            (m_bold s) (m_italic s) (m_underline s))
       (m_cursorY s) (m_cursorX s) (m_buffer s)) s.

(** [QChar(char)] and [QString += char] go through Latin-1. *)
Definition fromLatin1 (c : Z) : QChar := c mod 256.

Definition processRegularChar (c : Z) (s : TerminalWidget) : TerminalWidget :=
  if c =? chr "013" then (* '\r' carriage return *)
    let s := set_m_cursorX 0 s in
    if m_pendingNewline s then set_m_pendingNewline false s else s
  else if c =? chr "010" then (* '\n' line feed *)
    if m_pendingNewline s then
      (* Already had a newline pending *)
      set_m_pendingNewline false s
    else
      let s := set_m_pendingNewline true s in
      let s := nextRow s in
      set_m_cursorX 0 s
  else if c =? chr "008" then (* '\b' backspace *)
    if 0 <? m_cursorX s then set_m_cursorX (int_sub (m_cursorX s) 1) s else s
  else if c =? chr "009" then (* '\t' tab *)
    let s := set_m_cursorX (int_mul (int_div (int_add (m_cursorX s) 8) 8) 8) s in
    lineWrap s
  else if c =? chr "007" then (* '\a' bell *)
    s
  else if 32 <=? c then (* printable character *)
    let s := set_m_pendingNewline false s in
    let s := storeAtCursor (fromLatin1 c) s in
    let s := set_m_cursorX (int_add (m_cursorX s) 1) s in
    lineWrap s
  else s.

(** ** SGR *)

Definition processSGR_body (params : list Z) (i : nat) (s : TerminalWidget)
    : nat * TerminalWidget :=
  let param := params !!! i in
  if param =? 0 then (* Reset all attributes *)
    let s := set_m_currentFg (m_defaultFg s) s in
    let s := set_m_currentBg (m_defaultBg s) s in
    let s := set_m_bold false s in
    let s := set_m_italic false s in
    (i, set_m_underline false s)
  else if param =? 1 then (i, set_m_bold true s)
  else if param =? 3 then (i, set_m_italic true s)
  else if param =? 4 then (i, set_m_underline true s)
  else if param =? 22 then (i, set_m_bold false s)
  else if param =? 23 then (i, set_m_italic false s)
  else if param =? 24 then (i, set_m_underline false s)
  else if (30 <=? param) && (param <=? 37) then
    (i, set_m_currentFg (vec_get (m_colorPalette s) (int_sub param 30)) s)
  else if param =? 38 then (* Extended foreground color *)
    if ((i + 2 <? length params)%nat && (params !!! (i + 1)%nat =? 5)) then
      let colorIndex := params !!! (i + 2)%nat in
      let s := if (0 <=? colorIndex) && (colorIndex <? 256)
               then set_m_currentFg (vec_get (m_colorPalette s) colorIndex) s
               else s in
      ((i + 2)%nat, s)
    else if ((i + 4 <? length params)%nat && (params !!! (i + 1)%nat =? 2)) then
      let r := params !!! (i + 2)%nat in
      let g := params !!! (i + 3)%nat in
      let b := params !!! (i + 4)%nat in
      ((i + 4)%nat, set_m_currentFg (mkQColor r g b) s)
    else (i, s)
  else if param =? 39 then (i, set_m_currentFg (m_defaultFg s) s)
  else if (40 <=? param) && (param <=? 47) then
    (i, set_m_currentBg (vec_get (m_colorPalette s) (int_sub param 40)) s)
  else if param =? 48 then (* Extended background color *)
    if ((i + 2 <? length params)%nat && (params !!! (i + 1)%nat =? 5)) then
      let colorIndex := params !!! (i + 2)%nat in
      let s := if (0 <=? colorIndex) && (colorIndex <? 256)
               then set_m_currentBg (vec_get (m_colorPalette s) colorIndex) s
               else s in
      ((i + 2)%nat, s)
    else if ((i + 4 <? length params)%nat && (params !!! (i + 1)%nat =? 2)) then
      let r := params !!! (i + 2)%nat in
      let g := params !!! (i + 3)%nat in
      let b := params !!! (i + 4)%nat in
      ((i + 4)%nat, set_m_currentBg (mkQColor r g b) s)
    else (i, s)
  else if param =? 49 then (i, set_m_currentBg (m_defaultBg s) s)
  else if (90 <=? param) && (param <=? 97) then
    (i, set_m_currentFg
          (vec_get (m_colorPalette s) (int_add (int_sub param 90) 8)) s)
  else if (100 <=? param) && (param <=? 107) then
    (i, set_m_currentBg
          (vec_get (m_colorPalette s) (int_add (int_sub param 100) 8)) s)
  else (i, s).

(** [for (int i = 0; i < params.size(); i++) body]: the body may advance
    [i] itself, so the loop is iterated on a fuel that [processSGR] sets to
    the number of parameters ([processSGR_loop_fuel] shows that it is
    enough). *)
Fixpoint processSGR_loop (fuel : nat) (params : list Z) (i : nat)
    (s : TerminalWidget) : TerminalWidget :=
  match fuel with
  | O => s
  | S fuel' =>
      if (i <? length params)%nat then
        let '(i', s') := processSGR_body params i s in
        processSGR_loop fuel' params (S i') s'
      else s
  end.

Definition processSGR_from (params : list Z) (i : nat) (s : TerminalWidget)
    : TerminalWidget :=
  processSGR_loop (length params - i) params i s.

Definition processSGR (params : list Z) (s : TerminalWidget) : TerminalWidget :=
  processSGR_from params 0 s.

(** ** Qt string helpers used by the parser

    These are Qt library functions, not code of the repository; they are
    modelled from Qt's documented behaviour. *)

(** [QString::split(sep)], keeping empty parts: the empty string splits
    into one empty part. *)
Fixpoint split (sep : QChar) (str : QString) : list QString :=
  match str with
  | [] => [[]]
  | c :: rest =>
      if c =? sep then [] :: split sep rest
      else match split sep rest with
           | part :: parts => (c :: part) :: parts
           | [] => [[c]]
           end
  end.

Definition startsWith (c : QChar) (str : QString) : bool :=
  match str with
  | c0 :: _ => c0 =? c
  | [] => false
  end.

(** [str.endsWith(c)] for a one-character needle *)
Definition endsWith (c : QChar) (str : QString) : bool :=
  match last str with
  | Some c0 => c0 =? c
  | None => false
  end.

(** [QChar::isSpace] *)
Definition isSpace (c : QChar) : bool :=
  (c =? 32) || ((9 <=? c) && (c <=? 13)) || (c =? 133) || (c =? 160)
  || (c =? 5760) || ((8192 <=? c) && (c <=? 8202)) || (c =? 8232)
  || (c =? 8233) || (c =? 8239) || (c =? 8287) || (c =? 12288).

Fixpoint dropWhile {A : Type} (f : A -> bool) (l : list A) : list A :=
  match l with
  | x :: l' => if f x then dropWhile f l' else l
  | [] => []
  end.

Definition trimmed (str : QString) : QString :=
  rev (dropWhile isSpace (rev (dropWhile isSpace str))).

Definition isDigit (c : QChar) : bool := (chr "0" <=? c) && (c <=? chr "9").

(** The value of a string of decimal digits, most significant first;
    [None] when a character is not a digit. *)
Fixpoint digitsValue (acc : Z) (str : QString) : option Z :=
  match str with
  | [] => Some acc
  | c :: rest =>
      if isDigit c then digitsValue (10 * acc + (c - chr "0")) rest else None
  end.

(** [QString::toInt(&ok)] in base 10: surrounding white space is skipped,
    a sign is allowed, at least one digit is needed, and the value has to
    fit an [int]; [None] stands for [ok == false]. *)
Definition toInt (str : QString) : option Z :=
  let body := trimmed str in
  let '(negative, digits) :=
    match body with
    | c :: rest =>
        if c =? chr "-" then (true, rest)
        else if c =? chr "+" then (false, rest)
        else (false, body)
    | [] => (false, body)
    end in
  match digits with
  | [] => None
  | _ =>
      match digitsValue 0 digits with
      | Some v =>
          let v := if negative then - v else v in
          if (INT_MIN <=? v) && (v <=? INT_MAX) then Some v else None
      | None => None
      end
  end.

(** ** CSI dispatch *)

Definition parseParams (parameters : QString) : bool * list Z :=
  let paramList := split (chr ";") parameters in
  (* Check for private mode sequences *)
  let privateMode := startsWith (chr "?") parameters || startsWith (chr ">") parameters in
  let paramList :=
    if privateMode then split (chr ";") (tail parameters) else paramList in
  let params := map (fun param => default 0 (toInt param)) paramList in
  (* Default parameter is 0 if none specified *)
  let params := match params with [] => [0] | _ => params end in
  (privateMode, params).

Definition processEscapeSequence (finalChar : Z) (parameters : QString)
    (s : TerminalWidget) : TerminalWidget :=
  let '(privateMode, params) := parseParams parameters in
  let p0 := params !!! 0%nat in
  if finalChar =? chr "m" then (* SGR *)
    processSGR params s
  else if (finalChar =? chr "H") || (finalChar =? chr "f") then (* CUP, HVP *)
    if (2 <=? length params)%nat then
      let s := set_m_cursorY (qBound 0 (int_sub p0 1) (int_sub (m_rows s) 1)) s in
      set_m_cursorX
        (qBound 0 (int_sub (params !!! 1%nat) 1) (int_sub (m_cols s) 1)) s
    else
      set_m_cursorY 0 (set_m_cursorX 0 s)
  else if finalChar =? chr "A" then (* CUU *)
    set_m_cursorY (qMax 0 (int_sub (m_cursorY s) (qMax 1 p0))) s
  else if finalChar =? chr "B" then (* CUD *)
    set_m_cursorY
      (qMin (int_sub (m_rows s) 1) (int_add (m_cursorY s) (qMax 1 p0))) s
  else if finalChar =? chr "C" then (* CUF *)
    set_m_cursorX
      (qMin (int_sub (m_cols s) 1) (int_add (m_cursorX s) (qMax 1 p0))) s
  else if finalChar =? chr "D" then (* CUB *)
    set_m_cursorX (qMax 0 (int_sub (m_cursorX s) (qMax 1 p0))) s
  else if finalChar =? chr "G" then (* CHA *)
    set_m_cursorX (qBound 0 (int_sub p0 1) (int_sub (m_cols s) 1)) s
  else if finalChar =? chr "J" then (* ED *)
    if p0 =? 0 then
      clearScreen (m_cursorY s) (m_cursorX s)
                  (int_sub (m_rows s) 1) (int_sub (m_cols s) 1) s
    else if p0 =? 1 then
      clearScreen 0 0 (m_cursorY s) (m_cursorX s) s
    else if (p0 =? 2) || (p0 =? 3) then
      clearScreen 0 0 (int_sub (m_rows s) 1) (int_sub (m_cols s) 1) s
    else s
  else if finalChar =? chr "K" then (* EL *)
    if p0 =? 0 then
      clearLine (m_cursorY s) (m_cursorX s) (int_sub (m_cols s) 1) s
    else if p0 =? 1 then
      clearLine (m_cursorY s) 0 (m_cursorX s) s
    else if p0 =? 2 then
      clearLine (m_cursorY s) 0 (int_sub (m_cols s) 1) s
    else s
  else if finalChar =? chr "s" then (* SCP *)
    let s := set_m_savedCursorX (m_cursorX s) s in
    set_m_savedCursorY (m_cursorY s) s
  else if finalChar =? chr "u" then (* RCP *)
    let s := set_m_cursorX (m_savedCursorX s) s in
    set_m_cursorY (m_savedCursorY s) s
  else if (finalChar =? chr "l") || (finalChar =? chr "h") then
    if privateMode then
      fold_left
        (fun s param =>
           if param =? 25 then set_m_cursorVisible (finalChar =? chr "h") s else s)
        params s
    else s
  else if finalChar =? chr "d" then (* VPA *)
    set_m_cursorY (qBound 0 (int_sub p0 1) (int_sub (m_rows s) 1)) s
  else s. (* 'r', 'n' and everything else: no effect *)

(** ** The escape-sequence state machine *)

Definition isBracketParam (c : Z) : bool :=
  isDigit c || (c =? chr ";") || (c =? chr "?") || (c =? chr " ") || (c =? chr ">").

Definition isParameterParam (c : Z) : bool :=
  isBracketParam c || (c =? chr "=").

Definition appendSeq (c : Z) (s : TerminalWidget) : TerminalWidget :=
  set_m_escapeSequence (m_escapeSequence s ++ [fromLatin1 c]) s.

Definition processChar (c : Z) (s : TerminalWidget) : TerminalWidget :=
  match m_escapeState s with
  | EscapeState.None =>
      if c =? chr "027" then
        set_m_escapeSequence [] (set_m_escapeState EscapeState.Escape s)
      else processRegularChar c s
  | EscapeState.Escape =>
      if c =? chr "[" then set_m_escapeState EscapeState.Bracket s
      else if c =? chr "]" then
        set_m_escapeSequence [] (set_m_escapeState EscapeState.OSC s)
      else if c =? chr "%" then
        s (* stay in escape state *)
      else
        processRegularChar c (set_m_escapeState EscapeState.None s)
  | EscapeState.Bracket =>
      if isBracketParam c then
        set_m_escapeState EscapeState.Parameter_ (appendSeq c s)
      else
        set_m_escapeState EscapeState.None
          (processEscapeSequence c (m_escapeSequence s) s)
  | EscapeState.Parameter_ =>
      if isParameterParam c then appendSeq c s
      else
        set_m_escapeState EscapeState.None
          (processEscapeSequence c (m_escapeSequence s) s)
  | EscapeState.OSC =>
      if isDigit c then appendSeq c s
      else if c =? chr ";" then
        set_m_escapeState EscapeState.OSCParameter (appendSeq c s)
      else set_m_escapeState EscapeState.None s
  | EscapeState.OSCParameter =>
      if (c =? chr "007")
         || ((c =? chr "\") && endsWith (chr "027") (m_escapeSequence s))
      then set_m_escapeState EscapeState.None s
      else appendSeq c s
  end.

(** ** UTF-8 *)

Definition uchar (c : Z) : Z := c mod 256.

Definition isContinuation (b : Z) : bool := (128 <=? b) && (b <=? 191).

Definition REPLACEMENT : QChar := 65533.

(** One step of Qt's UTF-8 decoder on unsigned bytes: the UTF-16 code
    units produced and the bytes left.  A byte that does not start a
    well-formed, shortest-form encoding of a scalar value yields U+FFFD
    and is skipped alone. *)
Definition fromUtf8_step (bs : list Z) : list QChar * list Z :=
  match bs with
  | [] => ([], [])
  | b0 :: r0 =>
      if b0 <? 128 then ([b0], r0)
      else if b0 <? 194 then ([REPLACEMENT], r0)
      else if b0 <? 224 then
        match r0 with
        | b1 :: r1 =>
            if isContinuation b1
            then ([(b0 - 192) * 64 + (b1 - 128)], r1)
            else ([REPLACEMENT], r0)
        | _ => ([REPLACEMENT], r0)
        end
      else if b0 <? 240 then
        match r0 with
        | b1 :: b2 :: r2 =>
            let u := (b0 - 224) * 4096 + (b1 - 128) * 64 + (b2 - 128) in
            if isContinuation b1 && isContinuation b2
               && (2048 <=? u) && negb ((55296 <=? u) && (u <=? 57343))
            then ([u], r2)
            else ([REPLACEMENT], r0)
        | _ => ([REPLACEMENT], r0)
        end
      else if b0 <? 245 then
        match r0 with
        | b1 :: b2 :: b3 :: r3 =>
            let u := (b0 - 240) * 262144 + (b1 - 128) * 4096
                     + (b2 - 128) * 64 + (b3 - 128) in
            if isContinuation b1 && isContinuation b2 && isContinuation b3
               && (65536 <=? u) && (u <=? 1114111)
            then ([55296 + (u - 65536) / 1024; 56320 + (u - 65536) mod 1024], r3)
            else ([REPLACEMENT], r0)
        | _ => ([REPLACEMENT], r0)
        end
      else ([REPLACEMENT], r0)
  end.

Fixpoint fromUtf8_loop (fuel : nat) (bs : list Z) : QString :=
  match fuel with
  | O => []
  | S fuel' =>
      match bs with
      | [] => []
      | _ => let '(units, rest) := fromUtf8_step bs in
             units ++ fromUtf8_loop fuel' rest
      end
  end.

(** [QString::fromUtf8]: a leading byte-order mark is dropped. *)
Definition fromUtf8 (bytes : QByteArray) : QString :=
  let bs := map uchar bytes in
  let bs :=
    match bs with
    | b0 :: b1 :: b2 :: rest =>
        if (b0 =? 239) && (b1 =? 187) && (b2 =? 191) then rest else bs
    | _ => bs
    end in
  fromUtf8_loop (length bs) bs.

(** The wide-character heuristic of [processUtf8Sequence]; [unicode] is
    [ch.unicode()], one 16-bit code unit. *)
Definition isWide (unicode : Z) : bool :=
  ((12288 <=? unicode) && (unicode <=? 40959))        (* 0x3000 - 0x9FFF *)
  || ((44032 <=? unicode) && (unicode <=? 55215))     (* 0xAC00 - 0xD7AF *)
  || ((63744 <=? unicode) && (unicode <=? 64255))     (* 0xF900 - 0xFAFF *)
  || ((65280 <=? unicode) && (unicode <=? 65519))     (* 0xFF00 - 0xFFEF *)
  || ((131072 <=? unicode) && (unicode <=? 196607)).  (* 0x20000 - 0x2FFFF *)

Definition processUtf8Sequence (utf8Bytes : QByteArray) (s : TerminalWidget)
    : TerminalWidget :=
  match fromUtf8 utf8Bytes with
  | [] => s
  | ch :: _ =>
      (* Store character with attributes *)
      let s := storeAtCursor ch s in
      (* Move cursor forward *)
      let s := set_m_cursorX (int_add (m_cursorX s) 1) s in
      let s :=
        if isWide ch then
          (* Mark the next cell as part of this character *)
          if m_cursorX s <? m_cols s then
            let s := set_m_buffer
                       (buffer_alter (set_character (chr " "))
                          (m_cursorY s) (m_cursorX s) (m_buffer s)) s in
            set_m_cursorX (int_add (m_cursorX s) 1) s
          else s
        else s in
      (* Handle line wrapping *)
      lineWrap s
  end.

(** The classification of a byte that does not continue a pending
    sequence: the second half of the loop body of [processOutput]. *)
Definition startByte (c : Z) (s : TerminalWidget) : TerminalWidget :=
  if negb (Z.land c 128 =? 0) then
    if Z.land c 224 =? 192 then
      set_m_utf8Buffer [c] (set_m_utf8Remaining 1 s)
    else if Z.land c 240 =? 224 then
      set_m_utf8Buffer [c] (set_m_utf8Remaining 2 s)
    else if Z.land c 248 =? 240 then
      set_m_utf8Buffer [c] (set_m_utf8Remaining 3 s)
    else
      (* Invalid UTF-8 byte, treat as ASCII *)
      processChar c s
  else
    processChar c s.

(** One iteration of the loop of [processOutput] on the byte [c]. *)
Definition processByte (c : Z) (s : TerminalWidget) : TerminalWidget :=
  if 0 <? m_utf8Remaining s then
    if Z.land c 192 =? 128 then
      (* a continuation byte *)
      let s := set_m_utf8Buffer (m_utf8Buffer s ++ [c]) s in
      let s := set_m_utf8Remaining (int_sub (m_utf8Remaining s) 1) s in
      if m_utf8Remaining s =? 0 then
        let s := processUtf8Sequence (m_utf8Buffer s) s in
        set_m_utf8Buffer [] s
      else s
    else
      (* Invalid UTF-8 sequence, reset and process as normal *)
      let s := set_m_utf8Remaining 0 s in
      let s := set_m_utf8Buffer [] s in
      startByte c s
  else startByte c s.

Fixpoint processOutput (data : QByteArray) (s : TerminalWidget) : TerminalWidget :=
  match data with
  | [] => s
  | c :: rest => processOutput rest (processByte c s)
  end.

(** ** The state after construction *)

Definition initialTerminal : TerminalWidget :=
  {| m_rows := 24;
     m_cols := 80;
     m_buffer := replicate 24 (replicate 80 TermChar_default);
     m_colorPalette := initializeColorPalette;
     m_defaultFg := mkQColor 235 219 178;
     m_defaultBg := mkQColor 40 40 40;
     m_currentFg := mkQColor 235 219 178;
     m_currentBg := mkQColor 40 40 40;
     m_cursorX := 0;
     m_cursorY := 0;
     m_savedCursorX := 0;
     m_savedCursorY := 0;
     m_cursorVisible := true;
     m_pendingNewline := false;
     m_bold := false;
     m_italic := false;
     m_underline := false;
     m_utf8Remaining := 0;
     m_utf8Buffer := [];
     m_escapeState := EscapeState.None;
     m_escapeSequence := [] |}.

(** Bytes as they come from the PTY (0..255) read as C++ [char]. *)
Definition toChar (b : Z) : Z := if 128 <=? b then b - 256 else b.

Definition bytesOfString (str : string) : QByteArray :=
  map (fun a => toChar (chr a)) (String.list_ascii_of_string str).

(** ** Vocabulary of the properties *)

(** The text attribute state and its default. *)
Definition attributes (s : TerminalWidget) : QColor * QColor * bool * bool * bool :=
  (m_currentFg s, m_currentBg s, m_bold s, m_italic s, m_underline s).

Definition defaultAttributes (s : TerminalWidget) : QColor * QColor * bool * bool * bool :=
  (m_defaultFg s, m_defaultBg s, false, false, false).

(** The SGR parameters that set or clear bold, italic and underline. *)
Definition isStyleParam (p : Z) : bool :=
  (p =? 1) || (p =? 3) || (p =? 4) || (p =? 22) || (p =? 23) || (p =? 24).

(** The cell at row [y], column [x] of a grid, when there is one. *)
Definition cell (buf : list (list TermChar)) (y x : nat) : option TermChar :=
  buf !! y ≫= fun row => row !! x.

(** The grid is rectangular, [m_rows] by [m_cols]. *)
Definition buffer_wf (s : TerminalWidget) : Prop :=
  length (m_buffer s) = Z.to_nat (m_rows s) /\
  Forall (fun row => length row = Z.to_nat (m_cols s)) (m_buffer s).

(** The dimensions are positive and leave room for the tab arithmetic. *)
Definition dims_ok (s : TerminalWidget) : Prop :=
  1 <= m_rows s <= INT_MAX /\ 1 <= m_cols s <= INT_MAX - 8.

(** The cursor lies within [0, rows) x [0, cols). *)
Definition cursor_ok (s : TerminalWidget) : Prop :=
  0 <= m_cursorY s < m_rows s /\ 0 <= m_cursorX s < m_cols s.

(** Printable ASCII characters. *)
Definition isPrintableAscii (c : Z) : Prop := 32 <= c <= 126.

(** The cell that a character written with the current attributes of [s]
    leaves in the grid. *)
Definition glyphCell (s : TerminalWidget) (ch : QChar) : TermChar :=
  mkTermChar ch (m_currentFg s) (m_currentBg s) (m_bold s) (m_italic s) (m_underline s).

(** Unicode scalar values, their UTF-8 encoding (as unsigned bytes) and
    their UTF-16 code units. *)
Definition isScalar (u : Z) : Prop :=
  0 <= u < 55296 \/ 57344 <= u <= 1114111.

Definition utf8_encode (u : Z) : list Z :=
  if u <? 128 then [u]
  else if u <? 2048 then [192 + u / 64; 128 + u mod 64]
  else if u <? 65536 then
    [224 + u / 4096; 128 + (u / 64) mod 64; 128 + u mod 64]
  else
    [240 + u / 262144; 128 + (u / 4096) mod 64; 128 + (u / 64) mod 64;
     128 + u mod 64].

Definition utf16_encode (u : Z) : QString :=
  if u <? 65536 then [u]
  else [55296 + (u - 65536) / 1024; 56320 + (u - 65536) mod 1024].

(** The encoding of [u] as the [char]s that [processOutput] reads. *)
Definition utf8Chars (u : Z) : QByteArray := map toChar (utf8_encode u).

(** The wide ranges of the basic multilingual plane: CJK symbols and
    unified ideographs, Hangul, CJK compatibility ideographs, halfwidth and
    fullwidth forms. *)
Definition isWideBMP (u : Z) : Prop :=
  12288 <= u <= 40959 \/ 44032 <= u <= 55215 \/
  63744 <= u <= 64255 \/ 65280 <= u <= 65519.

(** The CJK extension planes. *)
Definition isWideExtension (u : Z) : Prop := 131072 <= u <= 196607.

(** The state in which [processUtf8Sequence] is called on a complete
    sequence: the buffer holds the sequence and nothing is pending. *)
Definition sequenceComplete (bytes : QByteArray) (s : TerminalWidget) : TerminalWidget :=
  set_m_utf8Remaining 0 (set_m_utf8Buffer bytes s).


(** The decoder with nothing pending. *)
Definition resetDecoder (s : TerminalWidget) : TerminalWidget :=
  set_m_utf8Buffer [] (set_m_utf8Remaining 0 s).

(** The fields that no character handler below [processChar] writes. *)
Definition stableFields (s : TerminalWidget)
    : Z * Z * Z * QByteArray * list QColor * QColor * QColor :=
  (m_rows s, m_cols s, m_utf8Remaining s, m_utf8Buffer s,
   m_colorPalette s, m_defaultFg s, m_defaultBg s).

(** The cursor and the saved cursor slot. *)
Definition cursorFields (s : TerminalWidget) : Z * Z * Z * Z :=
  (m_cursorX s, m_cursorY s, m_savedCursorX s, m_savedCursorY s).


(** ** Sequences of operations on the widget *)

(** One byte read from the PTY, or a resize of the window. *)
Inductive Operation : Type :=
  | OpByte (c : Z)
  | OpResize (newRows newCols : Z).

Definition applyOperation (o : Operation) (s : TerminalWidget) : TerminalWidget :=
  match o with
  | OpByte c => processByte c s
  | OpResize newRows newCols => resizeBuffer newRows newCols s
  end.

Definition runOperations (ops : list Operation) (s : TerminalWidget) : TerminalWidget :=
  fold_left (fun s o => applyOperation o s) ops s.

(** The parser is inside a CSI sequence: the next character that is not a
    parameter character is dispatched as its final character. *)
Definition inCsi (s : TerminalWidget) : bool :=
  match m_escapeState s with
  | EscapeState.Bracket | EscapeState.Parameter_ => true
  | _ => false
  end.

(** The saved cursor slot lies within the current grid. *)
Definition savedInGrid (s : TerminalWidget) : Prop :=
  0 <= m_savedCursorY s < m_rows s /\ 0 <= m_savedCursorX s < m_cols s.

(** The count [qMax(1, params[0])] of the CSI sequence being collected. *)
Definition csiCount (s : TerminalWidget) : Z :=
  qMax 1 ((parseParams (m_escapeSequence s)).2 !!! 0%nat).

(** The conditions under which an operation keeps the cursor in the grid:
    a resize is to at least 1x1 (and to dimensions that the [int]
    arithmetic of the tab stops can hold); a cursor restore finds the saved
    slot inside the current grid; the counts of cursor down and cursor
    forward do not overflow an [int]. *)
Definition operationSafe (s : TerminalWidget) (o : Operation) : Prop :=
  match o with
  | OpResize newRows newCols =>
      1 <= newRows <= INT_MAX /\ 1 <= newCols <= INT_MAX - 8
  | OpByte c =>
      inCsi s = true ->
      (c = chr "u" -> savedInGrid s) /\
      (c = chr "B" -> m_cursorY s + csiCount s <= INT_MAX) /\
      (c = chr "C" -> m_cursorX s + csiCount s <= INT_MAX)
  end.

Fixpoint traceSafe (ops : list Operation) (s : TerminalWidget) : Prop :=
  match ops with
  | [] => True
  | o :: ops' => operationSafe s o /\ traceSafe ops' (applyOperation o s)
  end.

(** ** Vocabulary of the further properties *)

(** A grid of [rows] rows with [cols] cells each. *)
Definition gridShape (rows cols : nat) (buf : list (list TermChar)) : Prop :=
  length buf = rows /\ Forall (fun row => length row = cols) buf.

(** The grid of default cells. *)
Definition blankGrid (rows cols : nat) : list (list TermChar) :=
  replicate rows (replicate cols TermChar_default).

(** The state [s] with its five text attributes replaced. *)
Definition withAttributes (a : QColor * QColor * bool * bool * bool)
    (s : TerminalWidget) : TerminalWidget :=
  let '(fg, bg, b, i, u) := a in
  set_m_underline u (set_m_italic i (set_m_bold b
    (set_m_currentBg bg (set_m_currentFg fg s)))).

(** The SGR parameters that [processSGR] has a case for. *)
Definition sgrHandled (p : Z) : bool :=
  (p =? 0) || (p =? 1) || (p =? 3) || (p =? 4) || (p =? 22) || (p =? 23)
  || (p =? 24) || ((30 <=? p) && (p <=? 49)) || ((90 <=? p) && (p <=? 97))
  || ((100 <=? p) && (p <=? 107)).

(** What has to follow 38 or 48 for the extended colour to be applied:
    5 and an index, or 2 and three components. *)
Definition extendedColourComplete (rest : list Z) : bool :=
  match rest with
  | mode :: _ :: tl => (mode =? 5) || ((mode =? 2) && (2 <=? length tl)%nat)
  | _ => false
  end.

(** The final bytes that [processEscapeSequence] acts on.  ('r' and 'n'
    have a case in the source that does nothing.) *)
Definition csiHandled (c : Z) : bool :=
  existsb (Z.eqb c)
    [chr "m"; chr "H"; chr "f"; chr "A"; chr "B"; chr "C"; chr "D"; chr "G";
     chr "J"; chr "K"; chr "s"; chr "u"; chr "l"; chr "h"; chr "d"].

(** ASCII characters. *)
Definition isAscii (c : Z) : Prop := 0 <= c <= 127.

(** The characters of the input fed to the parser one by one. *)
Definition processChars (chars : list Z) (s : TerminalWidget) : TerminalWidget :=
  fold_left (fun s c => processChar c s) chars s.

(** The cells that erase in display (CSI J) with first parameter [p0]
    resets, for the cursor at row [cy], column [cx]: from the cursor to
    the end of the screen, from the start of the screen to the cursor, or
    the whole screen; nothing for any other parameter. *)
Definition edErases (p0 cy cx y x : Z) : bool :=
  if p0 =? 0 then (cy <? y) || ((y =? cy) && (cx <=? x))
  else if p0 =? 1 then (y <? cy) || ((y =? cy) && (x <=? cx))
  else (p0 =? 2) || (p0 =? 3).

(** The cells that erase in line (CSI K) resets in the cursor's row. *)
Definition elErases (p0 cy cx y x : Z) : bool :=
  (y =? cy) &&
  (if p0 =? 0 then cx <=? x
   else if p0 =? 1 then x <=? cx
   else p0 =? 2).

(** The decimal numeral of a non-negative number, as an application
    writes it into a control sequence. *)
Fixpoint decimalFuel (fuel : nat) (n : Z) : QString :=
  match fuel with
  | O => []
  | S fuel' =>
      (if n <? 10 then [] else decimalFuel fuel' (n / 10)) ++ [chr "0" + n mod 10]
  end.

Definition decimal (n : Z) : QString := decimalFuel (S (Z.to_nat n)) n.

(** Numerals joined by semicolons: the parameter text of a CSI sequence. *)
Fixpoint joinParams (ns : list Z) : QString :=
  match ns with
  | [] => []
  | [n] => decimal n
  | n :: rest => decimal n ++ chr ";" :: joinParams rest
  end.

(** A complete CSI sequence with numeric parameters. *)
Definition csiSequence (ns : list Z) (final : Z) : QByteArray :=
  [chr "027"; chr "["] ++ joinParams ns ++ [final].

(** The saved cursor slot. *)
Definition savedCursor (s : TerminalWidget) : Z * Z :=
  (m_savedCursorX s, m_savedCursorY s).

(** What only a CSI command can change: the saved cursor slot, the
    cursor visibility and the text attributes. *)
Definition modeFields (s : TerminalWidget)
    : Z * Z * bool * (QColor * QColor * bool * bool * bool) :=
  (savedCursor s, m_cursorVisible s, attributes s).

(** No byte of [data] is dispatched as the final byte s of a CSI
    sequence. *)
Fixpoint noSave (data : QByteArray) (s : TerminalWidget) : Prop :=
  match data with
  | [] => True
  | c :: rest => ~ (inCsi s = true /\ c = chr "s") /\ noSave rest (processByte c s)
  end.

(** [resizeEvent] for a widget of [width] x [height] pixels.  The cell
    size [m_charWidth] x [m_charHeight] comes from the font metrics and is
    passed in; the notification of the PTY has no effect on the widget
    state and is left out. *)
Definition resizeEvent (width height m_charWidth m_charHeight : Z)
    (s : TerminalWidget) : TerminalWidget :=
  (* Calculate the new terminal dimensions *)
  let newCols := int_div width m_charWidth in
  let newRows := int_div height m_charHeight in
  (* Make sure we have at least 1x1 dimensions *)
  let newCols := qMax 1 newCols in
  let newRows := qMax 1 newRows in
  (* Check if the dimensions actually changed *)
  if negb (newCols =? m_cols s) || negb (newRows =? m_rows s) then
    resizeBuffer newRows newCols s
  else s.

(** ** Vocabulary of the grid after a wide character *)

(** The cells of the grid of [s] once the wide character [u] has been
    written at the cursor: the cell under the cursor holds the glyph with
    the current attributes, the cell to its right (when the row has one)
    has its character replaced by a blank, every other cell is as in
    [s]. *)
Definition wideWritten (s : TerminalWidget) (u : Z) (y' x' : nat)
    : option TermChar :=
  if decide (y' = Z.to_nat (m_cursorY s) /\ x' = Z.to_nat (m_cursorX s))
  then (fun _ => glyphCell s u) <$> cell (m_buffer s) y' x'
  else if decide (y' = Z.to_nat (m_cursorY s) /\ x' = Z.to_nat (m_cursorX s + 1))
  then set_character (chr " ") <$> cell (m_buffer s) y' x'
  else cell (m_buffer s) y' x'.

(** The cells of a grid of [rows] x [cols] cells after it has scrolled up
    by one row: row [y'] shows what row [y' + 1] held, the bottom row
    holds default cells. *)
Definition scrolledUp (rows cols : Z) (cells : nat -> nat -> option TermChar)
    (y' x' : nat) : option TermChar :=
  if decide (Z.of_nat y' + 1 < rows) then cells (S y') x'
  else if decide (Z.of_nat y' + 1 = rows /\ Z.of_nat x' < cols)
  then Some TermChar_default
  else None.

(** * Properties *)

(** ** Checking a decidable property on a range of integers *)

Lemma forall_range_decide (P : Z -> Prop) `{!forall i, Decision (P i)} (lo n : Z) :
  forallb (fun i => bool_decide (P i)) (seqZ lo n) = true ->
  forall i, lo <= i < lo + n -> P i.
Proof.
  intros Hall i Hi.
  rewrite forallb_forall in Hall.
  assert (Hb : bool_decide (P i) = true).
  { apply Hall, list_elem_of_In, elem_of_seqZ. lia. }
  by apply bool_decide_eq_true_1 in Hb.
Qed.

(** C7: the palette maps 0-15 to the fixed table, 16-231 to the 6x6x6
    cube with component 0 or 55 + 40n, and 232+i to the gray 8 + 10i;
    indices 16, 231, 232 and 255 resolve to black, white, (8,8,8) and
    (238,238,238). *)
Theorem color_palette_resolves :
  length initializeColorPalette = 256%nat /\
  (forall i, 0 <= i < 16 ->
     vec_get initializeColorPalette i = vec_get fixed16 i) /\
  (forall i, 16 <= i < 232 ->
     vec_get initializeColorPalette i =
       QColorRgb (cube_level ((i - 16) / 36))
                 (cube_level (((i - 16) / 6) mod 6))
                 (cube_level ((i - 16) mod 6))) /\
  (forall i, 0 <= i < 24 ->
     vec_get initializeColorPalette (232 + i) =
       QColorRgb (8 + 10 * i) (8 + 10 * i) (8 + 10 * i)) /\
  vec_get initializeColorPalette 16 = QColorRgb 0 0 0 /\
  vec_get initializeColorPalette 231 = QColorRgb 255 255 255 /\
  vec_get initializeColorPalette 232 = QColorRgb 8 8 8 /\
  vec_get initializeColorPalette 255 = QColorRgb 238 238 238.
Proof.
  split; [ by vm_compute | ].
  split.
  { apply (forall_range_decide
             (fun i => vec_get initializeColorPalette i = vec_get fixed16 i) 0 16).
    by vm_compute. }
  split.
  { apply (forall_range_decide
             (fun i => vec_get initializeColorPalette i =
                         QColorRgb (cube_level ((i - 16) / 36))
                                   (cube_level (((i - 16) / 6) mod 6))
                                   (cube_level ((i - 16) mod 6))) 16 216).
    by vm_compute. }
  split.
  { apply (forall_range_decide
             (fun i => vec_get initializeColorPalette (232 + i) =
                         QColorRgb (8 + 10 * i) (8 + 10 * i) (8 + 10 * i)) 0 24).
    by vm_compute. }
  repeat split; by vm_compute.
Qed.

(** ** Machine integers *)

Lemma wrap_int_id (z : Z) : INT_MIN <= z <= INT_MAX -> wrap_int z = z.
Proof.
  unfold wrap_int, INT_MIN, INT_MAX. intros Hz.
  rewrite Z.mod_small by lia. lia.
Qed.

Lemma wrap_int_range (z : Z) : INT_MIN <= wrap_int z <= INT_MAX.
Proof.
  unfold wrap_int, INT_MIN, INT_MAX.
  pose proof (Z.mod_pos_bound (z + 2147483648) 4294967296). lia.
Qed.

(** ** SGR *)

Section SGR.

Implicit Types (params : list Z) (s : TerminalWidget) (i : nat).

Lemma processSGR_body_index params i s :
  (i <= (processSGR_body params i s).1)%nat.
Proof.
  unfold processSGR_body.
  repeat (case_match; simpl; try lia).
Qed.

Lemma processSGR_body_defaults params i s :
  m_defaultFg (processSGR_body params i s).2 = m_defaultFg s /\
  m_defaultBg (processSGR_body params i s).2 = m_defaultBg s.
Proof.
  unfold processSGR_body.
  repeat (case_match; simpl; try done).
Qed.

Lemma processSGR_loop_fuel2 params fuel fuel' i s :
  (length params - i <= fuel)%nat ->
  (length params - i <= fuel')%nat ->
  processSGR_loop fuel params i s = processSGR_loop fuel' params i s.
Proof.
  revert fuel' i s.
  induction fuel as [|fuel IH]; intros [|fuel'] i s H1 H2; simpl; try done.
  - destruct (Nat.ltb_spec i (length params)); [lia | done].
  - destruct (Nat.ltb_spec i (length params)); [lia | done].
  - destruct (Nat.ltb_spec i (length params)); [|done].
    pose proof (processSGR_body_index params i s) as Hi.
    destruct (processSGR_body params i s) as [i' s']; simpl in Hi.
    apply IH; lia.
Qed.

(** Any fuel that covers the parameters still to be read gives the
    result of [processSGR_from]: the loop of the source terminates. *)
Lemma processSGR_loop_fuel fuel params i s :
  (length params - i <= fuel)%nat ->
  processSGR_loop fuel params i s = processSGR_from params i s.
Proof.
  intros Hfuel. unfold processSGR_from.
  by apply processSGR_loop_fuel2.
Qed.

(** One iteration of the loop. *)
Lemma processSGR_from_step params i s :
  (i < length params)%nat ->
  processSGR_from params i s =
    processSGR_from params (S (processSGR_body params i s).1)
                    (processSGR_body params i s).2.
Proof.
  intros Hi. unfold processSGR_from at 1.
  destruct (length params - i)%nat as [|fuel] eqn:Hfuel; [lia|].
  simpl. destruct (Nat.ltb_spec i (length params)); [|lia].
  pose proof (processSGR_body_index params i s) as Hidx.
  destruct (processSGR_body params i s) as [i' s']; simpl in *.
  apply processSGR_loop_fuel. lia.
Qed.

Lemma processSGR_from_end params i s :
  (length params <= i)%nat -> processSGR_from params i s = s.
Proof.
  intros Hi. unfold processSGR_from.
  by replace (length params - i)%nat with 0%nat by lia.
Qed.

(** The body only looks at the parameters from [i] on. *)
Lemma processSGR_body_shift (pre params : list Z) i s :
  processSGR_body (pre ++ params) (length pre + i) s =
    ((length pre + (processSGR_body params i s).1)%nat,
     (processSGR_body params i s).2).
Proof.
  unfold processSGR_body.
  rewrite !length_app.
  replace (length pre + i + 1)%nat with (length pre + (i + 1))%nat by lia.
  replace (length pre + i + 2)%nat with (length pre + (i + 2))%nat by lia.
  replace (length pre + i + 3)%nat with (length pre + (i + 3))%nat by lia.
  replace (length pre + i + 4)%nat with (length pre + (i + 4))%nat by lia.
  rewrite !lookup_total_app_r by lia.
  replace (length pre + i - length pre)%nat with i by lia.
  replace (length pre + (i + 1) - length pre)%nat with (i + 1)%nat by lia.
  replace (length pre + (i + 2) - length pre)%nat with (i + 2)%nat by lia.
  replace (length pre + (i + 3) - length pre)%nat with (i + 3)%nat by lia.
  replace (length pre + (i + 4) - length pre)%nat with (i + 4)%nat by lia.
  replace (length pre + (i + 2) <? length pre + length params)%nat
    with (i + 2 <? length params)%nat
    by (destruct (Nat.ltb_spec (i + 2) (length params));
        destruct (Nat.ltb_spec (length pre + (i + 2)) (length pre + length params));
        first [done | lia]).
  replace (length pre + (i + 4) <? length pre + length params)%nat
    with (i + 4 <? length params)%nat
    by (destruct (Nat.ltb_spec (i + 4) (length params));
        destruct (Nat.ltb_spec (length pre + (i + 4)) (length pre + length params));
        first [done | lia]).
  repeat (case_match; simpl; try done).
Qed.

Lemma processSGR_loop_shift (pre params : list Z) fuel i s :
  processSGR_loop fuel (pre ++ params) (length pre + i) s =
    processSGR_loop fuel params i s.
Proof.
  revert i s. induction fuel as [|fuel IH]; intros i s; simpl; [done|].
  rewrite length_app.
  destruct (Nat.ltb_spec i (length params));
    destruct (Nat.ltb_spec (length pre + i) (length pre + length params));
    try lia; [|done].
  rewrite processSGR_body_shift.
  destruct (processSGR_body params i s) as [i' s']; simpl.
  replace (S (length pre + i')) with (length pre + S i')%nat by lia.
  apply IH.
Qed.

(** Processing resumes after a prefix as if the rest were a sequence
    of its own. *)
Lemma processSGR_from_shift (pre params : list Z) s :
  processSGR_from (pre ++ params) (length pre) s = processSGR params s.
Proof.
  unfold processSGR, processSGR_from.
  rewrite length_app.
  replace (length pre + length params - length pre)%nat
    with (length params - 0)%nat by lia.
  pose proof (processSGR_loop_shift pre params (length params - 0) 0 s) as H.
  by rewrite Nat.add_0_r in H.
Qed.

End SGR.

Lemma processSGR_defaults (params : list Z) (s : TerminalWidget) :
  m_defaultFg (processSGR params s) = m_defaultFg s /\
  m_defaultBg (processSGR params s) = m_defaultBg s.
Proof.
  unfold processSGR, processSGR_from.
  generalize (length params - 0)%nat as fuel. generalize 0%nat as i.
  intros i fuel. revert i s.
  induction fuel as [|fuel IH]; intros i s; simpl; [done|].
  destruct (i <? length params)%nat; [|done].
  pose proof (processSGR_body_defaults params i s) as [Hfg Hbg].
  destruct (processSGR_body params i s) as [i' s']; simpl in *.
  destruct (IH (S i') s') as [-> ->]. done.
Qed.

Lemma processSGR_reset (s : TerminalWidget) :
  attributes (processSGR [0] s) = defaultAttributes s.
Proof. reflexivity. Qed.

(** A sequence of style parameters closed by a reset. *)
Lemma processSGR_style_then_reset (ps : list Z) (i : nat) (s : TerminalWidget) :
  Forall (fun p => isStyleParam p = true \/ p = 0) ps ->
  (i <= length ps)%nat ->
  attributes (processSGR_from (ps ++ [0]) i s) = defaultAttributes s.
Proof.
  intros Hps Hi.
  remember (length ps - i)%nat as k eqn:Hk.
  revert i s Hi Hk. induction k as [|k IH]; intros i s Hi Hk.
  - assert (i = length ps) as -> by lia.
    rewrite processSGR_from_step by (rewrite length_app; simpl; lia).
    unfold processSGR_body.
    rewrite lookup_total_app_r by lia. rewrite Nat.sub_diag. simpl.
    rewrite processSGR_from_end by (rewrite length_app; simpl; lia).
    reflexivity.
  - rewrite processSGR_from_step by (rewrite length_app; simpl; lia).
    assert (Hlt : (i < length ps)%nat) by lia.
    destruct (lookup_lt_is_Some_2 ps i Hlt) as [p Hp].
    pose proof (proj1 (Forall_lookup _ ps) Hps i p Hp) as Hstyle.
    assert (Hbody : (processSGR_body (ps ++ [0]) i s).1 = i /\
                    defaultAttributes (processSGR_body (ps ++ [0]) i s).2
                      = defaultAttributes s).
    { unfold processSGR_body.
      rewrite lookup_total_app_l by done.
      rewrite (list_lookup_total_correct ps i p Hp).
      unfold isStyleParam in Hstyle.
      destruct Hstyle as [Hstyle | ->]; [|done].
      repeat (case_match; simpl; try done);
        repeat match goal with
               | H : (_ =? _) = false |- _ => rewrite H in Hstyle
               end; simpl in Hstyle; try discriminate. }
    destruct Hbody as [-> <-].
    apply IH; lia.
Qed.

(** C8: SGR reset, then any bold/italic/underline setters and clearers,
    then SGR reset again, leaves the attribute state equal to the default
    attribute state; both when the parameters come as separate SGR
    sequences and when they come in one sequence. *)
Theorem sgr_reset_round_trip (s : TerminalWidget) :
  (forall cmds : list (list Z),
     Forall (Forall (fun p => isStyleParam p = true)) cmds ->
     attributes
       (processSGR [0]
          (fold_left (fun s ps => processSGR ps s) cmds (processSGR [0] s)))
     = defaultAttributes s) /\
  (forall ps : list Z,
     Forall (fun p => isStyleParam p = true) ps ->
     attributes (processSGR (0 :: ps ++ [0]) s) = defaultAttributes s).
Proof.
  split.
  - intros cmds _.
    rewrite processSGR_reset.
    assert (Hdef : forall s0,
              defaultAttributes
                (fold_left (fun s ps => processSGR ps s) cmds s0)
              = defaultAttributes s0).
    { induction cmds as [|ps cmds IH]; intros s0; simpl; [done|].
      rewrite IH. unfold defaultAttributes.
      by destruct (processSGR_defaults ps s0) as [-> ->]. }
    rewrite Hdef. reflexivity.
  - intros ps Hps.
    change (0 :: ps ++ [0]) with ((0 :: ps) ++ [0]).
    apply processSGR_style_then_reset; [|simpl; lia].
    constructor; [by right|].
    eapply Forall_impl; [exact Hps|]. intros p Hp. by left.
Qed.

(** C10: SGR 38;5;N and 48;5;N with N outside 0..255 leave the state, and
    so the current foreground and background, unchanged; the loop body
    consumes the two extra parameters, and the parameters after them are
    processed as a sequence of their own. *)
Theorem sgr_indexed_color_out_of_range
    (pre rest : list Z) (N : Z) (s : TerminalWidget) :
  ~ (0 <= N < 256) ->
  processSGR_body (pre ++ 38 :: 5 :: N :: rest) (length pre) s
    = ((length pre + 2)%nat, s) /\
  processSGR_body (pre ++ 48 :: 5 :: N :: rest) (length pre) s
    = ((length pre + 2)%nat, s) /\
  processSGR_from (pre ++ 38 :: 5 :: N :: rest) (length pre) s
    = processSGR rest s /\
  processSGR_from (pre ++ 48 :: 5 :: N :: rest) (length pre) s
    = processSGR rest s.
Proof.
  intros HN.
  assert (Hrange : (0 <=? N) && (N <? 256) = false).
  { destruct (Z.leb_spec 0 N), (Z.ltb_spec N 256); simpl; try done. lia. }
  assert (H38 : processSGR_body (38 :: 5 :: N :: rest) 0 s = (2%nat, s)).
  { unfold processSGR_body. simpl. by rewrite Hrange. }
  assert (H48 : processSGR_body (48 :: 5 :: N :: rest) 0 s = (2%nat, s)).
  { unfold processSGR_body. simpl. by rewrite Hrange. }
  repeat split.
  - pose proof (processSGR_body_shift pre (38 :: 5 :: N :: rest) 0 s) as H.
    rewrite Nat.add_0_r, H38 in H. exact H.
  - pose proof (processSGR_body_shift pre (48 :: 5 :: N :: rest) 0 s) as H.
    rewrite Nat.add_0_r, H48 in H. exact H.
  - rewrite processSGR_from_shift. unfold processSGR.
    rewrite processSGR_from_step by (simpl; lia).
    rewrite H38. simpl.
    apply (processSGR_from_shift [38; 5; N] rest s).
  - rewrite processSGR_from_shift. unfold processSGR.
    rewrite processSGR_from_step by (simpl; lia).
    rewrite H48. simpl.
    apply (processSGR_from_shift [48; 5; N] rest s).
Qed.

Lemma sgr_indexed_color_out_of_range_witness :
  processSGR [38; 5; 300; 1] initialTerminal = processSGR [1] initialTerminal.
Proof.
  apply (sgr_indexed_color_out_of_range [] [1] 300 initialTerminal). lia.
Defined.

Lemma sgr_reset_round_trip_witness :
  Forall (Forall (fun p => isStyleParam p = true)) [[1]; [3; 4]; [22]] /\
  attributes
    (processSGR [0]
       (fold_left (fun s ps => processSGR ps s) [[1]; [3; 4]; [22]]
          (processSGR [0] initialTerminal)))
  = defaultAttributes initialTerminal.
Proof.
  assert (H : Forall (Forall (fun p => isStyleParam p = true)) [[1]; [3; 4]; [22]]).
  { repeat constructor. }
  split; [exact H|].
  exact (proj1 (sgr_reset_round_trip initialTerminal) [[1]; [3; 4]; [22]] H).
Defined.

(** ** Reading fields through field updates *)

Ltac fields :=
  cbn [m_rows m_cols m_buffer m_colorPalette m_defaultFg m_defaultBg
       m_currentFg m_currentBg m_cursorX m_cursorY m_savedCursorX
       m_savedCursorY m_cursorVisible m_pendingNewline m_bold m_italic
       m_underline m_utf8Remaining m_utf8Buffer m_escapeState
       m_escapeSequence
       set_m_rows set_m_cols set_m_buffer set_m_currentFg set_m_currentBg
       set_m_cursorX set_m_cursorY set_m_savedCursorX set_m_savedCursorY
       set_m_cursorVisible set_m_pendingNewline set_m_bold set_m_italic
       set_m_underline set_m_utf8Remaining set_m_utf8Buffer
       set_m_escapeState set_m_escapeSequence] in *.

(** Evaluate the character literals of the goal. *)
Ltac chars :=
  repeat match goal with
         | |- context [chr ?a] =>
             let v := eval vm_compute in (chr a) in change (chr a) with v
         | H : context [chr ?a] |- _ =>
             let v := eval vm_compute in (chr a) in change (chr a) with v in H
         end.

(** ** The escape state machine *)

Lemma nextRow_escapeState (s : TerminalWidget) :
  m_escapeState (nextRow s) = m_escapeState s.
Proof. unfold nextRow, scrollUp. fields. by case_match. Qed.

Lemma lineWrap_escapeState (s : TerminalWidget) :
  m_escapeState (lineWrap s) = m_escapeState s.
Proof. unfold lineWrap. case_match; [|done]. by rewrite nextRow_escapeState. Qed.

Lemma processRegularChar_escapeState (c : Z) (s : TerminalWidget) :
  m_escapeState (processRegularChar c s) = m_escapeState s.
Proof.
  unfold processRegularChar, storeAtCursor.
  repeat (case_match; try done);
    fields; rewrite ?lineWrap_escapeState, ?nextRow_escapeState; done.
Qed.

(** C4, as the code has it: in the Escape state '[' opens a CSI sequence,
    ']' an OSC sequence, '%' is swallowed and leaves the parser in the
    Escape state, and every other character returns the parser to Ground
    and goes through [processRegularChar].  For every such character but
    ESC this is exactly what the character does in Ground state, so a
    character from 0x20 up is written at the cursor; an ESC is dropped:
    the parser returns to Ground and no new sequence is begun. *)
Theorem escape_state_transitions (c : Z) (s : TerminalWidget) :
  m_escapeState s = EscapeState.Escape ->
  (c = chr "[" ->
     processChar c s = set_m_escapeState EscapeState.Bracket s) /\
  (c = chr "]" ->
     processChar c s
       = set_m_escapeSequence [] (set_m_escapeState EscapeState.OSC s)) /\
  (c = chr "%" -> processChar c s = s) /\
  (c <> chr "[" -> c <> chr "]" -> c <> chr "%" ->
     processChar c s
       = processRegularChar c (set_m_escapeState EscapeState.None s) /\
     m_escapeState (processChar c s) = EscapeState.None /\
     (c <> chr "027" ->
        processChar c s = processChar c (set_m_escapeState EscapeState.None s)) /\
     (c = chr "027" ->
        processChar c s = set_m_escapeState EscapeState.None s) /\
     (32 <= c ->
        let ground := set_m_escapeState EscapeState.None s in
        processChar c s =
          lineWrap
            (set_m_cursorX (int_add (m_cursorX s) 1)
               (storeAtCursor (fromLatin1 c) (set_m_pendingNewline false ground))))).
Proof.
  intros Hst.
  split; [intros ->; unfold processChar; by rewrite Hst|].
  split; [intros ->; unfold processChar; by rewrite Hst|].
  split; [intros ->; unfold processChar; by rewrite Hst|].
  intros Hlb Hrb Hpct.
  assert (Hmain : processChar c s
                  = processRegularChar c (set_m_escapeState EscapeState.None s)).
  { unfold processChar. rewrite Hst.
    destruct (Z.eqb_spec c (chr "[")); [done|].
    destruct (Z.eqb_spec c (chr "]")); [done|].
    by destruct (Z.eqb_spec c (chr "%")). }
  split; [exact Hmain|].
  split; [by rewrite Hmain, processRegularChar_escapeState|].
  split; [|split].
  - intros Hesc. rewrite Hmain. unfold processChar. fields.
    by destruct (Z.eqb_spec c (chr "027")).
  - intros ->. rewrite Hmain. reflexivity.
  - intros Hprint ground. subst ground. rewrite Hmain.
    unfold processRegularChar. chars.
    repeat match goal with
           | |- context [c =? ?k] => destruct (Z.eqb_spec c k); [lia|]
           end.
    destruct (Z.leb_spec 32 c); [reflexivity | lia].
Qed.

Lemma escape_state_transitions_witness :
  m_escapeState (set_m_escapeState EscapeState.Escape initialTerminal)
    = EscapeState.Escape /\
  chr "c" <> chr "[" /\ chr "c" <> chr "]" /\ chr "c" <> chr "%" /\
  m_escapeState
    (processChar (chr "c") (set_m_escapeState EscapeState.Escape initialTerminal))
    = EscapeState.None /\
  processChar (chr "c") (set_m_escapeState EscapeState.Escape initialTerminal)
    = processChar (chr "c") initialTerminal.
Proof.
  assert (H1 : chr "c" <> chr "[") by (vm_compute; discriminate).
  assert (H2 : chr "c" <> chr "]") by (vm_compute; discriminate).
  assert (H3 : chr "c" <> chr "%") by (vm_compute; discriminate).
  assert (H4 : chr "c" <> chr "027") by (vm_compute; discriminate).
  split; [reflexivity|].
  split; [exact H1|]. split; [exact H2|]. split; [exact H3|].
  destruct (escape_state_transitions (chr "c")
              (set_m_escapeState EscapeState.Escape initialTerminal) eq_refl)
    as (_ & _ & _ & Hother).
  destruct (Hother H1 H2 H3) as (_ & Hground & Hsame & _).
  split; [exact Hground|]. exact (Hsame H4).
Defined.

(** C4 as stated fails: after ESC, the character '%' is neither '[' nor
    ']' and the parser remains in the Escape state. *)
Lemma escape_percent_stays_in_escape :
  chr "%" <> chr "[" /\ chr "%" <> chr "]" /\
  m_escapeState (processOutput [chr "027"] initialTerminal) = EscapeState.Escape /\
  m_escapeState (processOutput [chr "027"; chr "%"] initialTerminal)
    = EscapeState.Escape.
Proof. repeat split; by vm_compute. Qed.

(** ** Counted loops *)

Section ForRange.

Context {S : Type}.
Implicit Types (body : Z -> S -> S) (s : S).

Lemma for_range_empty lo hi body s :
  hi <= lo -> for_range lo hi body s = s.
Proof. intros H. unfold for_range. by rewrite seqZ_nil by lia. Qed.

Lemma for_range_last lo hi body s :
  lo <= hi ->
  for_range lo (hi + 1) body s = body hi (for_range lo hi body s).
Proof.
  intros H. unfold for_range.
  replace (hi + 1 - lo) with ((hi - lo) + 1) by lia.
  rewrite seqZ_app by lia. rewrite fold_left_app. simpl.
  by replace (lo + (hi - lo)) with hi by lia.
Qed.

(** Loop invariants: [P i acc] holds before iteration [i]. *)
Lemma for_range_ind (P : Z -> S -> Prop) lo hi body s :
  lo <= hi ->
  P lo s ->
  (forall i acc, lo <= i < hi -> P i acc -> P (i + 1) (body i acc)) ->
  P hi (for_range lo hi body s).
Proof.
  intros Hle Hinit Hstep.
  assert (H : forall n : nat, lo + Z.of_nat n <= hi ->
                P (lo + Z.of_nat n) (for_range lo (lo + Z.of_nat n) body s)).
  { induction n as [|n IH]; intros Hn.
    - rewrite Z.add_0_r. by rewrite for_range_empty by lia.
    - replace (lo + Z.of_nat (Datatypes.S n)) with (lo + Z.of_nat n + 1) by lia.
      rewrite for_range_last by lia.
      apply Hstep; [lia|]. apply IH. lia. }
  specialize (H (Z.to_nat (hi - lo))).
  replace (lo + Z.of_nat (Z.to_nat (hi - lo))) with hi in H by lia.
  apply H. lia.
Qed.

End ForRange.

(** ** Cells of the grid *)

Lemma cell_buffer_alter (f : TermChar -> TermChar) (y x : Z)
    (buf : list (list TermChar)) (y' x' : nat) :
  0 <= y -> 0 <= x ->
  cell (buffer_alter f y x buf) y' x' =
    if decide (y' = Z.to_nat y /\ x' = Z.to_nat x)
    then f <$> cell buf y' x' else cell buf y' x'.
Proof.
  intros Hy Hx. unfold cell, buffer_alter.
  destruct (Z.leb_spec 0 y); [|lia]. destruct (Z.leb_spec 0 x); [|lia]. simpl.
  destruct (decide (y' = Z.to_nat y)) as [->|Hne].
  - rewrite list_lookup_alter_eq.
    destruct (buf !! Z.to_nat y) as [row|]; simpl.
    + destruct (decide (x' = Z.to_nat x)) as [->|Hne].
      * rewrite decide_True by done. by rewrite list_lookup_alter_eq.
      * rewrite decide_False by tauto.
        by rewrite list_lookup_alter_ne.
    + by case_decide.
  - rewrite decide_False by tauto.
    by rewrite list_lookup_alter_ne.
Qed.

Lemma buffer_get_cell (buf : list (list TermChar)) (y x : Z) (t : TermChar) :
  cell buf (Z.to_nat y) (Z.to_nat x) = Some t -> buffer_get buf y x = t.
Proof.
  unfold cell, buffer_get, vec_get. intros H.
  destruct (buf !! Z.to_nat y) as [row|] eqn:Hrow; simpl in H; [|done].
  rewrite (list_lookup_total_correct _ _ _ Hrow).
  by apply list_lookup_total_correct.
Qed.

Lemma cell_wf (s : TerminalWidget) (y x : nat) :
  buffer_wf s ->
  (Z.of_nat y < m_rows s) -> (Z.of_nat x < m_cols s) ->
  is_Some (cell (m_buffer s) y x).
Proof.
  intros [Hlen Hrows] Hy Hx. unfold cell.
  destruct (lookup_lt_is_Some_2 (m_buffer s) y) as [row Hrow]; [lia|].
  rewrite Hrow. simpl.
  apply lookup_lt_is_Some_2.
  rewrite Forall_lookup in Hrows. rewrite (Hrows _ _ Hrow). lia.
Qed.

Lemma cell_replicate (r c : nat) (d : TermChar) (y x : nat) :
  cell (replicate r (replicate c d)) y x =
    if decide (y < r /\ x < c)%nat then Some d else None.
Proof.
  unfold cell.
  destruct (decide (y < r)%nat) as [Hy|Hy].
  - rewrite lookup_replicate_2 by done. simpl.
    destruct (decide (x < c)%nat) as [Hx|Hx].
    + rewrite lookup_replicate_2 by done. by rewrite decide_True.
    + rewrite decide_False by tauto.
      apply lookup_replicate_None. lia.
  - rewrite decide_False by tauto.
    assert (replicate r (replicate c d) !! y = None) as ->; [|done].
    apply lookup_replicate_None. lia.
Qed.

Lemma qMin_lt (a b i : Z) : i < qMin a b <-> i < a /\ i < b.
Proof. unfold qMin. destruct (Z.ltb_spec a b); lia. Qed.

(** ** Resizing *)

(** The inner copy loop writes columns [0 .. m-1] of row [y]. *)
Lemma cell_copy_columns (g : Z -> TermChar) (y m : Z)
    (buf : list (list TermChar)) (y' x' : nat) :
  0 <= y ->
  cell (for_range 0 m (fun x nb => buffer_set (g x) y x nb) buf) y' x' =
    if decide (y' = Z.to_nat y /\ Z.of_nat x' < m)
    then (fun _ => g (Z.of_nat x')) <$> cell buf y' x'
    else cell buf y' x'.
Proof.
  intros Hy.
  destruct (Z.le_gt_cases m 0) as [Hm|Hm].
  { rewrite for_range_empty by done. rewrite decide_False by lia. done. }
  set (P := fun (i : Z) (acc : list (list TermChar)) => forall y' x',
              cell acc y' x' =
                if decide (y' = Z.to_nat y /\ Z.of_nat x' < i)
                then (fun _ => g (Z.of_nat x')) <$> cell buf y' x'
                else cell buf y' x').
  revert y' x'. change (P m (for_range 0 m (fun x nb => buffer_set (g x) y x nb) buf)).
  apply for_range_ind; [lia| |]; unfold P.
  - intros y' x'. by rewrite decide_False by lia.
  - intros i acc Hi IH y' x'.
    unfold buffer_set. rewrite cell_buffer_alter by lia. rewrite IH.
    repeat case_decide; try done; try lia;
      destruct (cell buf y' x'); simpl; try done; do 2 f_equal; lia.
Qed.

(** The nested copy loops write the rectangle [n] by [m]. *)
Lemma cell_copy_rectangle (g : Z -> Z -> TermChar) (n m : Z)
    (buf : list (list TermChar)) (y' x' : nat) :
  cell (for_range 0 n
          (fun y nb => for_range 0 m (fun x nb => buffer_set (g y x) y x nb) nb)
          buf) y' x' =
    if decide (Z.of_nat y' < n /\ Z.of_nat x' < m)
    then (fun _ => g (Z.of_nat y') (Z.of_nat x')) <$> cell buf y' x'
    else cell buf y' x'.
Proof.
  destruct (Z.le_gt_cases n 0) as [Hn|Hn].
  { rewrite for_range_empty by done. rewrite decide_False by lia. done. }
  set (P := fun (i : Z) (acc : list (list TermChar)) => forall y' x',
              cell acc y' x' =
                if decide (Z.of_nat y' < i /\ Z.of_nat x' < m)
                then (fun _ => g (Z.of_nat y') (Z.of_nat x')) <$> cell buf y' x'
                else cell buf y' x').
  revert y' x'.
  change (P n (for_range 0 n
                 (fun y nb => for_range 0 m (fun x nb => buffer_set (g y x) y x nb) nb)
                 buf)).
  apply for_range_ind; [lia| |]; unfold P.
  - intros y' x'. by rewrite decide_False by lia.
  - intros i acc Hi IH y' x'.
    rewrite (cell_copy_columns (g i)) by lia. rewrite IH.
    repeat case_decide; try done; try lia;
      destruct (cell buf y' x'); simpl; try done; do 2 f_equal; lia.
Qed.

(** The grid after [resizeBuffer]: the overlapping top-left rectangle is
    copied, every other cell is a default cell. *)
Lemma resizeBuffer_cell (newRows newCols : Z) (s : TerminalWidget) (y x : nat) :
  cell (m_buffer (resizeBuffer newRows newCols s)) y x =
    if decide (Z.of_nat y < newRows /\ Z.of_nat x < newCols)
    then Some (if decide (Z.of_nat y < m_rows s /\ Z.of_nat x < m_cols s)
               then buffer_get (m_buffer s) (Z.of_nat y) (Z.of_nat x)
               else TermChar_default)
    else None.
Proof.
  unfold resizeBuffer. fields.
  rewrite (cell_copy_rectangle (fun y x => buffer_get (m_buffer s) y x)).
  rewrite cell_replicate.
  repeat case_decide; try done;
    repeat match goal with
           | H : context [qMin _ _] |- _ => rewrite qMin_lt in H
           end; lia.
Qed.

Lemma resizeBuffer_dims (newRows newCols : Z) (s : TerminalWidget) :
  m_rows (resizeBuffer newRows newCols s) = newRows /\
  m_cols (resizeBuffer newRows newCols s) = newCols.
Proof. done. Qed.

(** ** Scrolling *)

Lemma alter_alter {A : Type} (f g : A -> A) (i : nat) (l : list A) :
  alter f i (alter g i l) = alter (fun a => f (g a)) i l.
Proof.
  apply list_eq. intros j.
  destruct (decide (i = j)) as [->|Hne].
  - rewrite !list_lookup_alter_eq. by destruct (l !! j).
  - by rewrite !list_lookup_alter_ne.
Qed.

Lemma alter_ge {A : Type} (f : A -> A) (i : nat) (l : list A) :
  (length l <= i)%nat -> alter f i l = l.
Proof.
  intros Hi. apply list_eq. intros j.
  destruct (decide (i = j)) as [->|Hne].
  - rewrite list_lookup_alter_eq.
    by rewrite (proj2 (lookup_ge_None l j) Hi).
  - by rewrite list_lookup_alter_ne.
Qed.

(** Overwriting columns [0 .. m-1] of one row with the same cell. *)
Lemma fill_columns (t : TermChar) (y m : Z) (buf : list (list TermChar)) :
  0 <= y -> 0 <= m ->
  for_range 0 m (fun x b => buffer_set t y x b) buf =
    alter (fun row => replicate (Z.to_nat m `min` length row) t
                      ++ drop (Z.to_nat m) row)
          (Z.to_nat y) buf.
Proof.
  intros Hy Hm.
  set (F := fun (i : Z) (row : list TermChar) =>
              replicate (Z.to_nat i `min` length row) t ++ drop (Z.to_nat i) row).
  set (P := fun (i : Z) (acc : list (list TermChar)) =>
              acc = alter (F i) (Z.to_nat y) buf).
  change (P m (for_range 0 m (fun x b => buffer_set t y x b) buf)).
  apply for_range_ind; [done| |]; unfold P.
  - symmetry. apply list_alter_id. intros row. unfold F. simpl. by rewrite drop_0.
  - intros i acc Hi ->.
    unfold buffer_set, buffer_alter.
    destruct (Z.leb_spec 0 y); [|lia]. destruct (Z.leb_spec 0 i); [|lia]. simpl.
    rewrite alter_alter.
    apply list_alter_ext; [|done].
    intros row _. unfold F.
    replace (Z.to_nat (i + 1)) with (S (Z.to_nat i)) by lia.
    destruct (decide (Z.to_nat i < length row)%nat) as [Hlt|Hge].
    + replace (Z.to_nat i `min` length row)%nat with (Z.to_nat i) by lia.
      replace (S (Z.to_nat i) `min` length row)%nat with (S (Z.to_nat i)) by lia.
      destruct (lookup_lt_is_Some_2 row (Z.to_nat i) Hlt) as [c Hc].
      rewrite (drop_S row c (Z.to_nat i) Hc).
      pose proof (alter_app_r (fun _ => t) (replicate (Z.to_nat i) t)
                    (c :: drop (S (Z.to_nat i)) row) 0) as Happ.
      rewrite length_replicate, Nat.add_0_r in Happ. rewrite Happ. simpl.
      change (t :: drop (S (Z.to_nat i)) row)
        with ([t] ++ drop (S (Z.to_nat i)) row).
      rewrite app_assoc, <- replicate_S_end. done.
    + replace (Z.to_nat i `min` length row)%nat with (length row) by lia.
      replace (S (Z.to_nat i) `min` length row)%nat with (length row) by lia.
      rewrite !drop_ge by lia. rewrite !app_nil_r.
      apply alter_ge. rewrite length_replicate. lia.
Qed.

(** The loop that moves all lines up one position. *)
Lemma shift_rows (buf : list (list TermChar)) (n : Z) :
  n = Z.of_nat (length buf) -> 1 <= n <= INT_MAX ->
  for_range 0 (int_sub n 1)
    (fun y buf => vec_set y (vec_get buf (int_add y 1)) buf) buf
  = drop 1 buf ++ drop (length buf - 1) buf.
Proof.
  intros Hn Hrange.
  unfold int_sub. rewrite wrap_int_id by (unfold INT_MIN, INT_MAX in *; lia).
  set (P := fun (i : Z) (acc : list (list TermChar)) =>
              length acc = length buf /\
              forall j : nat,
                acc !! j = if decide (Z.of_nat j < i) then buf !! S j else buf !! j).
  assert (HP : P (n - 1)
                 (for_range 0 (n - 1)
                    (fun y buf => vec_set y (vec_get buf (int_add y 1)) buf) buf)).
  { apply for_range_ind; [lia| |]; unfold P.
    - split; [done|]. intros j. by rewrite decide_False by lia.
    - intros i acc Hi [Hlen IH].
      unfold vec_set, vec_get, int_add.
      rewrite wrap_int_id by (unfold INT_MIN, INT_MAX in *; lia).
      destruct (Z.leb_spec 0 i); [|lia].
      split; [by rewrite length_insert|].
      intros j. rewrite list_lookup_insert.
      destruct (decide (Z.to_nat i = j)) as [<-|Hne].
      + rewrite decide_True by lia. rewrite decide_True by lia.
        rewrite list_lookup_total_alt.
        rewrite IH. rewrite decide_False by lia.
        replace (Z.to_nat (i + 1)) with (S (Z.to_nat i)) by lia.
        destruct (lookup_lt_is_Some_2 buf (S (Z.to_nat i))) as [row Hrow]; [lia|].
        by rewrite Hrow.
      + rewrite decide_False by tauto. rewrite IH.
        repeat case_decide; try done; lia. }
  destruct HP as [Hlen Hlook].
  apply list_eq. intros j. rewrite Hlook.
  rewrite lookup_app, !lookup_drop. simpl.
  case_decide.
  - destruct (lookup_lt_is_Some_2 buf (S j)) as [row Hrow]; [lia|].
    by rewrite Hrow.
  - rewrite (proj2 (lookup_ge_None buf (S j))) by lia.
    rewrite length_drop.
    destruct (decide (j < length buf)%nat).
    + f_equal. lia.
    + rewrite !(proj2 (lookup_ge_None buf _)) by lia. done.
Qed.

(** [scrollUp] drops the top row and appends a row of default cells. *)
Lemma scrollUp_buffer (s : TerminalWidget) :
  buffer_wf s -> 1 <= m_rows s <= INT_MAX -> 0 <= m_cols s ->
  m_buffer (scrollUp s) =
    drop 1 (m_buffer s) ++ [replicate (Z.to_nat (m_cols s)) TermChar_default].
Proof.
  intros [Hlen Hrows] Hr Hc.
  unfold scrollUp. fields.
  rewrite shift_rows by (done || lia).
  unfold int_sub. rewrite wrap_int_id by (unfold INT_MIN, INT_MAX in *; lia).
  rewrite fill_columns by lia.
  destruct (lookup_lt_is_Some_2 (m_buffer s) (length (m_buffer s) - 1))
    as [lastrow Hlast]; [lia|].
  rewrite (drop_S _ _ _ Hlast).
  rewrite (drop_ge _ (S (length (m_buffer s) - 1))) by lia.
  pose proof (alter_app_r
                (fun row => replicate (Z.to_nat (m_cols s) `min` length row)
                              TermChar_default ++ drop (Z.to_nat (m_cols s)) row)
                (drop 1 (m_buffer s)) [lastrow] 0) as Happ.
  rewrite length_drop, Nat.add_0_r in Happ.
  replace (Z.to_nat (m_rows s - 1)) with (length (m_buffer s) - 1)%nat by lia.
  rewrite Happ. simpl. do 2 f_equal.
  rewrite Forall_lookup in Hrows. rewrite (Hrows _ _ Hlast).
  rewrite Nat.min_id. rewrite drop_ge by (rewrite (Hrows _ _ Hlast); lia).
  by rewrite app_nil_r.
Qed.

(** ** Line feed *)

(** C1, as the code has it: in Ground state a line feed that arrives while
    no line feed is pending advances the cursor one row, resets the column
    to 0 and marks a line feed as pending; the grid is untouched unless the
    cursor is on the bottom row, where it scrolls up by one row.  A line
    feed that arrives while one is pending only clears the mark. *)
Theorem line_feed_advances_unless_pending (s : TerminalWidget) :
  m_escapeState s = EscapeState.None ->
  buffer_wf s ->
  1 <= m_rows s <= INT_MAX -> 0 <= m_cols s ->
  0 <= m_cursorY s < m_rows s ->
  let s' := processChar (chr "010") s in
  (m_pendingNewline s = false ->
     m_cursorX s' = 0 /\ m_pendingNewline s' = true /\
     (m_cursorY s + 1 < m_rows s ->
        m_cursorY s' = m_cursorY s + 1 /\ m_buffer s' = m_buffer s) /\
     (m_cursorY s + 1 = m_rows s ->
        m_cursorY s' = m_cursorY s /\
        m_buffer s' =
          drop 1 (m_buffer s)
          ++ [replicate (Z.to_nat (m_cols s)) TermChar_default])) /\
  (m_pendingNewline s = true -> s' = set_m_pendingNewline false s).
Proof.
  intros Hst Hwf Hrows Hcols Hy s'. subst s'.
  unfold processChar. rewrite Hst.
  change (chr "010" =? chr "027") with false. cbv iota.
  unfold processRegularChar.
  change (chr "010" =? chr "013") with false.
  change (chr "010" =? chr "010") with true. cbv iota.
  split; intros Hpending; rewrite Hpending; [|done].
  unfold nextRow. fields.
  unfold int_add. rewrite wrap_int_id by (unfold INT_MIN, INT_MAX in *; lia).
  destruct (Z.leb_spec (m_rows s) (m_cursorY s + 1)) as [Hbottom|Hinside]; fields.
  - repeat split; try lia.
    + unfold scrollUp. fields.
      unfold int_sub. rewrite wrap_int_id by (unfold INT_MIN, INT_MAX in *; lia).
      lia.
    + pose proof (scrollUp_buffer s Hwf Hrows Hcols) as Hscroll.
      unfold scrollUp in *. fields. exact Hscroll.
  - repeat split; try lia.
Qed.

Lemma line_feed_advances_unless_pending_witness :
  m_escapeState initialTerminal = EscapeState.None /\
  m_pendingNewline initialTerminal = false /\
  m_cursorY initialTerminal + 1 < m_rows initialTerminal /\
  m_cursorY (processChar (chr "010") initialTerminal)
    = m_cursorY initialTerminal + 1.
Proof.
  assert (Hwf : buffer_wf initialTerminal).
  { split; [reflexivity|]. apply Forall_forall. intros row Hin.
    apply elem_of_replicate in Hin as [-> _]. reflexivity. }
  assert (Hrows : 1 <= m_rows initialTerminal <= INT_MAX).
  { unfold INT_MAX. simpl. lia. }
  assert (Hcols : 0 <= m_cols initialTerminal) by (simpl; lia).
  assert (Hy : 0 <= m_cursorY initialTerminal < m_rows initialTerminal)
    by (simpl; lia).
  assert (Hlt : m_cursorY initialTerminal + 1 < m_rows initialTerminal)
    by (simpl; lia).
  split; [reflexivity|]. split; [reflexivity|]. split; [exact Hlt|].
  exact (proj1 (proj1 (proj2 (proj2
           (proj1 (line_feed_advances_unless_pending initialTerminal
                     eq_refl Hwf Hrows Hcols Hy) eq_refl))) Hlt)).
Defined.

(** C1 as stated fails: of two line feeds in a row on the fresh 24x80
    grid, the first moves the cursor from row 0 to row 1 and the second
    leaves it on row 1. *)
Lemma second_line_feed_is_swallowed :
  let s1 := processOutput [chr "010"] initialTerminal in
  let s2 := processOutput [chr "010"; chr "010"] initialTerminal in
  m_escapeState s1 = EscapeState.None /\
  (m_cursorY s1, m_cursorX s1) = (1, 0) /\
  (m_cursorY s2, m_cursorX s2) = (1, 0) /\
  m_cursorY s2 <> m_cursorY s1 + 1.
Proof. repeat split; by vm_compute. Qed.

(** ** Printable characters *)

Lemma printable_is_ascii (c : Z) : isPrintableAscii c -> Z.land c 128 = 0.
Proof.
  unfold isPrintableAscii. intros Hc.
  apply (forall_range_decide (fun c => Z.land c 128 = 0) 32 95); [by vm_compute | lia].
Qed.

(** What one printable byte does in Ground state with no UTF-8 sequence
    pending. *)
Lemma processByte_printable (c : Z) (s : TerminalWidget) :
  isPrintableAscii c ->
  m_utf8Remaining s = 0 ->
  m_escapeState s = EscapeState.None ->
  processByte c s =
    lineWrap (set_m_cursorX (int_add (m_cursorX s) 1)
                (storeAtCursor c (set_m_pendingNewline false s))).
Proof.
  intros Hc Hutf Hst.
  unfold processByte. rewrite Hutf. change (0 <? 0) with false. cbv iota.
  unfold startByte. rewrite (printable_is_ascii c Hc). simpl negb. cbv iota.
  unfold processChar. rewrite Hst.
  unfold isPrintableAscii in Hc.
  unfold processRegularChar. chars.
  repeat match goal with
         | |- context [c =? ?k] =>
             destruct (Z.eqb_spec c k); [lia|]
         end.
  destruct (Z.leb_spec 32 c); [|lia].
  unfold fromLatin1. rewrite Z.mod_small by lia. done.
Qed.

Lemma cell_storeAtCursor (ch : QChar) (s : TerminalWidget) (y' x' : nat) :
  0 <= m_cursorY s -> 0 <= m_cursorX s ->
  cell (m_buffer (storeAtCursor ch s)) y' x' =
    if decide (y' = Z.to_nat (m_cursorY s) /\ x' = Z.to_nat (m_cursorX s))
    then (fun _ => glyphCell s ch) <$> cell (m_buffer s) y' x'
    else cell (m_buffer s) y' x'.
Proof.
  intros Hy Hx. unfold storeAtCursor. fields.
  by rewrite cell_buffer_alter.
Qed.

(** A run of printable characters that fits the rest of the row. *)
Lemma printable_run_from (chars : list Z) :
  forall (s : TerminalWidget),
  m_utf8Remaining s = 0 ->
  m_escapeState s = EscapeState.None ->
  0 <= m_cursorX s -> 0 <= m_cursorY s ->
  m_cursorY s + 1 < m_rows s -> m_rows s <= INT_MAX -> m_cols s <= INT_MAX ->
  Forall isPrintableAscii chars ->
  m_cursorX s + Z.of_nat (length chars) <= m_cols s ->
  let s' := processOutput chars s in
  (chars <> [] ->
     if m_cursorX s + Z.of_nat (length chars) <? m_cols s
     then m_cursorY s' = m_cursorY s /\
          m_cursorX s' = m_cursorX s + Z.of_nat (length chars)
     else m_cursorY s' = m_cursorY s + 1 /\ m_cursorX s' = 0) /\
  (forall y' x',
     cell (m_buffer s') y' x' =
       if decide (y' = Z.to_nat (m_cursorY s) /\
                  (Z.to_nat (m_cursorX s) <= x'
                   < Z.to_nat (m_cursorX s) + length chars)%nat)
       then (fun _ => glyphCell s (chars !!! (x' - Z.to_nat (m_cursorX s))%nat))
              <$> cell (m_buffer s) y' x'
       else cell (m_buffer s) y' x').
Proof.
  induction chars as [|c rest IH]; intros s Hutf Hst Hx Hy Hrow Hrows Hcols Hall Hfit s'.
  { subst s'. simpl. split; [done|]. intros y' x'. by rewrite decide_False by lia. }
  subst s'. simpl processOutput.
  apply Forall_cons in Hall as [Hc Hrest].
  rewrite (processByte_printable c s Hc Hutf Hst).
  simpl length in *.
  set (s0 := set_m_cursorX (int_add (m_cursorX s) 1)
               (storeAtCursor c (set_m_pendingNewline false s))).
  assert (Hx0 : m_cursorX s0 = m_cursorX s + 1).
  { unfold s0, storeAtCursor. fields. unfold int_add.
    apply wrap_int_id. unfold INT_MIN, INT_MAX in *. lia. }
  assert (Hcell0 : forall y' x',
            cell (m_buffer s0) y' x' =
              if decide (y' = Z.to_nat (m_cursorY s) /\ x' = Z.to_nat (m_cursorX s))
              then (fun _ => glyphCell s c) <$> cell (m_buffer s) y' x'
              else cell (m_buffer s) y' x').
  { intros y' x'. unfold s0. fields.
    rewrite cell_storeAtCursor by (fields; done). fields. done. }
  assert (Hframe : m_utf8Remaining s0 = 0 /\
                   m_escapeState s0 = EscapeState.None /\
                   m_cursorY s0 = m_cursorY s /\
                   m_rows s0 = m_rows s /\ m_cols s0 = m_cols s /\
                   (forall ch, glyphCell s0 ch = glyphCell s ch)).
  { unfold s0, storeAtCursor, glyphCell. fields. done. }
  destruct Hframe as (Hutf0 & Hst0 & Hy0 & Hrows0 & Hcols0 & Hglyph0).
  clearbody s0.
  unfold lineWrap. rewrite Hcols0, Hx0.
  destruct (Z.leb_spec (m_cols s) (m_cursorX s + 1)) as [Hwrap|Hstay].
  - (* the last column was written: the run ends here *)
    assert (rest = []) as ->.
    { destruct rest; [done|]. simpl length in Hfit. lia. }
    simpl processOutput.
    unfold nextRow. fields. rewrite Hy0, Hrows0.
    unfold int_add. rewrite wrap_int_id by (unfold INT_MIN, INT_MAX in *; lia).
    destruct (Z.leb_spec (m_rows s) (m_cursorY s + 1)) as [Hbad|_]; [lia|].
    fields. split.
    + intros _. simpl length.
      destruct (Z.ltb_spec (m_cursorX s + Z.of_nat 1) (m_cols s)) as [Hlt|_]; [lia|done].
    + intros y' x'. rewrite Hcell0. simpl length.
      repeat case_decide; try done; try lia.
      destruct (cell (m_buffer s) y' x'); simpl; [|done].
      do 2 f_equal.
      replace (x' - Z.to_nat (m_cursorX s))%nat with 0%nat by lia. done.
  - (* the cursor stays on the row *)
    specialize (IH s0 Hutf0 Hst0).
    rewrite Hx0, Hy0, Hrows0, Hcols0 in IH.
    specialize (IH ltac:(lia) ltac:(lia) ltac:(lia) ltac:(lia) ltac:(lia) Hrest ltac:(lia)).
    destruct IH as [IHcur IHcell].
    split.
    + intros _.
      destruct rest as [|c' rest'].
      * simpl processOutput. simpl length.
        destruct (Z.ltb_spec (m_cursorX s + Z.of_nat 1) (m_cols s)) as [_|Hge]; [|lia].
        rewrite Hx0, Hy0. lia.
      * specialize (IHcur ltac:(done)).
        replace (m_cursorX s + Z.of_nat (S (length (c' :: rest'))))
          with (m_cursorX s + 1 + Z.of_nat (length (c' :: rest'))) by lia.
        destruct (_ <? _); lia.
    + intros y' x'. rewrite IHcell, Hcell0.
      replace (Z.to_nat (m_cursorX s + 1)) with (S (Z.to_nat (m_cursorX s))) by lia.
      repeat case_decide; try done; try lia.
      * destruct (cell (m_buffer s) y' x'); simpl; [|done].
        rewrite Hglyph0. do 2 f_equal.
        replace (x' - Z.to_nat (m_cursorX s))%nat
          with (S (x' - S (Z.to_nat (m_cursorX s))))%nat by lia.
        done.
      * destruct (cell (m_buffer s) y' x'); simpl; [|done].
        do 2 f_equal.
        replace (x' - Z.to_nat (m_cursorX s))%nat with 0%nat by lia. done.
Qed.

Lemma initialTerminal_wf : buffer_wf initialTerminal.
Proof.
  split; [reflexivity|]. apply Forall_forall. intros row Hin.
  apply elem_of_replicate in Hin as [-> _]. reflexivity.
Qed.

(** C6: from column 0 of a row that is not the bottom row, n < cols
    printable ASCII characters leave the cursor at column n of that row,
    exactly cols of them leave it at column 0 of the next row; in both
    cases cells 0..n-1 of the row hold those characters (with the current
    attributes) and no other cell changes. *)
Theorem printable_run (chars : list Z) (s : TerminalWidget) :
  m_utf8Remaining s = 0 ->
  m_escapeState s = EscapeState.None ->
  buffer_wf s ->
  1 <= m_cols s <= INT_MAX -> m_rows s <= INT_MAX ->
  m_cursorX s = 0 ->
  0 <= m_cursorY s -> m_cursorY s + 1 < m_rows s ->
  Forall isPrintableAscii chars ->
  let n := Z.of_nat (length chars) in
  let s' := processOutput chars s in
  (n < m_cols s -> m_cursorY s' = m_cursorY s /\ m_cursorX s' = n) /\
  (n = m_cols s -> m_cursorY s' = m_cursorY s + 1 /\ m_cursorX s' = 0) /\
  (n <= m_cols s ->
     (forall (i : nat) (c : Z), chars !! i = Some c ->
        cell (m_buffer s') (Z.to_nat (m_cursorY s)) i = Some (glyphCell s c)) /\
     (forall y' x',
        ~ (y' = Z.to_nat (m_cursorY s) /\ (x' < length chars)%nat) ->
        cell (m_buffer s') y' x' = cell (m_buffer s) y' x')).
Proof.
  intros Hutf Hst Hwf Hcols Hrows Hx Hy Hrow Hall n s'.
  assert (Hrun : n <= m_cols s ->
            (chars <> [] ->
               if n <? m_cols s
               then m_cursorY s' = m_cursorY s /\ m_cursorX s' = n
               else m_cursorY s' = m_cursorY s + 1 /\ m_cursorX s' = 0) /\
            (forall y' x',
               cell (m_buffer s') y' x' =
                 if decide (y' = Z.to_nat (m_cursorY s) /\ (x' < length chars)%nat)
                 then (fun _ => glyphCell s (chars !!! x')) <$> cell (m_buffer s) y' x'
                 else cell (m_buffer s) y' x')).
  { intros Hn.
    pose proof (printable_run_from chars s Hutf Hst ltac:(lia) Hy Hrow Hrows
                  ltac:(lia) Hall ltac:(subst n; lia)) as [Hcur Hcell].
    rewrite Hx in Hcur, Hcell. simpl in Hcur, Hcell.
    split; [exact Hcur|].
    intros y' x'. rewrite Hcell. rewrite Nat.sub_0_r.
    repeat case_decide; try done; lia. }
  split; [|split].
  - intros Hn. destruct (Hrun ltac:(lia)) as [Hcur _].
    destruct chars as [|c rest].
    + subst s' n. simpl. lia.
    + specialize (Hcur ltac:(done)).
      destruct (Z.ltb_spec n (m_cols s)); [done|lia].
  - intros Hn. destruct (Hrun ltac:(lia)) as [Hcur _].
    destruct chars as [|c rest].
    + subst n. simpl in Hn. lia.
    + specialize (Hcur ltac:(done)).
      destruct (Z.ltb_spec n (m_cols s)); [lia|done].
  - intros Hn. destruct (Hrun Hn) as [_ Hcell].
    split.
    + intros i c Hi. rewrite Hcell.
      pose proof (lookup_lt_Some _ _ _ Hi) as Hlt.
      rewrite decide_True by done.
      rewrite (list_lookup_total_correct _ _ _ Hi).
      destruct (cell_wf s (Z.to_nat (m_cursorY s)) i Hwf) as [t Ht];
        [lia | subst n; lia |].
      by rewrite Ht.
    + intros y' x' Hout. rewrite Hcell. by rewrite decide_False.
Qed.

Lemma printable_run_witness :
  let chars := replicate 80 (chr "A") in
  Forall isPrintableAscii chars /\
  Z.of_nat (length chars) = m_cols initialTerminal /\
  m_cursorY (processOutput chars initialTerminal) = 1 /\
  m_cursorX (processOutput chars initialTerminal) = 0.
Proof.
  intros chars.
  assert (Hall : Forall isPrintableAscii chars).
  { apply Forall_forall. intros c Hin.
    apply elem_of_replicate in Hin as [-> _]. vm_compute. split; discriminate. }
  assert (Hn : Z.of_nat (length chars) = m_cols initialTerminal) by reflexivity.
  split; [exact Hall|]. split; [exact Hn|].
  refine (proj1 (proj2 (printable_run chars initialTerminal eq_refl eq_refl
                          initialTerminal_wf _ _ eq_refl _ _ Hall)) Hn).
  - unfold INT_MAX. simpl. lia.
  - unfold INT_MAX. simpl. lia.
  - simpl. lia.
  - simpl. lia.
Defined.

(** ** UTF-8 *)

Lemma uchar_toChar (b : Z) : 0 <= b < 256 -> uchar (toChar b) = b.
Proof.
  unfold uchar, toChar. intros Hb.
  destruct (Z.leb_spec 128 b).
  - replace (b - 256) with (b + (-1) * 256) by lia.
    rewrite Z.mod_add by lia. apply Z.mod_small. lia.
  - apply Z.mod_small. lia.
Qed.

Ltac zdm := Z.div_mod_to_equations; lia.

Ltac decide_comparisons :=
  repeat match goal with
         | |- context [?a <? ?b] => destruct (Z.ltb_spec a b); try lia
         | |- context [?a <=? ?b] => destruct (Z.leb_spec a b); try lia
         | |- context [?a =? ?b] => destruct (Z.eqb_spec a b); try lia
         end.

Lemma fromUtf8_step_2 (b0 b1 : Z) (rest : list Z) :
  194 <= b0 < 224 -> 128 <= b1 < 192 ->
  fromUtf8_step (b0 :: b1 :: rest) = ([(b0 - 192) * 64 + (b1 - 128)], rest).
Proof.
  intros H0 H1. unfold fromUtf8_step, isContinuation.
  decide_comparisons. done.
Qed.

Lemma fromUtf8_step_3 (b0 b1 b2 : Z) (rest : list Z) :
  224 <= b0 < 240 -> 128 <= b1 < 192 -> 128 <= b2 < 192 ->
  2048 <= (b0 - 224) * 4096 + (b1 - 128) * 64 + (b2 - 128) ->
  ~ (55296 <= (b0 - 224) * 4096 + (b1 - 128) * 64 + (b2 - 128) <= 57343) ->
  fromUtf8_step (b0 :: b1 :: b2 :: rest)
    = ([(b0 - 224) * 4096 + (b1 - 128) * 64 + (b2 - 128)], rest).
Proof.
  intros H0 H1 H2 Hmin Hsur. unfold fromUtf8_step, isContinuation.
  cbv zeta. decide_comparisons; done.
Qed.

Lemma fromUtf8_step_4 (b0 b1 b2 b3 : Z) (rest : list Z) :
  240 <= b0 < 245 -> 128 <= b1 < 192 -> 128 <= b2 < 192 -> 128 <= b3 < 192 ->
  65536 <= (b0 - 240) * 262144 + (b1 - 128) * 4096 + (b2 - 128) * 64 + (b3 - 128)
        <= 1114111 ->
  fromUtf8_step (b0 :: b1 :: b2 :: b3 :: rest)
    = (utf16_encode ((b0 - 240) * 262144 + (b1 - 128) * 4096
                     + (b2 - 128) * 64 + (b3 - 128)), rest).
Proof.
  intros H0 H1 H2 H3 Hu. unfold fromUtf8_step, isContinuation, utf16_encode.
  cbv zeta. decide_comparisons; done.
Qed.

(** Qt decodes the encoding of a scalar value to its UTF-16 code units;
    U+FEFF is left out because a leading byte-order mark is dropped. *)
Lemma fromUtf8_utf8Chars (u : Z) :
  isScalar u -> 128 <= u -> u <> 65279 ->
  fromUtf8 (utf8Chars u) = utf16_encode u.
Proof.
  unfold isScalar. intros Hu Hmin Hbom.
  unfold utf8Chars, utf8_encode.
  destruct (Z.ltb_spec u 128); [lia|].
  destruct (Z.ltb_spec u 2048); [|destruct (Z.ltb_spec u 65536)].
  - unfold fromUtf8. simpl map.
    rewrite !uchar_toChar by zdm.
    cbn [length fromUtf8_loop]. rewrite fromUtf8_step_2 by zdm.
    unfold utf16_encode. destruct (Z.ltb_spec u 65536); [|lia].
    simpl. f_equal. zdm.
  - unfold fromUtf8. simpl map.
    rewrite !uchar_toChar by zdm.
    assert (Hval : (224 + u / 4096 - 224) * 4096 + (128 + (u / 64) mod 64 - 128) * 64
                   + (128 + u mod 64 - 128) = u) by zdm.
    destruct ((224 + u / 4096 =? 239) && (128 + (u / 64) mod 64 =? 187)
              && (128 + u mod 64 =? 191)) eqn:Hisbom.
    { apply andb_prop in Hisbom as [Hisbom Hb2].
      apply andb_prop in Hisbom as [Hb0 Hb1].
      apply Z.eqb_eq in Hb0, Hb1, Hb2. rewrite Hb0, Hb1, Hb2 in Hval. lia. }
    cbn [length fromUtf8_loop]. rewrite fromUtf8_step_3 by (rewrite ?Hval; zdm).
    rewrite Hval. unfold utf16_encode. destruct (Z.ltb_spec u 65536); [|lia]. done.
  - unfold fromUtf8. simpl map.
    rewrite !uchar_toChar by zdm.
    assert (Hval : (240 + u / 262144 - 240) * 262144
                   + (128 + (u / 4096) mod 64 - 128) * 4096
                   + (128 + (u / 64) mod 64 - 128) * 64
                   + (128 + u mod 64 - 128) = u) by zdm.
    destruct (Z.eqb_spec (240 + u / 262144) 239) as [Hbad|_]; [exfalso; zdm|].
    cbn [andb length fromUtf8_loop]. rewrite fromUtf8_step_4 by (rewrite ?Hval; zdm).
    rewrite Hval. by rewrite app_nil_r.
Qed.

(** The bit tests of [processOutput] on the bytes of an encoding. *)
Lemma classify_continuation (b : Z) :
  128 <= b < 192 -> Z.land (toChar b) 192 = 128.
Proof.
  apply (forall_range_decide (fun b => Z.land (toChar b) 192 = 128) 128 64).
  by vm_compute.
Qed.

Lemma classify_lead2 (b : Z) :
  192 <= b < 224 ->
  Z.land (toChar b) 192 <> 128 /\ Z.land (toChar b) 128 <> 0 /\
  Z.land (toChar b) 224 = 192.
Proof.
  apply (forall_range_decide
           (fun b => Z.land (toChar b) 192 <> 128 /\ Z.land (toChar b) 128 <> 0 /\
                     Z.land (toChar b) 224 = 192) 192 32).
  by vm_compute.
Qed.

Lemma classify_lead3 (b : Z) :
  224 <= b < 240 ->
  Z.land (toChar b) 192 <> 128 /\ Z.land (toChar b) 128 <> 0 /\
  Z.land (toChar b) 224 <> 192 /\ Z.land (toChar b) 240 = 224.
Proof.
  apply (forall_range_decide
           (fun b => Z.land (toChar b) 192 <> 128 /\ Z.land (toChar b) 128 <> 0 /\
                     Z.land (toChar b) 224 <> 192 /\ Z.land (toChar b) 240 = 224)
           224 16).
  by vm_compute.
Qed.

Lemma classify_lead4 (b : Z) :
  240 <= b < 248 ->
  Z.land (toChar b) 192 <> 128 /\ Z.land (toChar b) 128 <> 0 /\
  Z.land (toChar b) 224 <> 192 /\ Z.land (toChar b) 240 <> 224 /\
  Z.land (toChar b) 248 = 240.
Proof.
  apply (forall_range_decide
           (fun b => Z.land (toChar b) 192 <> 128 /\ Z.land (toChar b) 128 <> 0 /\
                     Z.land (toChar b) 224 <> 192 /\ Z.land (toChar b) 240 <> 224 /\
                     Z.land (toChar b) 248 = 240) 240 8).
  by vm_compute.
Qed.

(** A byte that is not a continuation byte is classified afresh, whatever
    was pending. *)
Lemma processByte_fresh (c : Z) (s : TerminalWidget) :
  Z.land c 192 <> 128 ->
  processByte c s =
    startByte c (if 0 <? m_utf8Remaining s
                 then set_m_utf8Buffer [] (set_m_utf8Remaining 0 s) else s).
Proof.
  intros Hc. unfold processByte.
  destruct (0 <? m_utf8Remaining s); [|done].
  by destruct (Z.eqb_spec (Z.land c 192) 128).
Qed.

Lemma processOutput_sequence_2 (c0 c1 : Z) (s : TerminalWidget) :
  Z.land c0 192 <> 128 -> Z.land c0 128 <> 0 -> Z.land c0 224 = 192 ->
  Z.land c1 192 = 128 ->
  processOutput [c0; c1] s =
    set_m_utf8Buffer [] (processUtf8Sequence [c0; c1] (sequenceComplete [c0; c1] s)).
Proof.
  intros H0a H0b H0c H1.
  cbn [processOutput]. rewrite (processByte_fresh c0 s H0a).
  unfold startByte. rewrite H0c.
  destruct (Z.eqb_spec (Z.land c0 128) 0); [done|]. simpl negb. cbv iota.
  rewrite Z.eqb_refl.
  unfold processByte, sequenceComplete. fields. rewrite H1.
  destruct s; fields; destruct (0 <? m_utf8Remaining0); reflexivity.
Qed.

Lemma processOutput_sequence_3 (c0 c1 c2 : Z) (s : TerminalWidget) :
  Z.land c0 192 <> 128 -> Z.land c0 128 <> 0 -> Z.land c0 224 <> 192 ->
  Z.land c0 240 = 224 ->
  Z.land c1 192 = 128 -> Z.land c2 192 = 128 ->
  processOutput [c0; c1; c2] s =
    set_m_utf8Buffer []
      (processUtf8Sequence [c0; c1; c2] (sequenceComplete [c0; c1; c2] s)).
Proof.
  intros H0a H0b H0c H0d H1 H2.
  cbn [processOutput]. rewrite (processByte_fresh c0 s H0a).
  unfold startByte. rewrite H0d.
  destruct (Z.eqb_spec (Z.land c0 128) 0); [done|]. simpl negb. cbv iota.
  destruct (Z.eqb_spec (Z.land c0 224) 192); [done|].
  rewrite Z.eqb_refl.
  unfold processByte, sequenceComplete. fields. rewrite H1. fields. rewrite H2.
  destruct s; fields; destruct (0 <? m_utf8Remaining0); reflexivity.
Qed.

Lemma processOutput_sequence_4 (c0 c1 c2 c3 : Z) (s : TerminalWidget) :
  Z.land c0 192 <> 128 -> Z.land c0 128 <> 0 -> Z.land c0 224 <> 192 ->
  Z.land c0 240 <> 224 -> Z.land c0 248 = 240 ->
  Z.land c1 192 = 128 -> Z.land c2 192 = 128 -> Z.land c3 192 = 128 ->
  processOutput [c0; c1; c2; c3] s =
    set_m_utf8Buffer []
      (processUtf8Sequence [c0; c1; c2; c3] (sequenceComplete [c0; c1; c2; c3] s)).
Proof.
  intros H0a H0b H0c H0d H0e H1 H2 H3.
  cbn [processOutput]. rewrite (processByte_fresh c0 s H0a).
  unfold startByte. rewrite H0e.
  destruct (Z.eqb_spec (Z.land c0 128) 0); [done|]. simpl negb. cbv iota.
  destruct (Z.eqb_spec (Z.land c0 224) 192); [done|].
  destruct (Z.eqb_spec (Z.land c0 240) 224); [done|].
  rewrite Z.eqb_refl.
  unfold processByte, sequenceComplete. fields. rewrite H1. fields. rewrite H2.
  fields. rewrite H3.
  destruct s; fields; destruct (0 <? m_utf8Remaining0); reflexivity.
Qed.

Lemma processOutput_app (d1 d2 : QByteArray) (s : TerminalWidget) :
  processOutput (d1 ++ d2) s = processOutput d2 (processOutput d1 s).
Proof. revert s. induction d1 as [|c d1 IH]; intros s; simpl; [done|apply IH]. Qed.

(** Whatever the decoder state, the encoding of a scalar value above
    U+007F reaches [processUtf8Sequence] whole. *)
Lemma processOutput_utf8Chars (u : Z) (s : TerminalWidget) :
  isScalar u -> 128 <= u ->
  processOutput (utf8Chars u) s =
    set_m_utf8Buffer []
      (processUtf8Sequence (utf8Chars u) (sequenceComplete (utf8Chars u) s)).
Proof.
  unfold isScalar. intros Hu Hmin.
  unfold utf8Chars, utf8_encode.
  destruct (Z.ltb_spec u 128); [lia|].
  destruct (Z.ltb_spec u 2048); [|destruct (Z.ltb_spec u 65536)]; simpl map.
  - destruct (classify_lead2 (192 + u / 64)) as (? & ? & ?); [zdm|].
    apply processOutput_sequence_2; try done.
    apply classify_continuation; zdm.
  - destruct (classify_lead3 (224 + u / 4096)) as (? & ? & ? & ?); [zdm|].
    apply processOutput_sequence_3; try done; apply classify_continuation; zdm.
  - destruct (classify_lead4 (240 + u / 262144)) as (? & ? & ? & ? & ?); [zdm|].
    apply processOutput_sequence_4; try done; apply classify_continuation; zdm.
Qed.

(** ** Fields that the character handlers leave alone *)

Lemma processSGR_body_frame (params : list Z) (i : nat) (s : TerminalWidget) :
  let s' := (processSGR_body params i s).2 in
  stableFields s' = stableFields s /\ cursorFields s' = cursorFields s /\
  m_buffer s' = m_buffer s /\ m_escapeState s' = m_escapeState s.
Proof.
  unfold processSGR_body.
  repeat (case_match; simpl; try done).
Qed.

Lemma processSGR_frame (params : list Z) (s : TerminalWidget) :
  stableFields (processSGR params s) = stableFields s /\
  cursorFields (processSGR params s) = cursorFields s /\
  m_buffer (processSGR params s) = m_buffer s /\
  m_escapeState (processSGR params s) = m_escapeState s.
Proof.
  unfold processSGR, processSGR_from.
  generalize (length params - 0)%nat as fuel. generalize 0%nat as i.
  intros i fuel. revert i s.
  induction fuel as [|fuel IH]; intros i s; simpl; [done|].
  destruct (i <? length params)%nat; [|done].
  pose proof (processSGR_body_frame params i s) as Hbody. simpl in Hbody.
  destruct (processSGR_body params i s) as [i' s']; simpl in *.
  destruct Hbody as (<- & <- & <- & <-). apply IH.
Qed.

(** Field updates that do not touch [stableFields]. *)
Ltac strip_setter t :=
  match t with
  | set_m_buffer _ ?x => x
  | set_m_currentFg _ ?x => x
  | set_m_currentBg _ ?x => x
  | set_m_cursorX _ ?x => x
  | set_m_cursorY _ ?x => x
  | set_m_savedCursorX _ ?x => x
  | set_m_savedCursorY _ ?x => x
  | set_m_cursorVisible _ ?x => x
  | set_m_pendingNewline _ ?x => x
  | set_m_bold _ ?x => x
  | set_m_italic _ ?x => x
  | set_m_underline _ ?x => x
  | set_m_escapeState _ ?x => x
  | set_m_escapeSequence _ ?x => x
  | scrollUp ?x => x
  | clearScreen _ _ _ _ ?x => x
  | clearLine _ _ _ ?x => x
  | storeAtCursor _ ?x => x
  | appendSeq _ ?x => x
  end.

Ltac stable_norm :=
  repeat match goal with
         | |- context [stableFields ?t] =>
             let x := strip_setter t in
             change (stableFields t) with (stableFields x)
         end.

Lemma nextRow_stable (s : TerminalWidget) :
  stableFields (nextRow s) = stableFields s /\
  m_escapeState (nextRow s) = m_escapeState s.
Proof. unfold nextRow, scrollUp. fields. by case_match. Qed.

Lemma lineWrap_stable (s : TerminalWidget) :
  stableFields (lineWrap s) = stableFields s /\
  m_escapeState (lineWrap s) = m_escapeState s.
Proof.
  unfold lineWrap. case_match; [|done].
  destruct (nextRow_stable (set_m_cursorX 0 s)) as [-> ->]. done.
Qed.

Lemma processRegularChar_stable (c : Z) (s : TerminalWidget) :
  stableFields (processRegularChar c s) = stableFields s.
Proof.
  unfold processRegularChar, storeAtCursor.
  repeat (case_match; try done); stable_norm;
    rewrite ?(proj1 (lineWrap_stable _)), ?(proj1 (nextRow_stable _));
    stable_norm; done.
Qed.

Lemma cursorVisible_fold_stable (b : bool) (params : list Z) (s : TerminalWidget) :
  stableFields
    (fold_left (fun s param => if param =? 25 then set_m_cursorVisible b s else s)
       params s) = stableFields s /\
  cursorFields
    (fold_left (fun s param => if param =? 25 then set_m_cursorVisible b s else s)
       params s) = cursorFields s.
Proof.
  revert s. induction params as [|p params IH]; intros s; simpl; [done|].
  destruct (IH (if p =? 25 then set_m_cursorVisible b s else s)) as [-> ->].
  by destruct (p =? 25).
Qed.

Lemma processEscapeSequence_stable (finalChar : Z) (parameters : QString)
    (s : TerminalWidget) :
  stableFields (processEscapeSequence finalChar parameters s) = stableFields s.
Proof.
  unfold processEscapeSequence.
  destruct (parseParams parameters) as [privateMode params].
  repeat (case_match; try done); stable_norm; try done.
  - by destruct (processSGR_frame params s) as [-> _].
  - by destruct (cursorVisible_fold_stable (finalChar =? chr "h") params s) as [-> _].
Qed.

Lemma processChar_stable (c : Z) (s : TerminalWidget) :
  stableFields (processChar c s) = stableFields s.
Proof.
  unfold processChar.
  repeat (case_match; try done); stable_norm;
    rewrite ?processRegularChar_stable, ?processEscapeSequence_stable;
    stable_norm; done.
Qed.

(** ** Recovery of the byte decoder *)



(** ** Wide characters *)

Lemma isWideBMP_decoded (u : Z) :
  isWideBMP u ->
  fromUtf8 (utf8Chars u) = [u] /\ isWide u = true.
Proof.
  unfold isWideBMP. intros Hu. split.
  - rewrite fromUtf8_utf8Chars by (unfold isScalar; lia).
    unfold utf16_encode. by destruct (Z.ltb_spec u 65536); [|lia].
  - unfold isWide.
    repeat match goal with
           | |- context [?a <=? ?b] => destruct (Z.leb_spec a b)
           end; simpl; try done; lia.
Qed.

(** C3 as stated fails in the last column.  On the fresh 24x80 grid with
    'Z' in the first cell of the second row and the cursor in the last
    column of the first row, the wide character U+4E2D is stored under the
    cursor and nothing else changes: no placeholder is written (the next
    cell still holds 'Z') and the cursor ends at column 0 of the next row,
    one cell after the glyph. *)
Lemma wide_glyph_in_last_column :
  let s0 := processOutput
              ([chr "027"] ++ bytesOfString "[2;1HZ"
               ++ [chr "027"] ++ bytesOfString "[1;80H") initialTerminal in
  let s1 := processOutput (utf8Chars 20013) s0 in
  isWideBMP 20013 /\
  (m_cursorY s0, m_cursorX s0) = (0, 79) /\
  (m_cursorY s1, m_cursorX s1) = (1, 0) /\
  m_buffer s1 = buffer_set (glyphCell s0 20013) 0 79 (m_buffer s0) /\
  character (buffer_get (m_buffer s1) 1 0) = chr "Z".
Proof.
  intros s0 s1. split; [unfold isWideBMP; lia|].
  split; [vm_compute; reflexivity|].
  split; [vm_compute; reflexivity|].
  split; vm_compute; reflexivity.
Qed.

(** The CJK extension planes: [QString::fromUtf8] yields a surrogate pair
    and the heuristic tests its first code unit only, so U+20000 is stored
    as the lone high surrogate and treated as narrow. *)
Lemma cjk_extension_is_narrow :
  let s1 := processOutput (utf8Chars 131072) initialTerminal in
  isWideExtension 131072 /\
  fromUtf8 (utf8Chars 131072) = [55360; 56320] /\
  (m_cursorY s1, m_cursorX s1) = (0, 1) /\
  character (buffer_get (m_buffer s1) 0 0) = 55360.
Proof.
  intros s1. split; [unfold isWideExtension; lia|].
  split; [vm_compute; reflexivity|].
  split; vm_compute; reflexivity.
Qed.

(** ** The cursor invariant *)

Lemma qMin_spec (a b : Z) : qMin a b = Z.min a b.
Proof. unfold qMin. destruct (Z.ltb_spec a b); lia. Qed.

Lemma qMax_spec (a b : Z) : qMax a b = Z.max a b.
Proof. unfold qMax. destruct (Z.ltb_spec a b); lia. Qed.

Lemma qBound_range (lo v hi : Z) : lo <= hi -> lo <= qBound lo v hi <= hi.
Proof. unfold qBound. rewrite qMax_spec, qMin_spec. lia. Qed.

(** Normalise the machine arithmetic of the goal for [lia]: a wrap on a
    value in range disappears, any other is kept with its range. *)
Ltac int_arith :=
  unfold int_add, int_sub, int_mul, int_div, qBound in *;
  rewrite ?qMin_spec, ?qMax_spec in *;
  repeat match goal with
         | |- context [wrap_int ?z] =>
             rewrite (wrap_int_id z) by (unfold INT_MIN, INT_MAX in *; lia)
         end;
  repeat match goal with
         | |- context [wrap_int ?z] =>
             let H := fresh "Hwrap" in
             let w := fresh "w" in
             pose proof (wrap_int_range z) as H;
             set (w := wrap_int z) in *; clearbody w
         end;
  unfold INT_MIN, INT_MAX in *.

Lemma nextRow_cursor (s : TerminalWidget) :
  1 <= m_rows s <= INT_MAX -> 0 <= m_cursorY s < m_rows s ->
  0 <= m_cursorY (nextRow s) < m_rows s /\ m_cursorX (nextRow s) = m_cursorX s.
Proof.
  intros Hrows Hy. unfold nextRow, scrollUp. fields.
  int_arith.
  destruct (Z.leb_spec (m_rows s) (m_cursorY s + 1)); fields; int_arith; lia.
Qed.

Lemma lineWrap_cursor (s : TerminalWidget) :
  dims_ok s -> 0 <= m_cursorY s < m_rows s -> 0 <= m_cursorX s ->
  cursor_ok (lineWrap s).
Proof.
  intros [Hrows Hcols] Hy Hx. unfold cursor_ok.
  destruct (lineWrap_stable s) as [Hst _]. unfold stableFields in Hst.
  assert (m_rows (lineWrap s) = m_rows s) as -> by congruence.
  assert (m_cols (lineWrap s) = m_cols s) as -> by congruence.
  unfold lineWrap.
  destruct (Z.leb_spec (m_cols s) (m_cursorX s)).
  - pose proof (nextRow_cursor (set_m_cursorX 0 s) Hrows Hy) as [Hy' Hx'].
    rewrite Hx'. change (m_rows (set_m_cursorX 0 s)) with (m_rows s) in Hy'.
    change (m_cursorX (set_m_cursorX 0 s)) with 0. lia.
  - lia.
Qed.

Lemma stable_dims (s s' : TerminalWidget) :
  stableFields s' = stableFields s -> dims_ok s -> dims_ok s'.
Proof.
  unfold stableFields, dims_ok. intros Hst Hd.
  assert (m_rows s' = m_rows s) as -> by congruence.
  assert (m_cols s' = m_cols s) as -> by congruence.
  exact Hd.
Qed.

Lemma stable_cursor (s s' : TerminalWidget) :
  stableFields s' = stableFields s ->
  m_cursorX s' = m_cursorX s -> m_cursorY s' = m_cursorY s ->
  cursor_ok s -> cursor_ok s'.
Proof.
  unfold stableFields, cursor_ok. intros Hst Hx Hy Hc.
  assert (m_rows s' = m_rows s) as -> by congruence.
  assert (m_cols s' = m_cols s) as -> by congruence.
  rewrite Hx, Hy. exact Hc.
Qed.

Lemma processRegularChar_cursor (c : Z) (s : TerminalWidget) :
  dims_ok s -> cursor_ok s -> cursor_ok (processRegularChar c s).
Proof.
  intros Hd Hc.
  pose proof Hd as [Hrows Hcols]. pose proof Hc as [Hy Hx].
  unfold processRegularChar.
  destruct (c =? chr "013").
  { unfold cursor_ok. destruct (m_pendingNewline (set_m_cursorX 0 s)); fields; lia. }
  destruct (c =? chr "010").
  { destruct (m_pendingNewline s); [exact Hc|].
    pose proof (nextRow_cursor (set_m_pendingNewline true s) Hrows Hy) as [Hy' _].
    destruct (nextRow_stable (set_m_pendingNewline true s)) as [Hst _].
    unfold stableFields in Hst. unfold cursor_ok. fields.
    assert (m_rows (nextRow (set_m_pendingNewline true s)) = m_rows s) as -> by congruence.
    assert (m_cols (nextRow (set_m_pendingNewline true s)) = m_cols s) as -> by congruence.
    lia. }
  destruct (c =? chr "008").
  { unfold cursor_ok. destruct (Z.ltb_spec 0 (m_cursorX s)); fields; [|lia].
    int_arith. lia. }
  destruct (c =? chr "009").
  { apply lineWrap_cursor; fields; try assumption.
    assert (0 <= (m_cursorX s + 8) ÷ 8 /\ (m_cursorX s + 8) ÷ 8 * 8 <= m_cursorX s + 8).
    { rewrite Z.quot_div_nonneg by lia. zdm. }
    int_arith. lia. }
  destruct (c =? chr "007"); [exact Hc|].
  destruct (32 <=? c); [|exact Hc].
  apply lineWrap_cursor; unfold storeAtCursor; fields; try assumption.
  int_arith. lia.
Qed.

(** The parsed parameters are [int] values. *)
Lemma toInt_range (str : QString) (v : Z) :
  toInt str = Some v -> INT_MIN <= v <= INT_MAX.
Proof.
  unfold toInt.
  destruct (match trimmed str with
            | [] => (false, trimmed str)
            | c :: rest =>
                if c =? chr "-" then (true, rest)
                else if c =? chr "+" then (false, rest) else (false, trimmed str)
            end) as [negative digits].
  destruct digits as [|d digits]; [done|].
  destruct (digitsValue 0 (d :: digits)) as [v0|]; [|done].
  destruct ((INT_MIN <=? (if negative then - v0 else v0))
            && ((if negative then - v0 else v0) <=? INT_MAX)) eqn:Hrange; [|done].
  intros [= <-].
  apply andb_prop in Hrange as [H1 H2].
  apply Z.leb_le in H1, H2. done.
Qed.

Lemma parseParams_range (parameters : QString) (i : nat) :
  INT_MIN <= (parseParams parameters).2 !!! i <= INT_MAX.
Proof.
  unfold parseParams. cbn [snd].
  match goal with
  | |- context [map ?f ?l] => generalize l; intros paramList
  end.
  assert (Hall : Forall (fun v => INT_MIN <= v <= INT_MAX)
                   (map (fun param => default 0 (toInt param)) paramList)).
  { apply Forall_forall. intros v Hin.
    apply list_elem_of_In, in_map_iff in Hin as (param & <- & _).
    destruct (toInt param) as [v|] eqn:Hv; simpl.
    - by apply toInt_range in Hv.
    - unfold INT_MIN, INT_MAX. lia. }
  revert Hall.
  generalize (map (fun param => default 0 (toInt param)) paramList).
  intros params Hall.
  assert (Hall' : Forall (fun v => INT_MIN <= v <= INT_MAX)
                    (match params with [] => [0] | _ => params end)).
  { destruct params; [|exact Hall].
    constructor; [unfold INT_MIN, INT_MAX; lia | constructor]. }
  rewrite list_lookup_total_alt.
  destruct (_ !! i) as [v|] eqn:Hv; simpl.
  - exact (proj1 (Forall_lookup _ _) Hall' i v Hv).
  - unfold INT_MIN, INT_MAX. cbv. split; discriminate.
Qed.

Lemma processEscapeSequence_cursor (finalChar : Z) (parameters : QString)
    (s : TerminalWidget) :
  dims_ok s -> cursor_ok s ->
  (finalChar = chr "u" -> savedInGrid s) ->
  (finalChar = chr "B" ->
     m_cursorY s + qMax 1 ((parseParams parameters).2 !!! 0%nat) <= INT_MAX) ->
  (finalChar = chr "C" ->
     m_cursorX s + qMax 1 ((parseParams parameters).2 !!! 0%nat) <= INT_MAX) ->
  cursor_ok (processEscapeSequence finalChar parameters s).
Proof.
  intros Hd Hc Hu HB HC.
  pose proof Hd as [Hrows Hcols]. pose proof Hc as [Hy Hx].
  pose proof (parseParams_range parameters 0) as Hp0.
  pose proof (parseParams_range parameters 1) as Hp1.
  unfold processEscapeSequence.
  destruct (parseParams parameters) as [privateMode params]. cbn [snd] in *.
  destruct (Z.eqb_spec finalChar (chr "m")) as [_|_].
  { destruct (processSGR_frame params s) as (Hst & Hcur & _).
    unfold cursorFields in Hcur.
    apply (stable_cursor s); [exact Hst | congruence | congruence | exact Hc]. }
  destruct ((finalChar =? chr "H") || (finalChar =? chr "f")).
  { destruct (2 <=? length params)%nat; unfold cursor_ok; fields; int_arith; lia. }
  destruct (Z.eqb_spec finalChar (chr "A")) as [_|_].
  { unfold cursor_ok; fields; int_arith; lia. }
  destruct (Z.eqb_spec finalChar (chr "B")) as [HisB|_].
  { specialize (HB HisB). unfold cursor_ok; fields; int_arith; lia. }
  destruct (Z.eqb_spec finalChar (chr "C")) as [HisC|_].
  { specialize (HC HisC). unfold cursor_ok; fields; int_arith; lia. }
  destruct (Z.eqb_spec finalChar (chr "D")) as [_|_].
  { unfold cursor_ok; fields; int_arith; lia. }
  destruct (Z.eqb_spec finalChar (chr "G")) as [_|_].
  { unfold cursor_ok; fields; int_arith; lia. }
  destruct (Z.eqb_spec finalChar (chr "J")) as [_|_].
  { repeat case_match; exact Hc. }
  destruct (Z.eqb_spec finalChar (chr "K")) as [_|_].
  { repeat case_match; exact Hc. }
  destruct (Z.eqb_spec finalChar (chr "s")) as [_|_]; [exact Hc|].
  destruct (Z.eqb_spec finalChar (chr "u")) as [Hisu|_].
  { destruct (Hu Hisu) as [Hsy Hsx]. unfold cursor_ok; fields; lia. }
  destruct ((finalChar =? chr "l") || (finalChar =? chr "h")).
  { destruct privateMode; [|exact Hc].
    destruct (cursorVisible_fold_stable (finalChar =? chr "h") params s) as [Hst Hcur].
    unfold cursorFields in Hcur.
    apply (stable_cursor s); [exact Hst | congruence | congruence | exact Hc]. }
  destruct (Z.eqb_spec finalChar (chr "d")) as [_|_]; [|exact Hc].
  unfold cursor_ok; fields; int_arith; lia.
Qed.

Lemma processChar_cursor (c : Z) (s : TerminalWidget) :
  dims_ok s -> cursor_ok s -> operationSafe s (OpByte c) ->
  cursor_ok (processChar c s).
Proof.
  intros Hd Hc Hsafe. unfold operationSafe in Hsafe.
  unfold processChar, inCsi, csiCount in *.
  destruct (m_escapeState s) eqn:Hst.
  - destruct (c =? chr "027"); [exact Hc|].
    by apply processRegularChar_cursor.
  - repeat (case_match; try exact Hc).
    apply processRegularChar_cursor; assumption.
  - destruct (isBracketParam c); [exact Hc|].
    destruct (Hsafe eq_refl) as (Hu & HB & HC).
    assert (Hres : cursor_ok (processEscapeSequence c (m_escapeSequence s) s))
      by (apply processEscapeSequence_cursor; assumption).
    exact Hres.
  - destruct (isParameterParam c); [exact Hc|].
    destruct (Hsafe eq_refl) as (Hu & HB & HC).
    assert (Hres : cursor_ok (processEscapeSequence c (m_escapeSequence s) s))
      by (apply processEscapeSequence_cursor; assumption).
    exact Hres.
  - repeat (case_match; try exact Hc).
  - repeat (case_match; try exact Hc).
Qed.

Lemma processUtf8Sequence_cursor (utf8Bytes : QByteArray) (s : TerminalWidget) :
  dims_ok s -> cursor_ok s -> cursor_ok (processUtf8Sequence utf8Bytes s).
Proof.
  intros Hd Hc.
  pose proof Hd as [Hrows Hcols]. pose proof Hc as [Hy Hx].
  unfold processUtf8Sequence.
  destruct (fromUtf8 utf8Bytes) as [|ch _]; [exact Hc|].
  unfold storeAtCursor. fields.
  assert (Hx1 : int_add (m_cursorX s) 1 = m_cursorX s + 1).
  { unfold int_add. apply wrap_int_id. unfold INT_MIN, INT_MAX in *. lia. }
  rewrite Hx1.
  destruct (isWide ch).
  - destruct (Z.ltb_spec (m_cursorX s + 1) (m_cols s)).
    + apply lineWrap_cursor; fields; try assumption.
      int_arith. lia.
    + apply lineWrap_cursor; fields; try assumption. lia.
  - apply lineWrap_cursor; fields; try assumption. lia.
Qed.

Lemma processUtf8Sequence_stable (utf8Bytes : QByteArray) (s : TerminalWidget) :
  stableFields (processUtf8Sequence utf8Bytes s) = stableFields s.
Proof.
  unfold processUtf8Sequence, storeAtCursor.
  destruct (fromUtf8 utf8Bytes) as [|ch _]; [done|].
  rewrite (proj1 (lineWrap_stable _)).
  repeat case_match; stable_norm; done.
Qed.

Lemma startByte_cursor (c : Z) (s : TerminalWidget) :
  dims_ok s -> cursor_ok s -> operationSafe s (OpByte c) ->
  dims_ok (startByte c s) /\ cursor_ok (startByte c s).
Proof.
  intros Hd Hc Hsafe.
  assert (Hchar : dims_ok (processChar c s) /\ cursor_ok (processChar c s)).
  { split; [|by apply processChar_cursor].
    apply (stable_dims s); [apply processChar_stable | exact Hd]. }
  unfold startByte.
  repeat case_match; try exact Hchar; split; assumption.
Qed.

Lemma processByte_cursor (c : Z) (s : TerminalWidget) :
  dims_ok s -> cursor_ok s -> operationSafe s (OpByte c) ->
  dims_ok (processByte c s) /\ cursor_ok (processByte c s).
Proof.
  intros Hd Hc Hsafe. unfold processByte.
  destruct (0 <? m_utf8Remaining s).
  - destruct (Z.land c 192 =? 128).
    + fields.
      destruct (int_sub (m_utf8Remaining s) 1 =? 0); [|split; assumption].
      match goal with
      | |- dims_ok (set_m_utf8Buffer [] (processUtf8Sequence ?b ?t)) /\ _ =>
          pose proof (processUtf8Sequence_stable b t) as Hst;
          pose proof (processUtf8Sequence_cursor b t Hd Hc) as Hcur
      end.
      split.
      * unfold stableFields in Hst. fields.
        unfold dims_ok in *. fields.
        match goal with
        | |- 1 <= m_rows ?t <= _ /\ _ =>
            assert (m_rows t = m_rows s) as -> by congruence;
            assert (m_cols t = m_cols s) as -> by congruence
        end.
        exact Hd.
      * exact Hcur.
    + apply (startByte_cursor c (set_m_utf8Buffer [] (set_m_utf8Remaining 0 s)));
        assumption.
  - by apply startByte_cursor.
Qed.

Lemma resizeBuffer_cursor (newRows newCols : Z) (s : TerminalWidget) :
  cursor_ok s -> operationSafe s (OpResize newRows newCols) ->
  dims_ok (resizeBuffer newRows newCols s) /\
  cursor_ok (resizeBuffer newRows newCols s).
Proof.
  intros [Hy Hx] [Hr Hc].
  unfold resizeBuffer, dims_ok, cursor_ok. fields.
  int_arith. lia.
Qed.

(** X1: the cursor invariant as far as the code maintains it: the cursor stays
    within the grid along every sequence of bytes and resizes to at least
    1x1, as long as every cursor restore is executed while the saved slot
    lies inside the current grid and no cursor-down or cursor-forward count
    overflows an [int]. *)
Theorem cursor_stays_in_bounds (ops : list Operation) (s : TerminalWidget) :
  dims_ok s -> cursor_ok s -> traceSafe ops s ->
  dims_ok (runOperations ops s) /\ cursor_ok (runOperations ops s).
Proof.
  revert s. induction ops as [|o ops IH]; intros s Hd Hc Hsafe; simpl.
  - by split.
  - destruct Hsafe as [Ho Hrest].
    assert (Hstep : dims_ok (applyOperation o s) /\ cursor_ok (applyOperation o s)).
    { destruct o as [c|newRows newCols]; simpl.
      - by apply processByte_cursor.
      - by apply resizeBuffer_cursor. }
    destruct Hstep as [Hd' Hc'].
    by apply IH.
Qed.

Lemma cursor_stays_in_bounds_witness :
  let ops := [OpByte (chr "A"); OpResize 10 40; OpByte (chr "027");
              OpByte (chr "["); OpByte (chr "u")] in
  dims_ok initialTerminal /\ cursor_ok initialTerminal /\
  traceSafe ops initialTerminal /\
  cursor_ok (runOperations ops initialTerminal).
Proof.
  intros ops.
  assert (Hd : dims_ok initialTerminal).
  { unfold dims_ok, INT_MAX. simpl. lia. }
  assert (Hc : cursor_ok initialTerminal).
  { unfold cursor_ok. simpl. lia. }
  assert (Hsafe : traceSafe ops initialTerminal).
  { vm_compute. repeat split; intros; done. }
  split; [exact Hd|]. split; [exact Hc|]. split; [exact Hsafe|].
  exact (proj2 (cursor_stays_in_bounds ops initialTerminal Hd Hc Hsafe)).
Defined.

(** C2: the code breaks the cursor invariant on save, shrink, restore.
    The saved slot is not clamped by a resize and a restore copies it back
    as it is: saving the cursor at the bottom right of the fresh 24x80
    grid, shrinking the grid to 10x40 (the cursor is clamped to (9, 39))
    and restoring puts the cursor at (23, 79), outside the 10x40 grid. *)
Lemma restore_after_shrink_leaves_grid :
  let save := map OpByte ([chr "027"] ++ bytesOfString "[24;80H"
                          ++ [chr "027"] ++ bytesOfString "[s") in
  let restore := map OpByte ([chr "027"] ++ bytesOfString "[u") in
  let s1 := runOperations (save ++ [OpResize 10 40]) initialTerminal in
  let s2 := runOperations (save ++ [OpResize 10 40] ++ restore) initialTerminal in
  (m_rows s1, m_cols s1, m_cursorY s1, m_cursorX s1) = (10, 40, 9, 39) /\
  (m_rows s2, m_cols s2, m_cursorY s2, m_cursorX s2) = (10, 40, 23, 79) /\
  ~ cursor_ok s2.
Proof.
  intros save restore s1 s2.
  split; [vm_compute; reflexivity|].
  split; [vm_compute; reflexivity|].
  unfold cursor_ok.
  assert (Hy : m_cursorY s2 = 23) by (vm_compute; reflexivity).
  assert (Hr : m_rows s2 = 10) by (vm_compute; reflexivity).
  rewrite Hy, Hr. lia.
Qed.

(** The count of cursor down is added to the row in [int] arithmetic: on a
    cursor in row 1 the count 2147483647 wraps around. *)
Lemma cursor_down_count_overflows :
  let s := processOutput ([chr "010"; chr "027"] ++ bytesOfString "[2147483647B")
             initialTerminal in
  m_cursorY s = -2147483648.
Proof. vm_compute. reflexivity. Qed.

(** * Further properties of the screen buffer and the parser *)

(** ** The shape of the grid *)

Lemma for_range_preserves {S : Type} (P : S -> Prop) (lo hi : Z)
    (body : Z -> S -> S) (s : S) :
  (forall i acc, P acc -> P (body i acc)) -> P s -> P (for_range lo hi body s).
Proof.
  intros Hbody. unfold for_range.
  generalize (seqZ lo (hi - lo)) as l. intros l. revert s.
  induction l as [|i l IH]; intros s Hs; simpl; [done|].
  apply IH, Hbody, Hs.
Qed.

Lemma gridShape_buffer_alter (f : TermChar -> TermChar) (y x : Z) (rows cols : nat)
    (buf : list (list TermChar)) :
  gridShape rows cols buf -> gridShape rows cols (buffer_alter f y x buf).
Proof.
  intros [Hlen Hrows]. unfold buffer_alter.
  destruct ((0 <=? y) && (0 <=? x)); [|by split].
  split; [by rewrite length_alter|].
  apply Forall_alter; [done|].
  intros row _ Hrow. by rewrite length_alter.
Qed.

Lemma gridShape_blank (rows cols : nat) : gridShape rows cols (blankGrid rows cols).
Proof.
  unfold blankGrid. split; [apply length_replicate|].
  apply Forall_forall. intros row Hin.
  apply elem_of_replicate in Hin as [-> _]. apply length_replicate.
Qed.

Lemma clearScreen_wf (startRow startCol endRow endCol : Z) (s : TerminalWidget) :
  buffer_wf s -> buffer_wf (clearScreen startRow startCol endRow endCol s).
Proof.
  unfold buffer_wf, clearScreen. fields. intros Hwf.
  apply (for_range_preserves
           (gridShape (Z.to_nat (m_rows s)) (Z.to_nat (m_cols s)))); [|exact Hwf].
  intros y acc Hacc.
  apply (for_range_preserves
           (gridShape (Z.to_nat (m_rows s)) (Z.to_nat (m_cols s)))); [|exact Hacc].
  intros x acc' Hacc'. by apply gridShape_buffer_alter.
Qed.

Lemma clearLine_wf (row startCol endCol : Z) (s : TerminalWidget) :
  buffer_wf s -> buffer_wf (clearLine row startCol endCol s).
Proof.
  unfold buffer_wf, clearLine. fields. intros Hwf.
  apply (for_range_preserves
           (gridShape (Z.to_nat (m_rows s)) (Z.to_nat (m_cols s)))); [|exact Hwf].
  intros x acc Hacc. by apply gridShape_buffer_alter.
Qed.

Lemma scrollUp_wf (s : TerminalWidget) :
  dims_ok s -> buffer_wf s -> buffer_wf (scrollUp s).
Proof.
  intros [Hrows Hcols] Hwf.
  pose proof (scrollUp_buffer s Hwf Hrows ltac:(lia)) as Hbuf.
  destruct Hwf as [Hlen Hall].
  unfold buffer_wf. rewrite Hbuf.
  change (m_rows (scrollUp s)) with (m_rows s).
  change (m_cols (scrollUp s)) with (m_cols s).
  split.
  - rewrite length_app, length_drop. simpl. lia.
  - apply Forall_app. split.
    + by apply Forall_drop.
    + constructor; [apply length_replicate | constructor].
Qed.

Lemma resizeBuffer_wf (newRows newCols : Z) (s : TerminalWidget) :
  buffer_wf (resizeBuffer newRows newCols s).
Proof.
  unfold buffer_wf, resizeBuffer. fields.
  apply (for_range_preserves (gridShape (Z.to_nat newRows) (Z.to_nat newCols)));
    [|apply gridShape_blank].
  intros y acc Hacc.
  apply (for_range_preserves (gridShape (Z.to_nat newRows) (Z.to_nat newCols)));
    [|exact Hacc].
  intros x acc' Hacc'. by apply gridShape_buffer_alter.
Qed.

(** A state that differs from a rectangular one in fields other than the
    grid and its dimensions is rectangular. *)
Lemma buffer_wf_same (s s' : TerminalWidget) :
  m_rows s' = m_rows s -> m_cols s' = m_cols s -> m_buffer s' = m_buffer s ->
  buffer_wf s -> buffer_wf s'.
Proof. unfold buffer_wf. by intros -> -> ->. Qed.

Lemma nextRow_wf (s : TerminalWidget) :
  dims_ok s -> buffer_wf s -> buffer_wf (nextRow s).
Proof.
  intros Hd Hwf. unfold nextRow.
  destruct (m_rows _ <=? m_cursorY _); [|exact Hwf].
  apply (buffer_wf_same (scrollUp (set_m_cursorY (int_add (m_cursorY s) 1) s)));
    try reflexivity.
  by apply scrollUp_wf.
Qed.

Lemma lineWrap_wf (s : TerminalWidget) :
  dims_ok s -> buffer_wf s -> buffer_wf (lineWrap s).
Proof.
  intros Hd Hwf. unfold lineWrap.
  destruct (m_cols s <=? m_cursorX s); [|exact Hwf].
  by apply nextRow_wf.
Qed.

Lemma storeAtCursor_wf (ch : QChar) (s : TerminalWidget) :
  buffer_wf s -> buffer_wf (storeAtCursor ch s).
Proof.
  unfold buffer_wf, storeAtCursor. fields. apply gridShape_buffer_alter.
Qed.

Lemma processRegularChar_wf (c : Z) (s : TerminalWidget) :
  dims_ok s -> buffer_wf s -> buffer_wf (processRegularChar c s).
Proof.
  intros Hd Hwf. unfold processRegularChar.
  destruct (c =? chr "013").
  { by destruct (m_pendingNewline (set_m_cursorX 0 s)). }
  destruct (c =? chr "010").
  { destruct (m_pendingNewline s); [exact Hwf|].
    apply (buffer_wf_same (nextRow (set_m_pendingNewline true s))); try reflexivity.
    by apply nextRow_wf. }
  destruct (c =? chr "008").
  { by destruct (0 <? m_cursorX s). }
  destruct (c =? chr "009"); [by apply lineWrap_wf|].
  destruct (c =? chr "007"); [exact Hwf|].
  destruct (32 <=? c); [|exact Hwf].
  apply lineWrap_wf; [exact Hd|].
  apply (buffer_wf_same (storeAtCursor (fromLatin1 c) (set_m_pendingNewline false s)));
    try reflexivity.
  by apply storeAtCursor_wf.
Qed.

Lemma processEscapeSequence_wf (finalChar : Z) (parameters : QString)
    (s : TerminalWidget) :
  buffer_wf s -> buffer_wf (processEscapeSequence finalChar parameters s).
Proof.
  intros Hwf. unfold processEscapeSequence.
  destruct (parseParams parameters) as [privateMode params].
  repeat (case_match; try exact Hwf);
    try (apply clearScreen_wf; exact Hwf);
    try (apply clearLine_wf; exact Hwf).
  - destruct (processSGR_frame params s) as (Hst & _ & Hbuf & _).
    unfold stableFields in Hst.
    apply (buffer_wf_same s); [congruence | congruence | exact Hbuf | exact Hwf].
  - revert s Hwf. induction params as [|p params IH]; intros s Hwf; simpl; [done|].
    apply IH. by destruct (p =? 25).
Qed.

Lemma processChar_wf (c : Z) (s : TerminalWidget) :
  dims_ok s -> buffer_wf s -> buffer_wf (processChar c s).
Proof.
  intros Hd Hwf. unfold processChar, appendSeq.
  repeat (case_match; try exact Hwf);
    try (apply processRegularChar_wf; assumption).
  - apply (buffer_wf_same (processEscapeSequence c (m_escapeSequence s) s));
      try reflexivity.
    by apply processEscapeSequence_wf.
  - apply (buffer_wf_same (processEscapeSequence c (m_escapeSequence s) s));
      try reflexivity.
    by apply processEscapeSequence_wf.
Qed.

Lemma processUtf8Sequence_wf (utf8Bytes : QByteArray) (s : TerminalWidget) :
  dims_ok s -> buffer_wf s -> buffer_wf (processUtf8Sequence utf8Bytes s).
Proof.
  intros Hd Hwf. unfold processUtf8Sequence.
  destruct (fromUtf8 utf8Bytes) as [|ch _]; [exact Hwf|].
  assert (Hstored : buffer_wf (set_m_cursorX (int_add (m_cursorX (storeAtCursor ch s)) 1)
                                 (storeAtCursor ch s))).
  { apply (buffer_wf_same (storeAtCursor ch s)); try reflexivity.
    by apply storeAtCursor_wf. }
  apply lineWrap_wf.
  - repeat case_match; exact Hd.
  - repeat case_match; try exact Hstored.
    revert Hstored. unfold buffer_wf. fields. apply gridShape_buffer_alter.
Qed.

Lemma processByte_wf (c : Z) (s : TerminalWidget) :
  dims_ok s -> buffer_wf s -> buffer_wf (processByte c s).
Proof.
  intros Hd Hwf. unfold processByte, startByte.
  repeat (case_match; try exact Hwf);
    try (apply processChar_wf; assumption).
  apply (buffer_wf_same
           (processUtf8Sequence (m_utf8Buffer s ++ [c])
              (set_m_utf8Remaining (int_sub (m_utf8Remaining s) 1)
                 (set_m_utf8Buffer (m_utf8Buffer s ++ [c]) s))));
    try reflexivity.
  by apply processUtf8Sequence_wf.
Qed.

(** X2: along every sequence of bytes and resizes that keeps the cursor in
    the grid, the grid stays rectangular: [m_rows] rows of [m_cols] cells. *)
Theorem grid_stays_rectangular (ops : list Operation) (s : TerminalWidget) :
  dims_ok s -> cursor_ok s -> buffer_wf s -> traceSafe ops s ->
  buffer_wf (runOperations ops s).
Proof.
  revert s. induction ops as [|o ops IH]; intros s Hd Hc Hwf Hsafe; simpl; [done|].
  destruct Hsafe as [Ho Hrest].
  destruct o as [c|newRows newCols]; simpl in *.
  - destruct (processByte_cursor c s Hd Hc Ho) as [Hd' Hc'].
    apply IH; try assumption. by apply processByte_wf.
  - destruct (resizeBuffer_cursor newRows newCols s Hc Ho) as [Hd' Hc'].
    apply IH; try assumption. apply resizeBuffer_wf.
Qed.

Lemma grid_stays_rectangular_witness :
  let ops := [OpByte (chr "A"); OpByte (chr "010"); OpResize 10 40;
              OpByte (chr "009")] in
  dims_ok initialTerminal /\ cursor_ok initialTerminal /\
  buffer_wf initialTerminal /\ traceSafe ops initialTerminal /\
  buffer_wf (runOperations ops initialTerminal).
Proof.
  intros ops.
  assert (Hd : dims_ok initialTerminal).
  { unfold dims_ok, INT_MAX. simpl. lia. }
  assert (Hc : cursor_ok initialTerminal).
  { unfold cursor_ok. simpl. lia. }
  assert (Hsafe : traceSafe ops initialTerminal).
  { vm_compute. repeat split; intros; done. }
  split; [exact Hd|]. split; [exact Hc|].
  split; [exact initialTerminal_wf|]. split; [exact Hsafe|].
  exact (grid_stays_rectangular ops initialTerminal Hd Hc initialTerminal_wf Hsafe).
Defined.

(** ** Scrolling *)

Lemma scrollUp_iter_invariant (n : nat) (s : TerminalWidget) :
  dims_ok s -> buffer_wf s ->
  dims_ok (Nat.iter n scrollUp s) /\ buffer_wf (Nat.iter n scrollUp s) /\
  m_rows (Nat.iter n scrollUp s) = m_rows s /\
  m_cols (Nat.iter n scrollUp s) = m_cols s.
Proof.
  intros Hd Hwf. induction n as [|n (Hd' & Hwf' & Hr & Hc)]; [done|].
  change (Nat.iter (S n) scrollUp s) with (scrollUp (Nat.iter n scrollUp s)).
  split; [exact Hd'|]. split; [by apply scrollUp_wf|]. done.
Qed.

(** X3: [scrollUp] discards the top row, moves every other row up by one
    and appends a row of default cells; so after [n] scrolls the grid
    holds the old rows from [n] on, followed by default rows, and a grid
    of default cells stays a grid of default cells. *)
Theorem scrollUp_discards_rows (n : nat) (s : TerminalWidget) :
  dims_ok s -> buffer_wf s ->
  let blankRow := replicate (Z.to_nat (m_cols s)) TermChar_default in
  m_buffer (scrollUp s) = drop 1 (m_buffer s) ++ [blankRow] /\
  m_buffer (Nat.iter n scrollUp s) =
    drop n (m_buffer s) ++ replicate (n `min` Z.to_nat (m_rows s)) blankRow /\
  (m_buffer s = blankGrid (Z.to_nat (m_rows s)) (Z.to_nat (m_cols s)) ->
   m_buffer (Nat.iter n scrollUp s) = m_buffer s).
Proof.
  intros Hd Hwf blankRow.
  assert (Hone : forall t, dims_ok t -> buffer_wf t ->
            m_buffer (scrollUp t) =
              drop 1 (m_buffer t)
              ++ [replicate (Z.to_nat (m_cols t)) TermChar_default]).
  { intros t [Hr Hc] Ht. apply scrollUp_buffer; [exact Ht | exact Hr | lia]. }
  assert (Hiter : m_buffer (Nat.iter n scrollUp s) =
            drop n (m_buffer s) ++ replicate (n `min` Z.to_nat (m_rows s)) blankRow).
  { induction n as [|n IHn].
    - simpl. by rewrite app_nil_r.
    - change (Nat.iter (S n) scrollUp s) with (scrollUp (Nat.iter n scrollUp s)).
      destruct (scrollUp_iter_invariant n s Hd Hwf) as (Hd' & Hwf' & Hr' & Hc').
      rewrite (Hone _ Hd' Hwf'), Hc', IHn. fold blankRow.
      destruct Hwf as [Hlen _]. destruct Hd as [Hrows _].
      destruct (decide (n < Z.to_nat (m_rows s))%nat) as [Hlt|Hge].
      + rewrite drop_app_le by (rewrite length_drop; lia).
        rewrite drop_drop.
        replace (n `min` Z.to_nat (m_rows s))%nat with n by lia.
        replace (S n `min` Z.to_nat (m_rows s))%nat with (S n) by lia.
        rewrite <- app_assoc, <- replicate_S_end.
        by replace (n + 1)%nat with (S n) by lia.
      + rewrite (drop_ge (m_buffer s) n), (drop_ge (m_buffer s) (S n)) by lia.
        cbn [app].
        replace (n `min` Z.to_nat (m_rows s))%nat with (Z.to_nat (m_rows s)) by lia.
        replace (S n `min` Z.to_nat (m_rows s))%nat with (Z.to_nat (m_rows s)) by lia.
        destruct (Z.to_nat (m_rows s)) as [|r] eqn:Hr; [lia|].
        rewrite replicate_S_end at 2. by rewrite replicate_S. }
  split; [by apply Hone|]. split; [exact Hiter|].
  intros Hblank. rewrite Hiter, Hblank. unfold blankGrid. fold blankRow.
  rewrite drop_replicate, <- replicate_add.
  f_equal. lia.
Qed.

Lemma scrollUp_discards_rows_witness :
  dims_ok initialTerminal /\ buffer_wf initialTerminal /\
  m_buffer (Nat.iter 3 scrollUp initialTerminal) = m_buffer initialTerminal.
Proof.
  assert (Hd : dims_ok initialTerminal) by (unfold dims_ok, INT_MAX; simpl; lia).
  split; [exact Hd|]. split; [exact initialTerminal_wf|].
  exact (proj2 (proj2 (scrollUp_discards_rows 3 initialTerminal Hd initialTerminal_wf))
           eq_refl).
Defined.

(** ** Resizing *)

(** X4: [resizeBuffer] to at least 1x1 installs a rectangular grid of the
    new dimensions whose cells are the old cells on the overlapping
    top-left rectangle and default cells elsewhere; the cursor is clamped
    into the new grid, and the saved cursor slot is left as it was. *)
Theorem resize_copies_overlap (newRows newCols : Z) (s : TerminalWidget) :
  1 <= newRows <= INT_MAX -> 1 <= newCols <= INT_MAX ->
  let s' := resizeBuffer newRows newCols s in
  m_rows s' = newRows /\ m_cols s' = newCols /\ buffer_wf s' /\
  (forall y x, 0 <= y < newRows -> 0 <= x < newCols ->
     buffer_get (m_buffer s') y x =
       if (y <? m_rows s) && (x <? m_cols s)
       then buffer_get (m_buffer s) y x else TermChar_default) /\
  m_cursorX s' = Z.min (m_cursorX s) (newCols - 1) /\
  m_cursorY s' = Z.min (m_cursorY s) (newRows - 1) /\
  m_savedCursorX s' = m_savedCursorX s /\
  m_savedCursorY s' = m_savedCursorY s.
Proof.
  intros Hr Hc s'. subst s'.
  split; [reflexivity|]. split; [reflexivity|].
  split; [apply resizeBuffer_wf|].
  split.
  - intros y x Hy Hx. apply buffer_get_cell.
    rewrite resizeBuffer_cell. rewrite decide_True by lia.
    rewrite !Z2Nat.id by lia. f_equal.
    destruct (Z.ltb_spec y (m_rows s)), (Z.ltb_spec x (m_cols s)); simpl;
      first [ by rewrite decide_True by lia | by rewrite decide_False by lia ].
  - unfold resizeBuffer. fields. int_arith. repeat split; reflexivity.
Qed.

Lemma resize_copies_overlap_witness :
  1 <= 10 <= INT_MAX /\ 1 <= 40 <= INT_MAX /\
  m_cursorX (resizeBuffer 10 40 initialTerminal)
    = Z.min (m_cursorX initialTerminal) (40 - 1).
Proof.
  assert (Hr : 1 <= 10 <= INT_MAX) by (unfold INT_MAX; lia).
  assert (Hc : 1 <= 40 <= INT_MAX) by (unfold INT_MAX; lia).
  split; [exact Hr|]. split; [exact Hc|].
  exact (proj1 (proj2 (proj2 (proj2 (proj2
           (resize_copies_overlap 10 40 initialTerminal Hr Hc)))))).
Defined.

(** ** ASCII bytes and the decoder *)

Lemma ascii_high_bit (c : Z) : 0 <= c <= 127 -> Z.land c 128 = 0 /\ Z.land c 192 <> 128.
Proof.
  intros Hc.
  apply (forall_range_decide
           (fun c => Z.land c 128 = 0 /\ Z.land c 192 <> 128) 0 128);
    [by vm_compute | lia].
Qed.

(** An ASCII byte goes to the parser; a pending sequence is discarded. *)
Lemma processByte_ascii (c : Z) (s : TerminalWidget) :
  0 <= c <= 127 ->
  processByte c s =
    processChar c (if 0 <? m_utf8Remaining s then resetDecoder s else s).
Proof.
  intros Hc. destruct (ascii_high_bit c Hc) as [H128 H192].
  rewrite (processByte_fresh c s H192).
  unfold startByte. rewrite H128. reflexivity.
Qed.

Lemma processByte_ascii_idle (c : Z) (s : TerminalWidget) :
  0 <= c <= 127 -> m_utf8Remaining s = 0 -> processByte c s = processChar c s.
Proof.
  intros Hc Hidle. rewrite processByte_ascii by done.
  by rewrite Hidle.
Qed.

(** ** Carriage return and line feed *)

Lemma nextRow_effect (s : TerminalWidget) :
  dims_ok s -> buffer_wf s -> 0 <= m_cursorY s < m_rows s ->
  (m_cursorY s + 1 < m_rows s -> nextRow s = set_m_cursorY (m_cursorY s + 1) s) /\
  (m_cursorY s + 1 = m_rows s ->
     m_cursorY (nextRow s) = m_cursorY s /\
     m_buffer (nextRow s) =
       drop 1 (m_buffer s) ++ [replicate (Z.to_nat (m_cols s)) TermChar_default]).
Proof.
  intros [Hrows Hcols] Hwf Hy. unfold nextRow. fields.
  assert (Hy1 : int_add (m_cursorY s) 1 = m_cursorY s + 1).
  { unfold int_add. apply wrap_int_id. unfold INT_MIN, INT_MAX in *. lia. }
  rewrite Hy1.
  destruct (Z.leb_spec (m_rows s) (m_cursorY s + 1)); split; try lia; intros Hcase.
  - fields. split.
    + unfold scrollUp. fields. int_arith. lia.
    + pose proof (scrollUp_buffer s Hwf Hrows ltac:(lia)) as Hscroll.
      unfold scrollUp in *. fields. exact Hscroll.
  - reflexivity.
Qed.

(** X5: in Ground state a carriage return followed by a line feed always
    moves to column 0 of the next row (scrolling on the bottom row),
    whether or not a line feed was pending before: the carriage return
    clears the pending mark that would swallow the line feed. *)
Theorem carriage_return_line_feed (s : TerminalWidget) :
  m_escapeState s = EscapeState.None -> m_utf8Remaining s = 0 ->
  dims_ok s -> buffer_wf s -> 0 <= m_cursorY s < m_rows s ->
  let s' := processOutput [chr "013"; chr "010"] s in
  m_cursorX s' = 0 /\ m_pendingNewline s' = true /\
  (m_cursorY s + 1 < m_rows s ->
     m_cursorY s' = m_cursorY s + 1 /\ m_buffer s' = m_buffer s) /\
  (m_cursorY s + 1 = m_rows s ->
     m_cursorY s' = m_cursorY s /\
     m_buffer s' =
       drop 1 (m_buffer s) ++ [replicate (Z.to_nat (m_cols s)) TermChar_default]).
Proof.
  intros Hst Hidle Hd Hwf Hy s'. subst s'.
  cbn [processOutput].
  rewrite (processByte_ascii_idle (chr "013") s) by (done || (vm_compute; split; discriminate)).
  assert (Hcr : processChar (chr "013") s
                = set_m_pendingNewline false (set_m_cursorX 0 s)).
  { unfold processChar. rewrite Hst.
    change (chr "013" =? chr "027") with false. cbv iota.
    unfold processRegularChar. change (chr "013" =? chr "013") with true. cbv iota.
    fields. destruct (m_pendingNewline s) eqn:Hp; [reflexivity|].
    destruct s; cbn in Hp |- *. by rewrite Hp. }
  rewrite Hcr.
  rewrite processByte_ascii_idle by (done || (vm_compute; split; discriminate)).
  unfold processChar. fields. rewrite Hst.
  change (chr "010" =? chr "027") with false. cbv iota.
  unfold processRegularChar.
  change (chr "010" =? chr "013") with false.
  change (chr "010" =? chr "010") with true. cbv iota. fields.
  set (t := set_m_pendingNewline true
              (set_m_pendingNewline false (set_m_cursorX 0 s))).
  destruct (nextRow_effect t Hd Hwf Hy) as [Hin Hbottom].
  destruct (nextRow_stable t) as [Hstable _].
  split; [reflexivity|]. split.
  - destruct (Z.lt_ge_cases (m_cursorY s + 1) (m_rows s)) as [Hlt|Hge].
    + rewrite (Hin Hlt). reflexivity.
    + unfold nextRow, scrollUp. fields. by destruct (_ <=? _).
  - split; intros Hcase.
    + rewrite (Hin Hcase). split; reflexivity.
    + exact (Hbottom Hcase).
Qed.

Lemma carriage_return_line_feed_witness :
  let s := processOutput [chr "010"] initialTerminal in
  m_escapeState s = EscapeState.None /\ m_utf8Remaining s = 0 /\
  m_pendingNewline s = true /\
  m_cursorY (processOutput [chr "013"; chr "010"] s) = m_cursorY s + 1.
Proof.
  intros s.
  assert (Hd : dims_ok s) by (unfold dims_ok, INT_MAX; simpl; lia).
  assert (Hwf : buffer_wf s).
  { apply processByte_wf; [|exact initialTerminal_wf].
    unfold dims_ok, INT_MAX; simpl; lia. }
  assert (Hy : 0 <= m_cursorY s < m_rows s)
    by (vm_compute; split; [discriminate | reflexivity]).
  assert (Hlt : m_cursorY s + 1 < m_rows s) by (vm_compute; reflexivity).
  split; [reflexivity|]. split; [reflexivity|]. split; [reflexivity|].
  exact (proj1 (proj1 (proj2 (proj2
           (carriage_return_line_feed s eq_refl eq_refl Hd Hwf Hy))) Hlt)).
Defined.

(** ** SGR *)

Lemma processSGR_body_attributes (params : list Z) (i : nat) (s : TerminalWidget) :
  (processSGR_body params i s).2 =
    withAttributes (attributes (processSGR_body params i s).2) s.
Proof.
  unfold processSGR_body.
  repeat (case_match; try (destruct s; reflexivity)).
Qed.

Lemma withAttributes_twice (a b : QColor * QColor * bool * bool * bool)
    (s : TerminalWidget) :
  withAttributes a (withAttributes b s) = withAttributes a s.
Proof. destruct a as [[[[? ?] ?] ?] ?], b as [[[[? ?] ?] ?] ?]. reflexivity. Qed.

Lemma attributes_withAttributes (a : QColor * QColor * bool * bool * bool)
    (s : TerminalWidget) :
  attributes (withAttributes a s) = a.
Proof. by destruct a as [[[[? ?] ?] ?] ?]. Qed.

Lemma processSGR_attributes (params : list Z) (s : TerminalWidget) :
  processSGR params s = withAttributes (attributes (processSGR params s)) s.
Proof.
  unfold processSGR, processSGR_from.
  generalize (length params - 0)%nat as fuel. generalize 0%nat as i.
  intros i fuel. revert i s.
  induction fuel as [|fuel IH]; intros i s; cbn [processSGR_loop].
  { by destruct s. }
  destruct (i <? length params)%nat; [|by destruct s].
  pose proof (processSGR_body_attributes params i s) as Hbody.
  destruct (processSGR_body params i s) as [i' s']; cbn [fst snd] in *.
  rewrite (IH (S i') s'). rewrite attributes_withAttributes.
  generalize (attributes (processSGR_loop fuel params (S i') s')). intros A.
  rewrite Hbody. apply withAttributes_twice.
Qed.

(** X6: an SGR sequence changes nothing but the five text attributes: the
    grid, the cursor, the saved slot, the dimensions, the parser and the
    decoder are as before. *)
Theorem sgr_changes_attributes_only (params : list Z) (s : TerminalWidget) :
  processSGR params s = withAttributes (attributes (processSGR params s)) s.
Proof. apply processSGR_attributes. Qed.

(** X7: SGR parameters without a case in [processSGR] (blink, reverse,
    strike-through, ...) are ignored: a sequence made of them leaves the state
    as it is. *)
Theorem sgr_unknown_codes_ignored (params : list Z) (s : TerminalWidget) :
  Forall (fun p => sgrHandled p = false) params ->
  processSGR params s = s.
Proof.
  intros Hall. unfold processSGR.
  assert (Hfrom : forall k i, (k = length params - i)%nat ->
                    processSGR_from params i s = s).
  { induction k as [|k IH]; intros i Hk.
    - apply processSGR_from_end. lia.
    - assert (Hlt : (i < length params)%nat) by lia.
      rewrite processSGR_from_step by exact Hlt.
      destruct (lookup_lt_is_Some_2 params i Hlt) as [p Hp].
      pose proof (proj1 (Forall_lookup _ params) Hall i p Hp) as Hp'.
      assert (Hbody : processSGR_body params i s = (i, s)).
      { unfold processSGR_body.
        rewrite (list_lookup_total_correct params i p Hp).
        unfold sgrHandled in Hp'.
        repeat match goal with
               | |- context [p =? ?k] =>
                   destruct (Z.eqb_spec p k); [subst p; discriminate Hp'|]
               end.
        repeat match goal with
               | |- context [?a <=? ?b] => destruct (Z.leb_spec a b)
               end; simpl in *; try reflexivity; try discriminate Hp'; lia. }
      rewrite Hbody. simpl. apply IH. lia. }
  by apply (Hfrom (length params - 0)%nat).
Qed.

Lemma sgr_unknown_codes_ignored_witness :
  Forall (fun p => sgrHandled p = false) [5; 7; 9; 53] /\
  processSGR [5; 7; 9; 53] initialTerminal = initialTerminal.
Proof.
  assert (H : Forall (fun p => sgrHandled p = false) [5; 7; 9; 53])
    by (repeat constructor).
  split; [exact H|].
  exact (sgr_unknown_codes_ignored [5; 7; 9; 53] initialTerminal H).
Defined.

Lemma processSGR_cons_simple (p : Z) (rest : list Z) (s s' : TerminalWidget) :
  processSGR_body (p :: rest) 0 s = (0%nat, s') ->
  processSGR (p :: rest) s = processSGR rest s'.
Proof.
  intros Hbody. unfold processSGR at 1.
  rewrite processSGR_from_step by (simpl; lia).
  rewrite Hbody. simpl.
  apply (processSGR_from_shift [p] rest s').
Qed.

(** X8: an extended colour introducer (38 or 48) that is not followed by
    5 and an index or by 2 and three components is skipped alone: what
    follows it is read as ordinary SGR parameters. *)
Theorem sgr_incomplete_extended_colour (rest : list Z) (s : TerminalWidget) :
  extendedColourComplete rest = false ->
  processSGR (38 :: rest) s = processSGR rest s /\
  processSGR (48 :: rest) s = processSGR rest s.
Proof.
  intros Hinc.
  assert (Hcond :
            ((2 <? S (length rest))%nat && (rest !!! 0%nat =? 5)) = false /\
            ((4 <? S (length rest))%nat && (rest !!! 0%nat =? 2)) = false).
  { unfold extendedColourComplete in Hinc.
    destruct rest as [|mode [|p1 tl]]; [done | done |].
    cbn [length lookup_total list_lookup_total].
    apply orb_false_iff in Hinc as [H5 H2].
    rewrite H5. split; [apply andb_false_r|].
    destruct (mode =? 2); [|apply andb_false_r].
    cbn [andb] in H2. apply Nat.leb_gt in H2.
    rewrite andb_true_r. apply Nat.ltb_ge. lia. }
  destruct Hcond as [H5 H2].
  split; apply processSGR_cons_simple; unfold processSGR_body;
    cbn [lookup_total list_lookup_total Nat.add length];
    cbn [Z.eqb Pos.eqb Z.leb Z.compare Pos.compare Pos.compare_cont andb];
    match goal with
    | |- (if ?c then _ else if ?d then _ else _) = _ =>
        assert (c = false) as -> by exact H5;
        assert (d = false) as -> by exact H2
    end; reflexivity.
Qed.

Lemma sgr_incomplete_extended_colour_witness :
  extendedColourComplete [2; 1; 4] = false /\
  processSGR [38; 2; 1; 4] initialTerminal = processSGR [2; 1; 4] initialTerminal /\
  m_bold (processSGR [38; 2; 1; 4] initialTerminal) = true.
Proof.
  assert (H : extendedColourComplete [2; 1; 4] = false) by reflexivity.
  split; [exact H|].
  pose proof (proj1 (sgr_incomplete_extended_colour [2; 1; 4] initialTerminal H)) as Heq.
  split; [exact Heq|].
  rewrite Heq. reflexivity.
Defined.

Lemma processSGR_skip (pre rest : list Z) (s s' : TerminalWidget) :
  processSGR_body (pre ++ rest) 0 s = ((length pre - 1)%nat, s') ->
  pre <> [] ->
  processSGR (pre ++ rest) s = processSGR rest s'.
Proof.
  intros Hbody Hne. unfold processSGR at 1.
  rewrite processSGR_from_step
    by (rewrite length_app; destruct pre; [done | simpl; lia]).
  rewrite Hbody. cbn [fst snd].
  replace (S (length pre - 1)) with (length pre)
    by (destruct pre; [done | simpl; lia]).
  apply processSGR_from_shift.
Qed.

(** X9: SGR 38;5;N and 48;5;N with N in 0..255 select palette entry N as
    the foreground (background) colour, SGR 38;2;R;G;B and 48;2;R;G;B
    select the colour [QColor(R, G, B)]; the parameters after them are
    processed as a sequence of their own. *)
Theorem sgr_extended_colour_selects (rest : list Z) (s : TerminalWidget) :
  (forall N, 0 <= N < 256 ->
     processSGR (38 :: 5 :: N :: rest) s
       = processSGR rest (set_m_currentFg (vec_get (m_colorPalette s) N) s) /\
     processSGR (48 :: 5 :: N :: rest) s
       = processSGR rest (set_m_currentBg (vec_get (m_colorPalette s) N) s)) /\
  (forall r g b,
     processSGR (38 :: 2 :: r :: g :: b :: rest) s
       = processSGR rest (set_m_currentFg (mkQColor r g b) s) /\
     processSGR (48 :: 2 :: r :: g :: b :: rest) s
       = processSGR rest (set_m_currentBg (mkQColor r g b) s)).
Proof.
  split.
  - intros N HN.
    assert (Hrange : (0 <=? N) && (N <? 256) = true).
    { destruct (Z.leb_spec 0 N), (Z.ltb_spec N 256); simpl; try done; lia. }
    split.
    + apply (processSGR_skip [38; 5; N] rest); [|done].
      unfold processSGR_body. simpl. by rewrite Hrange.
    + apply (processSGR_skip [48; 5; N] rest); [|done].
      unfold processSGR_body. simpl. by rewrite Hrange.
  - intros r g b. split.
    + apply (processSGR_skip [38; 2; r; g; b] rest); [|done].
      unfold processSGR_body. simpl. reflexivity.
    + apply (processSGR_skip [48; 2; r; g; b] rest); [|done].
      unfold processSGR_body. simpl. reflexivity.
Qed.

Lemma sgr_extended_colour_selects_witness :
  0 <= 231 < 256 /\
  m_currentFg (processSGR [38; 5; 231; 1] initialTerminal) = QColorRgb 255 255 255.
Proof.
  assert (H : 0 <= 231 < 256) by lia.
  split; [exact H|].
  rewrite (proj1 (proj1 (sgr_extended_colour_selects [1] initialTerminal) 231 H)).
  reflexivity.
Defined.

(** X10: with the palette that the constructor builds, SGR 30-37 and 90-97
    select the standard and the bright colour of that number as the
    foreground, SGR 40-47 and 100-107 as the background; and every one of
    the 256 palette entries is a valid colour. *)
Theorem sgr_basic_colours (s : TerminalWidget) (n : Z) :
  m_colorPalette s = initializeColorPalette -> 0 <= n < 8 ->
  processSGR [30 + n] s = set_m_currentFg (vec_get fixed16 n) s /\
  processSGR [90 + n] s = set_m_currentFg (vec_get fixed16 (n + 8)) s /\
  processSGR [40 + n] s = set_m_currentBg (vec_get fixed16 n) s /\
  processSGR [100 + n] s = set_m_currentBg (vec_get fixed16 (n + 8)) s /\
  (forall i, 0 <= i < 256 -> vec_get (m_colorPalette s) i <> QColorInvalid).
Proof.
  intros Hpal Hn.
  assert (Hcases : n = 0 \/ n = 1 \/ n = 2 \/ n = 3 \/ n = 4 \/ n = 5 \/ n = 6 \/ n = 7)
    by lia.
  repeat split.
  1-4: unfold processSGR, processSGR_from; cbn [length Nat.sub processSGR_loop];
       unfold processSGR_body; rewrite Hpal;
       destruct Hcases as [-> | [-> | [-> | [-> | [-> | [-> | [-> | ->]]]]]]];
       reflexivity.
  rewrite Hpal.
  apply (forall_range_decide
           (fun i => vec_get initializeColorPalette i <> QColorInvalid) 0 256).
  by vm_compute.
Qed.

Lemma sgr_basic_colours_witness :
  m_colorPalette initialTerminal = initializeColorPalette /\ 0 <= 1 < 8 /\
  processSGR [30 + 1] initialTerminal
    = set_m_currentFg (QColorRgb 204 36 29) initialTerminal.
Proof.
  assert (H : 0 <= 1 < 8) by lia.
  split; [reflexivity|]. split; [exact H|].
  exact (proj1 (sgr_basic_colours initialTerminal 1 eq_refl H)).
Defined.

(** ** The parser *)

Lemma processChar_idle (c : Z) (s : TerminalWidget) :
  m_utf8Remaining s = 0 -> m_utf8Remaining (processChar c s) = 0.
Proof.
  intros Hidle. pose proof (processChar_stable c s) as Hst.
  unfold stableFields in Hst. congruence.
Qed.

(** With nothing pending in the decoder, ASCII input goes to the parser
    character by character. *)
Lemma processOutput_ascii (chars : list Z) (s : TerminalWidget) :
  Forall isAscii chars -> m_utf8Remaining s = 0 ->
  processOutput chars s = processChars chars s.
Proof.
  revert s. induction chars as [|c chars IH]; intros s Hall Hidle; [done|].
  apply Forall_cons in Hall as [Hc Hall].
  cbn [processOutput]. unfold processChars. cbn [fold_left].
  rewrite processByte_ascii_idle by done.
  apply IH; [exact Hall|]. by apply processChar_idle.
Qed.

Lemma processChars_app (a b : list Z) (s : TerminalWidget) :
  processChars (a ++ b) s = processChars b (processChars a s).
Proof. unfold processChars. apply fold_left_app. Qed.

Lemma processEscapeSequence_unhandled (finalChar : Z) (parameters : QString)
    (s : TerminalWidget) :
  csiHandled finalChar = false ->
  processEscapeSequence finalChar parameters s = s.
Proof.
  unfold csiHandled. cbn [existsb]. intros Hc.
  repeat (apply orb_false_iff in Hc as [? Hc]).
  unfold processEscapeSequence.
  destruct (parseParams parameters) as [privateMode params].
  repeat match goal with
         | H : (finalChar =? ?k) = false |- _ => rewrite H; clear H
         end.
  reflexivity.
Qed.

(** X11: a CSI sequence whose final byte has no case in the dispatcher is
    ignored: the state is as before, and the parser is back in Ground
    state once the final byte has been read. *)
Theorem csi_unrecognised_is_ignored (c : Z) (s : TerminalWidget) :
  inCsi s = true -> isParameterParam c = false -> csiHandled c = false ->
  processChar c s = set_m_escapeState EscapeState.None s.
Proof.
  intros Hcsi Hparam Hunh.
  assert (Hbracket : isBracketParam c = false).
  { unfold isParameterParam in Hparam. by apply orb_false_iff in Hparam as [? _]. }
  unfold inCsi in Hcsi. unfold processChar.
  destruct (m_escapeState s); try discriminate Hcsi.
  - rewrite Hbracket. by rewrite processEscapeSequence_unhandled.
  - rewrite Hparam. by rewrite processEscapeSequence_unhandled.
Qed.

Lemma csi_unrecognised_is_ignored_witness :
  let s := processOutput ([chr "027"] ++ bytesOfString "[5") initialTerminal in
  inCsi s = true /\ isParameterParam (chr "~") = false /\
  csiHandled (chr "~") = false /\
  processChar (chr "~") s = set_m_escapeState EscapeState.None s.
Proof.
  intros s.
  assert (H1 : inCsi s = true) by reflexivity.
  assert (H2 : isParameterParam (chr "~") = false) by reflexivity.
  assert (H3 : csiHandled (chr "~") = false) by reflexivity.
  repeat (split; [assumption|]).
  exact (csi_unrecognised_is_ignored (chr "~") s H1 H2 H3).
Defined.

Lemma negative_char_tests (c : Z) :
  c < 0 ->
  isParameterParam c = false /\ isDigit c = false /\ csiHandled c = false /\
  (c =? chr "027") = false /\ (c =? chr "[") = false /\ (c =? chr "]") = false /\
  (c =? chr "%") = false /\ (c =? chr ";") = false /\ (c =? chr "007") = false /\
  (c =? chr "\") = false.
Proof.
  intros Hc.
  unfold isParameterParam, isBracketParam, isDigit, csiHandled. cbn [existsb].
  chars.
  repeat match goal with
         | |- context [c =? ?k] => destruct (Z.eqb_spec c k); [lia|]
         | |- context [?k <=? c] => destruct (Z.leb_spec k c); [lia|]
         end.
  repeat split; reflexivity.
Qed.

Lemma processRegularChar_negative (c : Z) (s : TerminalWidget) :
  c < 0 -> processRegularChar c s = s.
Proof.
  intros Hc. unfold processRegularChar. chars.
  repeat match goal with
         | |- context [c =? ?k] => destruct (Z.eqb_spec c k); [lia|]
         | |- context [?k <=? c] => destruct (Z.leb_spec k c); [lia|]
         end.
  reflexivity.
Qed.

(** X12: a byte above 0x7F that reaches the parser (a negative [char]) is
    never written to the grid.  In Ground state it is dropped; in the
    Escape, CSI and OSC-number states it only ends the sequence; inside an
    OSC payload it is collected. *)
Theorem high_byte_never_prints (c : Z) (s : TerminalWidget) :
  c < 0 ->
  processChar c s =
    match m_escapeState s with
    | EscapeState.None => s
    | EscapeState.OSCParameter => appendSeq c s
    | _ => set_m_escapeState EscapeState.None s
    end.
Proof.
  intros Hc.
  destruct (negative_char_tests c Hc)
    as (Hparam & Hdigit & Hunh & Hesc & Hlb & Hrb & Hpct & Hsemi & Hbel & Hbs).
  assert (Hbracket : isBracketParam c = false).
  { unfold isParameterParam in Hparam. by apply orb_false_iff in Hparam as [? _]. }
  unfold processChar.
  destruct (m_escapeState s).
  - rewrite Hesc. by apply processRegularChar_negative.
  - rewrite Hlb, Hrb, Hpct. by apply processRegularChar_negative.
  - rewrite Hbracket. by rewrite processEscapeSequence_unhandled.
  - rewrite Hparam. by rewrite processEscapeSequence_unhandled.
  - by rewrite Hdigit, Hsemi.
  - by rewrite Hbel, Hbs.
Qed.

Lemma high_byte_never_prints_witness :
  toChar 255 < 0 /\ processChar (toChar 255) initialTerminal = initialTerminal.
Proof.
  assert (H : toChar 255 < 0) by (vm_compute; reflexivity).
  split; [exact H|].
  exact (high_byte_never_prints (toChar 255) initialTerminal H).
Defined.

Lemma fromLatin1_ascii (c : Z) : isAscii c -> fromLatin1 c = c.
Proof. unfold isAscii, fromLatin1. intros Hc. apply Z.mod_small. lia. Qed.

(** Parameter characters are collected while the parser is in the
    Parameter state. *)
Lemma collect_parameters (params : list Z) (s : TerminalWidget) :
  m_escapeState s = EscapeState.Parameter_ ->
  Forall isAscii params -> Forall (fun c => isParameterParam c = true) params ->
  processChars params s = set_m_escapeSequence (m_escapeSequence s ++ params) s.
Proof.
  revert s. induction params as [|c params IH]; intros s Hst Hascii Hparam.
  - unfold processChars. simpl. rewrite app_nil_r. by destruct s.
  - apply Forall_cons in Hascii as [Hc Hascii].
    apply Forall_cons in Hparam as [Hp Hparam].
    unfold processChars. cbn [fold_left]. fold (processChars params (processChar c s)).
    assert (Hstep : processChar c s = appendSeq c s).
    { unfold processChar. by rewrite Hst, Hp. }
    rewrite Hstep, IH by (done || (unfold appendSeq; fields; done)).
    unfold appendSeq. fields. rewrite fromLatin1_ascii by done.
    rewrite <- app_assoc. by destruct s.
Qed.

Lemma csi_dispatch (params : list Z) (final : Z) (s : TerminalWidget) :
  m_escapeState s = EscapeState.None -> m_utf8Remaining s = 0 ->
  Forall isAscii params -> isAscii final ->
  Forall (fun c => isParameterParam c = true) params ->
  (forall c, head params = Some c -> isBracketParam c = true) ->
  isParameterParam final = false ->
  processOutput ([chr "027"; chr "["] ++ params ++ [final]) s =
    set_m_escapeState EscapeState.None
      (processEscapeSequence final params
         (set_m_escapeSequence params
            (set_m_escapeState
               (match params with
                | [] => EscapeState.Bracket
                | _ => EscapeState.Parameter_
                end) s))).
Proof.
  intros Hst Hidle Hascii Hfinal Hparam Hhead Hnot.
  assert (Hbracket : isBracketParam final = false).
  { unfold isParameterParam in Hnot. by apply orb_false_iff in Hnot as [? _]. }
  rewrite processOutput_ascii; [| |exact Hidle].
  2: { apply Forall_cons. split; [vm_compute; split; discriminate|].
       apply Forall_cons. split; [vm_compute; split; discriminate|].
       apply Forall_app. split; [exact Hascii|].
       apply Forall_cons. split; [exact Hfinal | apply Forall_nil; exact I]. }
  change ([chr "027"; chr "["] ++ params ++ [final])
    with ([chr "027"; chr "["] ++ (params ++ [final])).
  rewrite processChars_app.
  assert (Hopen : processChars [chr "027"; chr "["] s
                  = set_m_escapeState EscapeState.Bracket (set_m_escapeSequence [] s)).
  { unfold processChars. cbn [fold_left]. unfold processChar at 2. rewrite Hst.
    change (chr "027" =? chr "027") with true. cbv iota.
    unfold processChar. fields.
    change (chr "[" =? chr "[") with true. cbv iota. by destruct s. }
  rewrite Hopen.
  destruct params as [|c params].
  - unfold processChars. cbn [app fold_left]. unfold processChar. fields.
    rewrite Hbracket. by destruct s.
  - apply Forall_cons in Hascii as [Hc Hascii].
    apply Forall_cons in Hparam as [_ Hparam].
    specialize (Hhead c eq_refl).
    change ((c :: params) ++ [final]) with ([c] ++ params ++ [final]).
    rewrite !processChars_app.
    assert (Hfirst : processChars [c]
                       (set_m_escapeState EscapeState.Bracket (set_m_escapeSequence [] s))
                     = set_m_escapeState EscapeState.Parameter_
                         (set_m_escapeSequence [c] s)).
    { unfold processChars. cbn [fold_left]. unfold processChar, appendSeq. fields.
      rewrite Hhead. rewrite fromLatin1_ascii by done. by destruct s. }
    rewrite Hfirst.
    rewrite (collect_parameters params
               (set_m_escapeState EscapeState.Parameter_ (set_m_escapeSequence [c] s)))
      by (done || reflexivity).
    fields.
    unfold processChars. cbn [fold_left]. unfold processChar. fields.
    rewrite Hnot. cbn [app]. by destruct s.
Qed.

(** X13: from Ground state, ESC [ followed by parameter characters and a
    final byte dispatches exactly one CSI command, with exactly the
    characters between '[' and the final byte as its parameter text, and
    leaves the parser in Ground state.  The first parameter character may
    not be '=', which the Bracket state takes for a final byte. *)
Theorem csi_sequence_is_dispatched (params : list Z) (final : Z)
    (s : TerminalWidget) :
  m_escapeState s = EscapeState.None -> m_utf8Remaining s = 0 ->
  Forall isAscii params -> isAscii final ->
  Forall (fun c => isParameterParam c = true) params ->
  (forall c, head params = Some c -> isBracketParam c = true) ->
  isParameterParam final = false ->
  processOutput ([chr "027"; chr "["] ++ params ++ [final]) s =
    set_m_escapeState EscapeState.None
      (processEscapeSequence final params
         (set_m_escapeSequence params
            (set_m_escapeState
               (match params with
                | [] => EscapeState.Bracket
                | _ => EscapeState.Parameter_
                end) s))).
Proof. apply csi_dispatch. Qed.

Lemma csi_sequence_is_dispatched_witness :
  let params := bytesOfString "2;5" in
  Forall isAscii params /\ isAscii (chr "H") /\
  Forall (fun c => isParameterParam c = true) params /\
  isParameterParam (chr "H") = false /\
  m_cursorY (processOutput ([chr "027"; chr "["] ++ params ++ [chr "H"])
               initialTerminal) = 1.
Proof.
  intros params.
  assert (H1 : Forall isAscii params).
  { repeat constructor; vm_compute; discriminate. }
  assert (H2 : isAscii (chr "H")) by (vm_compute; split; discriminate).
  assert (H3 : Forall (fun c => isParameterParam c = true) params)
    by (repeat constructor).
  assert (H4 : isParameterParam (chr "H") = false) by reflexivity.
  assert (H5 : forall c, head params = Some c -> isBracketParam c = true).
  { intros c [= <-]. reflexivity. }
  repeat (split; [assumption|]).
  rewrite (csi_sequence_is_dispatched params (chr "H") initialTerminal
             eq_refl eq_refl H1 H2 H3 H5 H4).
  reflexivity.
Defined.

(** The payload of an OSC sequence is collected without any other effect. *)
Lemma collect_osc_payload (payload : list Z) (s : TerminalWidget) :
  m_escapeState s = EscapeState.OSCParameter ->
  Forall isAscii payload ->
  Forall (fun c => c <> chr "007" /\ c <> chr "\") payload ->
  processChars payload s = set_m_escapeSequence (m_escapeSequence s ++ payload) s.
Proof.
  revert s. induction payload as [|c payload IH]; intros s Hst Hascii Hpay.
  - unfold processChars. simpl. rewrite app_nil_r. by destruct s.
  - apply Forall_cons in Hascii as [Hc Hascii].
    apply Forall_cons in Hpay as [[Hbel Hbs] Hpay].
    unfold processChars. cbn [fold_left]. fold (processChars payload (processChar c s)).
    assert (Hstep : processChar c s = appendSeq c s).
    { unfold processChar. rewrite Hst.
      destruct (Z.eqb_spec c (chr "007")); [done|].
      by destruct (Z.eqb_spec c (chr "\")). }
    rewrite Hstep, IH by (done || (unfold appendSeq; fields; done)).
    unfold appendSeq. fields. rewrite fromLatin1_ascii by done.
    rewrite <- app_assoc. by destruct s.
Qed.

Lemma collect_osc_number (digits : list Z) (s : TerminalWidget) :
  m_escapeState s = EscapeState.OSC ->
  Forall isAscii digits -> Forall (fun c => isDigit c = true) digits ->
  processChars digits s = set_m_escapeSequence (m_escapeSequence s ++ digits) s.
Proof.
  revert s. induction digits as [|c digits IH]; intros s Hst Hascii Hdig.
  - unfold processChars. simpl. rewrite app_nil_r. by destruct s.
  - apply Forall_cons in Hascii as [Hc Hascii].
    apply Forall_cons in Hdig as [Hd Hdig].
    unfold processChars. cbn [fold_left]. fold (processChars digits (processChar c s)).
    assert (Hstep : processChar c s = appendSeq c s).
    { unfold processChar. by rewrite Hst, Hd. }
    rewrite Hstep, IH by (done || (unfold appendSeq; fields; done)).
    unfold appendSeq. fields. rewrite fromLatin1_ascii by done.
    rewrite <- app_assoc. by destruct s.
Qed.

(** X14: an OSC sequence ESC ] number ; payload BEL whose payload is
    ASCII (no byte above 0x7F) and holds no BEL and no backslash has no
    effect on the screen: grid, cursor, attributes and every other field
    are as before; only the parser's own text buffer holds the collected
    sequence, and the parser is back in Ground state.  Bytes above 0x7F
    are outside this statement: the byte decoder takes them before the
    parser sees them. *)
Theorem osc_sequence_is_discarded (digits payload : list Z) (s : TerminalWidget) :
  m_escapeState s = EscapeState.None -> m_utf8Remaining s = 0 ->
  Forall isAscii digits -> Forall (fun c => isDigit c = true) digits ->
  Forall isAscii payload ->
  Forall (fun c => c <> chr "007" /\ c <> chr "\") payload ->
  processOutput
    ([chr "027"; chr "]"] ++ digits ++ [chr ";"] ++ payload ++ [chr "007"]) s
  = set_m_escapeSequence (digits ++ [chr ";"] ++ payload) s.
Proof.
  intros Hst Hidle Hdascii Hdig Hpascii Hpay.
  rewrite processOutput_ascii; [| |exact Hidle].
  2: { apply Forall_cons. split; [vm_compute; split; discriminate|].
       apply Forall_cons. split; [vm_compute; split; discriminate|].
       apply Forall_app. split; [exact Hdascii|].
       apply Forall_cons. split; [vm_compute; split; discriminate|].
       apply Forall_app. split; [exact Hpascii|].
       apply Forall_cons. split; [vm_compute; split; discriminate|].
       apply Forall_nil. exact I. }
  rewrite !processChars_app.
  assert (Hopen : processChars [chr "027"; chr "]"] s
                  = set_m_escapeState EscapeState.OSC (set_m_escapeSequence [] s)).
  { unfold processChars. cbn [fold_left]. unfold processChar at 2. rewrite Hst.
    change (chr "027" =? chr "027") with true. cbv iota.
    unfold processChar. fields.
    change (chr "]" =? chr "[") with false.
    change (chr "]" =? chr "]") with true. cbv iota. by destruct s. }
  rewrite Hopen.
  rewrite (collect_osc_number digits
             (set_m_escapeState EscapeState.OSC (set_m_escapeSequence [] s)))
    by (done || reflexivity).
  fields.
  assert (Hsemi : forall t, m_escapeState t = EscapeState.OSC ->
            processChars [chr ";"] t
            = set_m_escapeState EscapeState.OSCParameter
                (set_m_escapeSequence (m_escapeSequence t ++ [chr ";"]) t)).
  { intros t Ht. unfold processChars. cbn [fold_left]. unfold processChar. rewrite Ht.
    change (isDigit (chr ";")) with false. cbv iota.
    change (chr ";" =? chr ";") with true. cbv iota.
    unfold appendSeq. by destruct t. }
  rewrite Hsemi by reflexivity. fields.
  match goal with
  | |- context [processChars payload ?t] =>
      rewrite (collect_osc_payload payload t) by (done || reflexivity)
  end.
  fields.
  unfold processChars. cbn [fold_left]. unfold processChar. fields.
  change (chr "007" =? chr "007") with true. cbn [orb]. cbv iota.
  rewrite <- app_assoc. destruct s. fields. cbn [app].
  simpl in Hst. by rewrite Hst.
Qed.

Lemma osc_sequence_is_discarded_witness :
  let digits := bytesOfString "0" in
  let payload := bytesOfString "window title" in
  Forall isAscii digits /\ Forall (fun c => isDigit c = true) digits /\
  Forall isAscii payload /\
  Forall (fun c => c <> chr "007" /\ c <> chr "\") payload /\
  m_buffer (processOutput
              ([chr "027"; chr "]"] ++ digits ++ [chr ";"] ++ payload ++ [chr "007"])
              initialTerminal)
  = m_buffer initialTerminal.
Proof.
  intros digits payload.
  assert (H1 : Forall isAscii digits) by (repeat constructor; vm_compute; discriminate).
  assert (H2 : Forall (fun c => isDigit c = true) digits) by (repeat constructor).
  assert (H3 : Forall isAscii payload)
    by (repeat constructor; vm_compute; discriminate).
  assert (H4 : Forall (fun c => c <> chr "007" /\ c <> chr "\") payload)
    by (repeat constructor; vm_compute; discriminate).
  repeat (split; [assumption|]).
  rewrite (osc_sequence_is_discarded digits payload initialTerminal
             eq_refl eq_refl H1 H2 H3 H4).
  reflexivity.
Defined.

(** ** Whole outputs *)

Lemma processByte_dims (c : Z) (s : TerminalWidget) :
  m_rows (processByte c s) = m_rows s /\ m_cols (processByte c s) = m_cols s.
Proof.
  assert (Hchar : forall t, m_rows (processChar c t) = m_rows t /\
                            m_cols (processChar c t) = m_cols t).
  { intros t. pose proof (processChar_stable c t) as Hst.
    unfold stableFields in Hst. split; congruence. }
  unfold processByte, startByte.
  repeat case_match; try done; try apply Hchar.
  - fields.
    match goal with
    | |- m_rows (processUtf8Sequence ?b ?t) = _ /\ _ =>
        pose proof (processUtf8Sequence_stable b t) as Hst
    end.
    unfold stableFields in Hst. fields. split; congruence.
  - destruct (Hchar (set_m_utf8Buffer [] (set_m_utf8Remaining 0 s))) as [-> ->]. done.
  - destruct (Hchar (set_m_utf8Buffer [] (set_m_utf8Remaining 0 s))) as [-> ->]. done.
Qed.

(** Any output leaves the dimensions alone and the grid rectangular. *)
Lemma processOutput_wf (data : QByteArray) (s : TerminalWidget) :
  dims_ok s -> buffer_wf s ->
  dims_ok (processOutput data s) /\ buffer_wf (processOutput data s).
Proof.
  revert s. induction data as [|c data IH]; intros s Hd Hwf; [done|].
  cbn [processOutput]. apply IH.
  - destruct (processByte_dims c s) as [Hr Hc].
    unfold dims_ok. rewrite Hr, Hc. exact Hd.
  - by apply processByte_wf.
Qed.

Lemma initialTerminal_dims : dims_ok initialTerminal.
Proof. unfold dims_ok, INT_MAX. simpl. lia. Qed.

(** ** Erasing *)

(** Overwriting columns [lo .. hi-1] of row [y]. *)
Lemma cell_set_columns (t : TermChar) (y lo hi : Z)
    (buf : list (list TermChar)) (y' x' : nat) :
  0 <= y -> 0 <= lo ->
  cell (for_range lo hi (fun x b => buffer_set t y x b) buf) y' x' =
    if decide (y' = Z.to_nat y /\ lo <= Z.of_nat x' < hi)
    then (fun _ => t) <$> cell buf y' x'
    else cell buf y' x'.
Proof.
  intros Hy Hlo.
  destruct (Z.le_gt_cases hi lo) as [Hempty|Hne].
  { rewrite for_range_empty by done. by rewrite decide_False by lia. }
  set (P := fun (i : Z) (acc : list (list TermChar)) => forall y' x',
              cell acc y' x' =
                if decide (y' = Z.to_nat y /\ lo <= Z.of_nat x' < i)
                then (fun _ => t) <$> cell buf y' x'
                else cell buf y' x').
  revert y' x'. change (P hi (for_range lo hi (fun x b => buffer_set t y x b) buf)).
  apply for_range_ind; [lia| |]; unfold P.
  - intros y' x'. by rewrite decide_False by lia.
  - intros i acc Hi IH y' x'.
    unfold buffer_set. rewrite cell_buffer_alter by lia. rewrite IH.
    repeat case_decide; try done; try lia;
      destruct (cell buf y' x'); simpl; done.
Qed.

(** The cells that [clearScreen] addresses: the rows from [startRow] to
    [endRow], from [startCol] on in the first and up to [endCol] in the
    last of them. *)
Lemma cell_clearScreen (startRow startCol endRow endCol : Z)
    (s : TerminalWidget) (y' x' : nat) :
  0 <= startRow -> 0 <= startCol ->
  cell (m_buffer (clearScreen startRow startCol endRow endCol s)) y' x' =
    if decide (startRow <= Z.of_nat y' <= endRow /\
               (if Z.of_nat y' =? startRow then startCol else 0) <= Z.of_nat x' /\
               Z.of_nat x'
                 <= (if Z.of_nat y' =? endRow then endCol else int_sub (m_cols s) 1))
    then (fun _ => TermChar_default) <$> cell (m_buffer s) y' x'
    else cell (m_buffer s) y' x'.
Proof.
  intros Hsr Hsc. unfold clearScreen. fields.
  destruct (Z.le_gt_cases (endRow + 1) startRow) as [Hempty|Hne].
  { rewrite for_range_empty by done. by rewrite decide_False by lia. }
  set (body := fun (y : Z) (buf : list (list TermChar)) =>
                 for_range (if y =? startRow then startCol else 0)
                   ((if y =? endRow then endCol else int_sub (m_cols s) 1) + 1)
                   (fun x buf => buffer_set TermChar_default y x buf) buf).
  set (P := fun (i : Z) (acc : list (list TermChar)) => forall y' x',
              cell acc y' x' =
                if decide (startRow <= Z.of_nat y' < i /\
                           (if Z.of_nat y' =? startRow then startCol else 0)
                             <= Z.of_nat x' /\
                           Z.of_nat x'
                             <= (if Z.of_nat y' =? endRow then endCol
                                 else int_sub (m_cols s) 1))
                then (fun _ => TermChar_default) <$> cell (m_buffer s) y' x'
                else cell (m_buffer s) y' x').
  assert (HP : P (endRow + 1) (for_range startRow (endRow + 1) body (m_buffer s))).
  { apply for_range_ind; [lia| |]; unfold P.
    - intros y0 x0. by rewrite decide_False by lia.
    - intros i acc Hi IH y0 x0. unfold body.
      rewrite cell_set_columns by (try lia; destruct (i =? startRow); lia).
      rewrite IH.
      destruct (decide (y0 = Z.to_nat i)) as [->|Hrow].
      + rewrite Z2Nat.id by lia.
        repeat case_decide; try done; try lia;
          destruct (cell (m_buffer s) (Z.to_nat i) x0); simpl; done.
      + repeat case_decide; try done; try lia. }
  rewrite (HP y' x').
  repeat case_decide; try done; lia.
Qed.

(** Evaluate the tests of a literal final byte against the dispatcher. *)
Ltac eval_final :=
  repeat match goal with
         | |- context [chr ?a =? chr ?b] =>
             let v := eval vm_compute in (chr a =? chr b) in
             change (chr a =? chr b) with v
         end;
  cbn [orb andb].

Lemma cell_lookup_wf (s : TerminalWidget) (y x : Z) :
  buffer_wf s -> 0 <= y < m_rows s -> 0 <= x < m_cols s ->
  cell (m_buffer s) (Z.to_nat y) (Z.to_nat x) = Some (buffer_get (m_buffer s) y x).
Proof.
  intros Hwf Hy Hx.
  destruct (cell_wf s (Z.to_nat y) (Z.to_nat x) Hwf) as [t Ht]; [lia | lia |].
  rewrite Ht. f_equal. symmetry. by apply buffer_get_cell.
Qed.

(** X15: erase in display resets to default cells exactly the cells its
    parameter addresses - 0: from the cursor to the end of the screen, 1:
    from the start of the screen to the cursor, 2 and 3: all, any other
    value: none - and changes nothing but the grid. *)
Theorem erase_in_display (parameters : QString) (s : TerminalWidget) :
  dims_ok s -> cursor_ok s -> buffer_wf s ->
  let p0 := (parseParams parameters).2 !!! 0%nat in
  let s' := processEscapeSequence (chr "J") parameters s in
  s' = set_m_buffer (m_buffer s') s /\ buffer_wf s' /\
  forall y x, 0 <= y < m_rows s -> 0 <= x < m_cols s ->
    buffer_get (m_buffer s') y x =
      if edErases p0 (m_cursorY s) (m_cursorX s) y x
      then TermChar_default else buffer_get (m_buffer s) y x.
Proof.
  intros Hd Hc Hwf p0 s'.
  pose proof Hd as [Hrows Hcols]. pose proof Hc as [Hcy Hcx].
  assert (Hr1 : int_sub (m_rows s) 1 = m_rows s - 1).
  { unfold int_sub. apply wrap_int_id. unfold INT_MIN, INT_MAX in *. lia. }
  assert (Hc1 : int_sub (m_cols s) 1 = m_cols s - 1).
  { unfold int_sub. apply wrap_int_id. unfold INT_MIN, INT_MAX in *. lia. }
  subst s' p0. unfold processEscapeSequence.
  destruct (parseParams parameters) as [privateMode params]. cbn [snd].
  eval_final.
  unfold edErases.
  destruct (params !!! 0%nat =? 0); [|destruct (params !!! 0%nat =? 1);
    [|destruct ((params !!! 0%nat =? 2) || (params !!! 0%nat =? 3))]].
  4: { split; [by destruct s|]. split; [exact Hwf|]. done. }
  all: split; [reflexivity|]; split; [by apply clearScreen_wf|];
    intros y x Hy Hx; apply buffer_get_cell;
    rewrite cell_clearScreen by lia;
    rewrite (cell_lookup_wf s y x Hwf Hy Hx);
    rewrite !Z2Nat.id by lia; rewrite ?Hr1, ?Hc1;
    repeat match goal with
           | |- context [?a <? ?b] => destruct (Z.ltb_spec a b)
           | |- context [?a <=? ?b] => destruct (Z.leb_spec a b)
           | |- context [?a =? ?b] => destruct (Z.eqb_spec a b)
           end; cbn [orb andb];
    first [ rewrite decide_True by lia; reflexivity
          | rewrite decide_False by lia; reflexivity ].
Qed.

Lemma erase_in_display_witness :
  let s := processOutput (bytesOfString "abc") initialTerminal in
  dims_ok s /\ cursor_ok s /\ buffer_wf s /\
  buffer_get (m_buffer (processEscapeSequence (chr "J") (bytesOfString "1") s)) 0 1
    = TermChar_default.
Proof.
  intros s.
  destruct (processOutput_wf (bytesOfString "abc") initialTerminal
              initialTerminal_dims initialTerminal_wf) as [Hd Hwf].
  assert (Hc : cursor_ok s)
    by (vm_compute; repeat split; first [discriminate | reflexivity]).
  split; [exact Hd|]. split; [exact Hc|]. split; [exact Hwf|].
  rewrite (proj2 (proj2 (erase_in_display (bytesOfString "1") s Hd Hc Hwf)) 0 1)
    by (vm_compute; split; first [discriminate | reflexivity]).
  reflexivity.
Defined.

(** X16: erase in line resets to default cells exactly the cells of the
    cursor's row that its parameter addresses - 0: from the cursor to the
    end of the line, 1: from the start of the line to the cursor, 2: the
    whole line, any other value: none - and changes nothing but the grid. *)
Theorem erase_in_line (parameters : QString) (s : TerminalWidget) :
  dims_ok s -> cursor_ok s -> buffer_wf s ->
  let p0 := (parseParams parameters).2 !!! 0%nat in
  let s' := processEscapeSequence (chr "K") parameters s in
  s' = set_m_buffer (m_buffer s') s /\ buffer_wf s' /\
  forall y x, 0 <= y < m_rows s -> 0 <= x < m_cols s ->
    buffer_get (m_buffer s') y x =
      if elErases p0 (m_cursorY s) (m_cursorX s) y x
      then TermChar_default else buffer_get (m_buffer s) y x.
Proof.
  intros Hd Hc Hwf p0 s'.
  pose proof Hd as [Hrows Hcols]. pose proof Hc as [Hcy Hcx].
  assert (Hc1 : int_sub (m_cols s) 1 = m_cols s - 1).
  { unfold int_sub. apply wrap_int_id. unfold INT_MIN, INT_MAX in *. lia. }
  subst s' p0. unfold processEscapeSequence.
  destruct (parseParams parameters) as [privateMode params]. cbn [snd].
  eval_final.
  unfold elErases.
  destruct (params !!! 0%nat =? 0); [|destruct (params !!! 0%nat =? 1);
    [|destruct (params !!! 0%nat =? 2)]].
  4: { split; [by destruct s|]. split; [exact Hwf|].
       intros y x _ _. by rewrite andb_false_r. }
  all: split; [reflexivity|]; split; [by apply clearLine_wf|];
    intros y x Hy Hx; apply buffer_get_cell;
    unfold clearLine; fields;
    rewrite cell_set_columns by lia;
    rewrite (cell_lookup_wf s y x Hwf Hy Hx);
    rewrite !Z2Nat.id by lia; rewrite ?Hc1;
    repeat match goal with
           | |- context [?a <=? ?b] => destruct (Z.leb_spec a b)
           | |- context [?a =? ?b] => destruct (Z.eqb_spec a b)
           end; cbn [orb andb];
    first [ rewrite decide_True by lia; reflexivity
          | rewrite decide_False by lia; reflexivity ].
Qed.

Lemma erase_in_line_witness :
  let s := processOutput (bytesOfString "abc" ++ [chr "008"]) initialTerminal in
  dims_ok s /\ cursor_ok s /\ buffer_wf s /\
  buffer_get (m_buffer (processEscapeSequence (chr "K") [] s)) 0 2
    = TermChar_default /\
  buffer_get (m_buffer (processEscapeSequence (chr "K") [] s)) 0 1
    = buffer_get (m_buffer s) 0 1.
Proof.
  intros s.
  destruct (processOutput_wf (bytesOfString "abc" ++ [chr "008"]) initialTerminal
              initialTerminal_dims initialTerminal_wf) as [Hd Hwf].
  assert (Hc : cursor_ok s)
    by (vm_compute; repeat split; first [discriminate | reflexivity]).
  split; [exact Hd|]. split; [exact Hc|]. split; [exact Hwf|].
  pose proof (proj2 (proj2 (erase_in_line [] s Hd Hc Hwf))) as Hcells.
  split.
  - rewrite (Hcells 0 2) by (vm_compute; split; first [discriminate | reflexivity]).
    reflexivity.
  - rewrite (Hcells 0 1) by (vm_compute; split; first [discriminate | reflexivity]).
    reflexivity.
Defined.

(** ** Numeric parameters *)

Lemma digitsValue_snoc (l : QString) (d acc : Z) :
  digitsValue acc (l ++ [d]) =
    match digitsValue acc l with
    | Some v => if isDigit d then Some (10 * v + (d - chr "0")) else None
    | None => None
    end.
Proof.
  revert acc. induction l as [|c l IH]; intros acc; simpl; [done|].
  destruct (isDigit c); [apply IH | done].
Qed.

Lemma isDigit_range (c : Z) : isDigit c = true <-> 48 <= c <= 57.
Proof.
  unfold isDigit. chars.
  destruct (Z.leb_spec 48 c), (Z.leb_spec c 57); simpl; split; intros; lia || done.
Qed.

Lemma decimalFuel_spec (fuel : nat) (n : Z) :
  0 <= n < Z.of_nat fuel ->
  digitsValue 0 (decimalFuel fuel n) = Some n /\
  Forall (fun c => isDigit c = true) (decimalFuel fuel n) /\
  decimalFuel fuel n <> [].
Proof.
  revert n. induction fuel as [|fuel IH]; intros n Hn; [lia|].
  cbn [decimalFuel].
  assert (Hd : isDigit (chr "0" + n mod 10) = true).
  { apply isDigit_range. chars. zdm. }
  destruct (Z.ltb_spec n 10) as [Hsmall|Hbig].
  - cbn [app digitsValue]. rewrite Hd.
    split; [|split; [by repeat constructor | done]].
    f_equal. chars. zdm.
  - destruct (IH (n / 10)) as (Hval & Hall & Hne); [zdm|].
    split; [|split].
    + rewrite digitsValue_snoc, Hval, Hd. f_equal. chars. zdm.
    + apply Forall_app. split; [exact Hall | by repeat constructor].
    + by destruct (decimalFuel fuel (n / 10)).
Qed.

Lemma decimal_spec (n : Z) :
  0 <= n ->
  digitsValue 0 (decimal n) = Some n /\
  Forall (fun c => isDigit c = true) (decimal n) /\ decimal n <> [].
Proof. intros Hn. apply decimalFuel_spec. lia. Qed.

Lemma digit_is_plain (c : Z) :
  isDigit c = true ->
  isSpace c = false /\ (c =? chr "-") = false /\ (c =? chr "+") = false /\
  (c =? chr ";") = false /\ (c =? chr "?") = false /\ (c =? chr ">") = false /\
  isAscii c /\ isParameterParam c = true /\ isBracketParam c = true.
Proof.
  intros Hd. pose proof (proj1 (isDigit_range c) Hd) as Hc.
  unfold isParameterParam, isBracketParam. rewrite Hd. cbn [orb].
  unfold isSpace, isAscii. chars.
  repeat match goal with
         | |- context [c =? ?k] => destruct (Z.eqb_spec c k); [lia|]
         | |- context [?a <=? ?b] => destruct (Z.leb_spec a b); try lia
         end;
    try (cbn [orb andb]; repeat split; try reflexivity; lia).
Qed.

Lemma trimmed_digits (l : QString) :
  l <> [] -> Forall (fun c => isDigit c = true) l -> trimmed l = l.
Proof.
  intros Hne Hall. unfold trimmed.
  assert (Hdrop : forall k : QString, k <> [] ->
            Forall (fun c => isDigit c = true) k -> dropWhile isSpace k = k).
  { intros [|c k] Hk Hkall; [done|].
    apply Forall_cons in Hkall as [Hc _].
    destruct (digit_is_plain c Hc) as [Hsp _]. simpl. by rewrite Hsp. }
  rewrite (Hdrop l Hne Hall).
  rewrite Hdrop.
  - apply rev_involutive.
  - intros Hnil. apply (f_equal (@rev _)) in Hnil.
    rewrite rev_involutive in Hnil. done.
  - apply Forall_forall. intros c Hin.
    apply list_elem_of_In, in_rev, list_elem_of_In in Hin.
    by apply (proj1 (Forall_forall _ _) Hall).
Qed.

(** [toInt] reads a numeral back. *)
Lemma toInt_decimal (n : Z) : 0 <= n <= INT_MAX -> toInt (decimal n) = Some n.
Proof.
  intros Hn. destruct (decimal_spec n) as (Hval & Hall & Hne); [lia|].
  unfold toInt. rewrite (trimmed_digits _ Hne Hall).
  destruct (decimal n) as [|c l] eqn:Hdec; [done|].
  pose proof Hall as Hall'. apply Forall_cons in Hall' as [Hc _].
  destruct (digit_is_plain c Hc) as (_ & Hminus & Hplus & _).
  rewrite Hminus, Hplus. rewrite Hval.
  destruct (Z.leb_spec INT_MIN n), (Z.leb_spec n INT_MAX); simpl; try done;
    unfold INT_MIN, INT_MAX in *; lia.
Qed.

Lemma split_no_separator (sep : QChar) (l : QString) :
  Forall (fun c => (c =? sep) = false) l -> split sep l = [l].
Proof.
  induction l as [|c l IH]; intros Hall; [done|].
  apply Forall_cons in Hall as [Hc Hall].
  simpl. rewrite Hc. by rewrite (IH Hall).
Qed.

Lemma split_at_separator (sep : QChar) (l1 l2 : QString) :
  Forall (fun c => (c =? sep) = false) l1 ->
  split sep (l1 ++ sep :: l2) = l1 :: split sep l2.
Proof.
  induction l1 as [|c l1 IH]; intros Hall.
  - simpl. by rewrite Z.eqb_refl.
  - apply Forall_cons in Hall as [Hc Hall].
    simpl. rewrite Hc. by rewrite (IH Hall).
Qed.

Lemma decimal_no_semicolon (n : Z) :
  0 <= n -> Forall (fun c => (c =? chr ";") = false) (decimal n).
Proof.
  intros Hn. destruct (decimal_spec n Hn) as (_ & Hall & _).
  eapply Forall_impl; [exact Hall|]. intros c Hc.
  by destruct (digit_is_plain c Hc) as (_ & _ & _ & Hsemi & _).
Qed.

Lemma split_joinParams (ns : list Z) :
  Forall (fun n => 0 <= n) ns -> ns <> [] ->
  split (chr ";") (joinParams ns) = map decimal ns.
Proof.
  induction ns as [|n ns IH]; intros Hall Hne; [done|].
  apply Forall_cons in Hall as [Hn Hall].
  destruct ns as [|n' ns].
  - cbn [joinParams map]. apply split_no_separator. by apply decimal_no_semicolon.
  - change (joinParams (n :: n' :: ns))
      with (decimal n ++ chr ";" :: joinParams (n' :: ns)).
    rewrite split_at_separator by (by apply decimal_no_semicolon).
    cbn [map]. f_equal. by apply IH.
Qed.

Lemma joinParams_head (ns : list Z) (c : Z) :
  Forall (fun n => 0 <= n) ns ->
  head (joinParams ns) = Some c -> isDigit c = true.
Proof.
  intros Hall Hhead.
  destruct ns as [|n ns]; [done|].
  apply Forall_cons in Hall as [Hn _].
  destruct (decimal_spec n Hn) as (_ & Hdig & Hne).
  assert (Hh : head (joinParams (n :: ns)) = head (decimal n)).
  { destruct ns; [done|].
    change (joinParams (n :: z :: ns)) with (decimal n ++ chr ";" :: joinParams (z :: ns)).
    by destruct (decimal n). }
  rewrite Hh in Hhead. destruct (decimal n) as [|d l]; [done|].
  injection Hhead as <-. by apply Forall_cons in Hdig as [? _].
Qed.

(** The parameter text of decimal numerals parses to the numbers; an
    empty text parses to the single parameter 0. *)
Lemma parseParams_joinParams (ns : list Z) :
  Forall (fun n => 0 <= n <= INT_MAX) ns ->
  parseParams (joinParams ns) = (false, match ns with [] => [0] | _ => ns end).
Proof.
  intros Hall.
  destruct ns as [|n ns]; [reflexivity|].
  assert (Hnonneg : Forall (fun n => 0 <= n) (n :: ns)).
  { eapply Forall_impl; [exact Hall|]. intros; simpl in *; lia. }
  unfold parseParams.
  assert (Hprivate : startsWith (chr "?") (joinParams (n :: ns))
                     || startsWith (chr ">") (joinParams (n :: ns)) = false).
  { unfold startsWith.
    destruct (joinParams (n :: ns)) as [|c l] eqn:Hj; [done|].
    assert (Hc : isDigit c = true).
    { apply (joinParams_head (n :: ns)); [exact Hnonneg | by rewrite Hj]. }
    destruct (digit_is_plain c Hc) as (_ & _ & _ & _ & Hq & Hgt & _).
    by rewrite Hq, Hgt. }
  rewrite Hprivate.
  rewrite split_joinParams by done.
  rewrite map_map.
  assert (Hmap : map (fun x => default 0 (toInt (decimal x))) (n :: ns) = n :: ns).
  { clear Hprivate Hnonneg. induction Hall as [|m ms Hm Hms IH]; [done|].
    cbn [map]. rewrite toInt_decimal by exact Hm. simpl. by rewrite IH. }
  by rewrite Hmap.
Qed.

Lemma joinParams_chars (ns : list Z) :
  Forall (fun n => 0 <= n) ns ->
  Forall isAscii (joinParams ns) /\
  Forall (fun c => isParameterParam c = true) (joinParams ns).
Proof.
  induction ns as [|n ns IH]; intros Hall; [by split|].
  apply Forall_cons in Hall as [Hn Hall].
  destruct (decimal_spec n Hn) as (_ & Hdig & _).
  assert (Hdec : Forall isAscii (decimal n) /\
                 Forall (fun c => isParameterParam c = true) (decimal n)).
  { split; (eapply Forall_impl; [exact Hdig|]); intros c Hc;
      by destruct (digit_is_plain c Hc) as (_ & _ & _ & _ & _ & _ & ? & ? & _). }
  destruct ns as [|n' ns]; [exact Hdec|].
  change (joinParams (n :: n' :: ns))
    with (decimal n ++ chr ";" :: joinParams (n' :: ns)).
  destruct (IH Hall) as [IH1 IH2]. destruct Hdec as [Hd1 Hd2].
  split; apply Forall_app; (split; [assumption|]); apply Forall_cons; split;
    try assumption; try reflexivity.
  vm_compute. split; discriminate.
Qed.

(** ** Complete control sequences with numeric parameters *)

Lemma csi_numeric (ns : list Z) (final : Z) (s : TerminalWidget) :
  m_escapeState s = EscapeState.None -> m_utf8Remaining s = 0 ->
  Forall (fun n => 0 <= n <= INT_MAX) ns ->
  isAscii final -> isParameterParam final = false ->
  processOutput (csiSequence ns final) s =
    set_m_escapeState EscapeState.None
      (processEscapeSequence final (joinParams ns)
         (set_m_escapeSequence (joinParams ns)
            (set_m_escapeState
               (match joinParams ns with
                | [] => EscapeState.Bracket
                | _ => EscapeState.Parameter_
                end) s))).
Proof.
  intros Hst Hidle Hall Hfinal Hnot.
  assert (Hnonneg : Forall (fun n => 0 <= n) ns).
  { eapply Forall_impl; [exact Hall|]. intros; simpl in *; lia. }
  destruct (joinParams_chars ns Hnonneg) as [Hascii Hparam].
  unfold csiSequence.
  apply csi_dispatch; try assumption.
  intros c Hhead. pose proof (joinParams_head ns c Hnonneg Hhead) as Hd.
  by destruct (digit_is_plain c Hd) as (_ & _ & _ & _ & _ & _ & _ & _ & ?).
Qed.



(** X18: ESC [ n A, B, C, D move the cursor up, down, right and left by
    max(1, n) cells (by 1 when the parameter is omitted or 0) and stop at
    the edge of the grid; for down and right this holds as long as the
    sum does not overflow an [int].  Nothing but the cursor and the
    collected parameter text changes. *)
Theorem cursor_move_sequence (ns : list Z) (s : TerminalWidget) :
  m_escapeState s = EscapeState.None -> m_utf8Remaining s = 0 ->
  dims_ok s -> cursor_ok s ->
  Forall (fun n => 0 <= n <= INT_MAX) ns ->
  let count := Z.max 1 (default 0 (head ns)) in
  let s' := set_m_escapeSequence (joinParams ns) s in
  processOutput (csiSequence ns (chr "A")) s =
    set_m_cursorY (Z.max 0 (m_cursorY s - count)) s' /\
  processOutput (csiSequence ns (chr "D")) s =
    set_m_cursorX (Z.max 0 (m_cursorX s - count)) s' /\
  (m_cursorY s + count <= INT_MAX ->
   processOutput (csiSequence ns (chr "B")) s =
     set_m_cursorY (Z.min (m_rows s - 1) (m_cursorY s + count)) s') /\
  (m_cursorX s + count <= INT_MAX ->
   processOutput (csiSequence ns (chr "C")) s =
     set_m_cursorX (Z.min (m_cols s - 1) (m_cursorX s + count)) s').
Proof.
  intros Hst Hidle [Hrows Hcols] [Hy Hx] Hall count s'.
  assert (Hp0 : (match ns with [] => [0] | _ => ns end) !!! 0%nat
                = default 0 (head ns)).
  { by destruct ns. }
  assert (Hn : 0 <= default 0 (head ns) <= INT_MAX).
  { destruct ns as [|n ns]; [vm_compute; split; discriminate|].
    by apply Forall_cons in Hall as [? _]. }
  assert (Hascii : forall c, c = chr "A" \/ c = chr "B" \/ c = chr "C" \/ c = chr "D" ->
            isAscii c /\ isParameterParam c = false).
  { intros c [-> | [-> | [-> | ->]]]; (split; [vm_compute; split; discriminate | reflexivity]). }
  repeat split; [| |intros Hsum|intros Hsum];
    (rewrite csi_numeric; try assumption; [|apply Hascii; tauto|apply Hascii; tauto]);
    unfold processEscapeSequence; rewrite parseParams_joinParams by exact Hall;
    rewrite Hp0; cbn [Z.eqb orb chr]; fields; subst count s';
    generalize dependent (default 0 (head ns)); intros p0 _ Hp0r; intros.
  - assert (He : qMax 0 (int_sub (m_cursorY s) (qMax 1 p0))
                 = Z.max 0 (m_cursorY s - Z.max 1 p0)).
    { int_arith. reflexivity. }
    rewrite He. destruct s; cbn in *. by rewrite Hst.
  - assert (He : qMax 0 (int_sub (m_cursorX s) (qMax 1 p0))
                 = Z.max 0 (m_cursorX s - Z.max 1 p0)).
    { int_arith. reflexivity. }
    rewrite He. destruct s; cbn in *. by rewrite Hst.
  - assert (He : qMin (int_sub (m_rows s) 1) (int_add (m_cursorY s) (qMax 1 p0))
                 = Z.min (m_rows s - 1) (m_cursorY s + Z.max 1 p0)).
    { int_arith. reflexivity. }
    rewrite He. destruct s; cbn in *. by rewrite Hst.
  - assert (He : qMin (int_sub (m_cols s) 1) (int_add (m_cursorX s) (qMax 1 p0))
                 = Z.min (m_cols s - 1) (m_cursorX s + Z.max 1 p0)).
    { int_arith. reflexivity. }
    rewrite He. destruct s; cbn in *. by rewrite Hst.
Qed.

Lemma cursor_move_sequence_witness :
  dims_ok initialTerminal /\ cursor_ok initialTerminal /\
  m_cursorY (processOutput (csiSequence [3] (chr "B")) initialTerminal) = 3 /\
  m_cursorY (processOutput (csiSequence [] (chr "A")) initialTerminal) = 0.
Proof.
  assert (Hd : dims_ok initialTerminal) by (vm_compute; intuition discriminate).
  assert (Hc : cursor_ok initialTerminal) by (vm_compute; intuition discriminate).
  assert (H3 : Forall (fun n => 0 <= n <= INT_MAX) [3]).
  { repeat constructor; vm_compute; discriminate. }
  split; [exact Hd|]. split; [exact Hc|].
  destruct (cursor_move_sequence [3] initialTerminal eq_refl eq_refl Hd Hc H3)
    as (_ & _ & Hdown & _).
  rewrite Hdown by (vm_compute; discriminate).
  split; vm_compute; reflexivity.
Defined.



(** An SGR sequence does not look at the parser state. *)
Lemma processSGR_body_parser (params : list Z) (i : nat) (st : EscapeState.t)
    (q : QString) (s : TerminalWidget) :
  processSGR_body params i (set_m_escapeSequence q (set_m_escapeState st s)) =
    ((processSGR_body params i s).1,
     set_m_escapeSequence q (set_m_escapeState st (processSGR_body params i s).2)).
Proof.
  unfold processSGR_body. fields.
  repeat (case_match; try reflexivity).
Qed.

Lemma processSGR_parser (params : list Z) (st : EscapeState.t) (q : QString)
    (s : TerminalWidget) :
  processSGR params (set_m_escapeSequence q (set_m_escapeState st s)) =
    set_m_escapeSequence q (set_m_escapeState st (processSGR params s)).
Proof.
  unfold processSGR, processSGR_from.
  generalize (length params - 0)%nat as fuel. generalize 0%nat as i.
  intros i fuel. revert i s.
  induction fuel as [|fuel IH]; intros i s; cbn [processSGR_loop]; [done|].
  destruct (i <? length params)%nat; [|done].
  rewrite processSGR_body_parser.
  destruct (processSGR_body params i s) as [i' s']; cbn [fst snd].
  apply IH.
Qed.

(** X20: ESC [ n1 ; ... ; nk m from Ground state applies the SGR
    parameters n1..nk to the text attributes, and ESC [ m applies the
    single parameter 0: a reset.  Nothing but the attributes and the
    collected parameter text changes. *)
Theorem sgr_sequence (ns : list Z) (s : TerminalWidget) :
  m_escapeState s = EscapeState.None -> m_utf8Remaining s = 0 ->
  Forall (fun n => 0 <= n <= INT_MAX) ns ->
  processOutput (csiSequence ns (chr "m")) s =
    set_m_escapeSequence (joinParams ns)
      (processSGR (match ns with [] => [0] | _ => ns end) s) /\
  (ns = [] ->
   attributes (processOutput (csiSequence ns (chr "m")) s) = defaultAttributes s).
Proof.
  intros Hst Hidle Hall.
  assert (Heq : processOutput (csiSequence ns (chr "m")) s =
            set_m_escapeSequence (joinParams ns)
              (processSGR (match ns with [] => [0] | _ => ns end) s)).
  { rewrite csi_numeric; try assumption;
      [|vm_compute; split; discriminate|reflexivity].
    unfold processEscapeSequence. rewrite parseParams_joinParams by exact Hall.
    change (chr "m" =? chr "m") with true. cbv iota.
    rewrite processSGR_parser.
    destruct (processSGR_frame (match ns with [] => [0] | _ => ns end) s)
      as (_ & _ & _ & Hstate).
    rewrite Hst in Hstate.
    destruct (processSGR _ s); cbn in *. by rewrite Hstate. }
  split; [exact Heq|].
  intros ->. rewrite Heq. reflexivity.
Qed.

Lemma sgr_sequence_witness :
  m_bold (processOutput (csiSequence [1; 31] (chr "m")) initialTerminal) = true /\
  m_bold (processOutput (csiSequence [] (chr "m"))
            (processOutput (csiSequence [1; 31] (chr "m")) initialTerminal)) = false.
Proof.
  assert (H1 : Forall (fun n => 0 <= n <= INT_MAX) [1; 31]).
  { repeat constructor; vm_compute; discriminate. }
  destruct (sgr_sequence [1; 31] initialTerminal eq_refl eq_refl H1) as [Heq _].
  rewrite Heq. split; vm_compute; reflexivity.
Defined.

(** ** What the handlers leave alone *)

Lemma mode_split (s t : TerminalWidget) :
  modeFields t = modeFields s ->
  savedCursor t = savedCursor s /\ attributes t = attributes s /\
  m_cursorVisible t = m_cursorVisible s.
Proof.
  intros H. split; [|split].
  - exact (f_equal (fun p => fst (fst p)) H).
  - exact (f_equal snd H).
  - exact (f_equal (fun p => snd (fst p)) H).
Qed.

Lemma nextRow_mode (s : TerminalWidget) : modeFields (nextRow s) = modeFields s.
Proof. unfold nextRow, scrollUp. fields. by case_match. Qed.

Lemma lineWrap_mode (s : TerminalWidget) : modeFields (lineWrap s) = modeFields s.
Proof. unfold lineWrap. case_match; [|done]. by rewrite nextRow_mode. Qed.

Lemma processRegularChar_mode (c : Z) (s : TerminalWidget) :
  modeFields (processRegularChar c s) = modeFields s.
Proof.
  unfold processRegularChar, storeAtCursor.
  repeat (case_match; try done);
    rewrite ?lineWrap_mode, ?nextRow_mode; try done.
  change (modeFields (set_m_cursorX 0 ?t)) with (modeFields t).
  by rewrite nextRow_mode.
Qed.

Lemma processUtf8Sequence_mode (utf8Bytes : QByteArray) (s : TerminalWidget) :
  modeFields (processUtf8Sequence utf8Bytes s) = modeFields s.
Proof.
  unfold processUtf8Sequence, storeAtCursor.
  destruct (fromUtf8 utf8Bytes) as [|ch _]; [done|].
  rewrite lineWrap_mode. by repeat case_match.
Qed.

Lemma cursorVisible_fold_mode (b : bool) (params : list Z) (s : TerminalWidget) :
  savedCursor
    (fold_left (fun s param => if param =? 25 then set_m_cursorVisible b s else s)
       params s) = savedCursor s /\
  attributes
    (fold_left (fun s param => if param =? 25 then set_m_cursorVisible b s else s)
       params s) = attributes s.
Proof.
  revert s. induction params as [|p params IH]; intros s; simpl; [done|].
  destruct (IH (if p =? 25 then set_m_cursorVisible b s else s)) as [-> ->].
  by destruct (p =? 25).
Qed.

Lemma processSGR_mode (params : list Z) (s : TerminalWidget) :
  savedCursor (processSGR params s) = savedCursor s /\
  m_cursorVisible (processSGR params s) = m_cursorVisible s.
Proof.
  rewrite processSGR_attributes.
  by destruct (attributes (processSGR params s)) as [[[[? ?] ?] ?] ?].
Qed.

Ltac eval_char_tests :=
  repeat match goal with
         | |- context [chr ?a =? chr ?b] =>
             let v := eval vm_compute in (chr a =? chr b) in
             change (chr a =? chr b) with v
         end;
  cbv iota; cbn [orb].

Lemma processEscapeSequence_mode (finalChar : Z) (parameters : QString)
    (s : TerminalWidget) :
  let t := processEscapeSequence finalChar parameters s in
  (finalChar <> chr "s" -> savedCursor t = savedCursor s) /\
  (finalChar <> chr "m" -> attributes t = attributes s) /\
  (finalChar <> chr "h" -> finalChar <> chr "l" ->
   m_cursorVisible t = m_cursorVisible s).
Proof.
  unfold processEscapeSequence.
  destruct (parseParams parameters) as [privateMode params].
  destruct (Z.eqb_spec finalChar (chr "m")) as [->|Hm].
  { destruct (processSGR_mode params s) as [Hsaved Hvis].
    cbv zeta. split; [|split]; [done|done|]. intros _ _. exact Hvis. }
  destruct (Z.eqb_spec finalChar (chr "s")) as [->|Hs].
  { eval_char_tests. cbv zeta. split; [|split]; done. }
  destruct (Z.eqb_spec finalChar (chr "h")) as [->|Hh].
  { eval_char_tests. cbv zeta.
    destruct privateMode; [|done].
    destruct (cursorVisible_fold_mode true params s) as [-> ->]. done. }
  destruct (Z.eqb_spec finalChar (chr "l")) as [->|Hl].
  { eval_char_tests. cbv zeta.
    destruct privateMode; [|done].
    destruct (cursorVisible_fold_mode false params s) as [-> ->]. done. }
  cbv zeta. cbn [orb].
  repeat (case_match; try done).
Qed.

Lemma processChar_mode (c : Z) (s : TerminalWidget) :
  let t := processChar c s in
  (~ (inCsi s = true /\ c = chr "s") -> savedCursor t = savedCursor s) /\
  (~ (inCsi s = true /\ c = chr "m") -> attributes t = attributes s) /\
  (~ (inCsi s = true /\ (c = chr "h" \/ c = chr "l")) ->
   m_cursorVisible t = m_cursorVisible s).
Proof.
  cbv zeta. unfold processChar, inCsi.
  destruct (m_escapeState s) eqn:Hst.
  - assert (H : modeFields (if c =? chr "027"
                  then set_m_escapeSequence [] (set_m_escapeState EscapeState.Escape s)
                  else processRegularChar c s) = modeFields s).
    { case_match; [done | apply processRegularChar_mode]. }
    destruct (mode_split _ _ H) as (H1 & H2 & H3).
    split; [|split]; intros _; assumption.
  - assert (H : modeFields
                  (if c =? chr "[" then set_m_escapeState EscapeState.Bracket s
                   else if c =? chr "]"
                   then set_m_escapeSequence [] (set_m_escapeState EscapeState.OSC s)
                   else if c =? chr "%" then s
                   else processRegularChar c (set_m_escapeState EscapeState.None s))
                = modeFields s).
    { repeat (case_match; try done). by rewrite processRegularChar_mode. }
    destruct (mode_split _ _ H) as (H1 & H2 & H3).
    split; [|split]; intros _; assumption.
  - destruct (isBracketParam c); [done|].
    destruct (processEscapeSequence_mode c (m_escapeSequence s) s) as (H1 & H2 & H3).
    split; [|split]; intros Hn.
    + apply H1. intros ->. by apply Hn.
    + apply H2. intros ->. by apply Hn.
    + apply H3; intros ->; apply Hn; split; auto.
  - destruct (isParameterParam c); [done|].
    destruct (processEscapeSequence_mode c (m_escapeSequence s) s) as (H1 & H2 & H3).
    split; [|split]; intros Hn.
    + apply H1. intros ->. by apply Hn.
    + apply H2. intros ->. by apply Hn.
    + apply H3; intros ->; apply Hn; split; auto.
  - by repeat case_match.
  - by repeat case_match.
Qed.

Lemma processByte_mode (c : Z) (s : TerminalWidget) :
  let t := processByte c s in
  (~ (inCsi s = true /\ c = chr "s") -> savedCursor t = savedCursor s) /\
  (~ (inCsi s = true /\ c = chr "m") -> attributes t = attributes s) /\
  (~ (inCsi s = true /\ (c = chr "h" \/ c = chr "l")) ->
   m_cursorVisible t = m_cursorVisible s).
Proof.
  cbv zeta.
  assert (Hstart : forall s0 : TerminalWidget,
            modeFields s0 = modeFields s -> m_escapeState s0 = m_escapeState s ->
            (~ (inCsi s = true /\ c = chr "s") ->
               savedCursor (startByte c s0) = savedCursor s) /\
            (~ (inCsi s = true /\ c = chr "m") ->
               attributes (startByte c s0) = attributes s) /\
            (~ (inCsi s = true /\ (c = chr "h" \/ c = chr "l")) ->
               m_cursorVisible (startByte c s0) = m_cursorVisible s)).
  { intros s0 Hmode Hst.
    destruct (mode_split _ _ Hmode) as (H1 & H2 & H3).
    pose proof (processChar_mode c s0) as Hchar. cbv zeta in Hchar.
    assert (Hcsi : inCsi s0 = inCsi s) by (unfold inCsi; by rewrite Hst).
    rewrite Hcsi, H1, H2, H3 in Hchar.
    unfold startByte. repeat case_match; try exact Hchar;
      (split; [|split]); intros _; assumption. }
  unfold processByte.
  destruct (0 <? m_utf8Remaining s); [|by apply Hstart].
  destruct (Z.land c 192 =? 128); [|by apply Hstart].
  fields. case_match; [|done].
  match goal with
  | |- context [processUtf8Sequence ?b ?t] =>
      pose proof (processUtf8Sequence_mode b t) as Hmode
  end.
  destruct (mode_split _ _ Hmode) as (H1 & H2 & H3).
  split; [|split]; intros _; assumption.
Qed.

Lemma processByte_static (c : Z) (s : TerminalWidget) :
  (m_rows (processByte c s), m_cols (processByte c s),
   m_colorPalette (processByte c s), m_defaultFg (processByte c s),
   m_defaultBg (processByte c s))
  = (m_rows s, m_cols s, m_colorPalette s, m_defaultFg s, m_defaultBg s).
Proof.
  assert (Hchar : forall t,
            (m_rows (processChar c t), m_cols (processChar c t),
             m_colorPalette (processChar c t), m_defaultFg (processChar c t),
             m_defaultBg (processChar c t))
            = (m_rows t, m_cols t, m_colorPalette t, m_defaultFg t, m_defaultBg t)).
  { intros t. pose proof (processChar_stable c t) as Hst.
    unfold stableFields in Hst. congruence. }
  unfold processByte, startByte.
  repeat case_match; try done; try apply Hchar.
  - fields.
    match goal with
    | |- context [processUtf8Sequence ?b ?t] =>
        pose proof (processUtf8Sequence_stable b t) as Hst
    end.
    unfold stableFields in Hst. fields. congruence.
  - by rewrite (Hchar (set_m_utf8Buffer [] (set_m_utf8Remaining 0 s))).
  - by rewrite (Hchar (set_m_utf8Buffer [] (set_m_utf8Remaining 0 s))).
Qed.

(** X21: a byte fed to the terminal never changes the grid dimensions,
    the palette or the default colours; it changes the saved cursor slot
    only as the final byte s of a CSI sequence, the text attributes only
    as the final byte m, and the cursor visibility only as the final byte
    h or l. *)
Theorem byte_leaves_modes (c : Z) (s : TerminalWidget) :
  let t := processByte c s in
  (m_rows t, m_cols t, m_colorPalette t, m_defaultFg t, m_defaultBg t)
    = (m_rows s, m_cols s, m_colorPalette s, m_defaultFg s, m_defaultBg s) /\
  (~ (inCsi s = true /\ c = chr "s") -> savedCursor t = savedCursor s) /\
  (~ (inCsi s = true /\ c = chr "m") -> attributes t = attributes s) /\
  (~ (inCsi s = true /\ (c = chr "h" \/ c = chr "l")) ->
   m_cursorVisible t = m_cursorVisible s).
Proof.
  cbv zeta. split; [apply processByte_static | apply processByte_mode].
Qed.

Lemma byte_leaves_modes_witness :
  savedCursor (processByte (chr "s") initialTerminal) = savedCursor initialTerminal.
Proof.
  apply (byte_leaves_modes (chr "s") initialTerminal).
  intros [H _]. discriminate H.
Defined.

(** ** Tab stops and the last column *)



(** X23: a printable character written in the last column wraps at once:
    the cursor goes to column 0 of the next row.  On the bottom row the
    grid scrolls immediately, so the character ends in the row above the
    bottom, over a blank bottom row; on a grid of one row the character
    is scrolled away and the grid is blank. *)
Theorem print_in_last_column (c : Z) (s : TerminalWidget) :
  isPrintableAscii c ->
  m_escapeState s = EscapeState.None -> m_utf8Remaining s = 0 ->
  dims_ok s -> buffer_wf s ->
  0 <= m_cursorY s < m_rows s -> m_cursorX s = m_cols s - 1 ->
  let s' := processOutput [c] s in
  m_cursorX s' = 0 /\
  (m_cursorY s + 1 < m_rows s ->
     m_cursorY s' = m_cursorY s + 1 /\
     m_buffer s' = m_buffer (storeAtCursor c s)) /\
  (m_cursorY s + 1 = m_rows s ->
     m_cursorY s' = m_cursorY s /\
     m_buffer s' =
       drop 1 (m_buffer (storeAtCursor c s))
       ++ [replicate (Z.to_nat (m_cols s)) TermChar_default]) /\
  (m_rows s = 1 ->
     m_buffer s' = [replicate (Z.to_nat (m_cols s)) TermChar_default]).
Proof.
  intros Hc Hst Hidle Hd Hwf Hy Hx s'. subst s'.
  pose proof Hd as [Hrows Hcols].
  cbn [processOutput]. rewrite processByte_printable by done.
  assert (Hadd : int_add (m_cursorX s) 1 = m_cols s).
  { unfold int_add. rewrite wrap_int_id by (unfold INT_MIN, INT_MAX in *; lia). lia. }
  rewrite Hadd. unfold lineWrap. fields.
  change (m_cols (storeAtCursor c (set_m_pendingNewline false s))) with (m_cols s).
  rewrite Z.leb_refl.
  set (s2 := set_m_cursorX 0
               (set_m_cursorX (m_cols s)
                  (storeAtCursor c (set_m_pendingNewline false s)))).
  assert (Hbuf2 : m_buffer s2 = m_buffer (storeAtCursor c s)) by reflexivity.
  assert (Hwf2 : buffer_wf s2).
  { apply (storeAtCursor_wf c) in Hwf. exact Hwf. }
  destruct (nextRow_effect s2 Hd Hwf2 Hy) as [Hin Hbottom].
  change (m_cursorY s2) with (m_cursorY s) in *.
  change (m_rows s2) with (m_rows s) in *.
  change (m_cols s2) with (m_cols s) in *.
  split; [|split; [|split]].
  - unfold nextRow, scrollUp. fields. by case_match.
  - intros Hcase. rewrite (Hin Hcase). split; reflexivity.
  - intros Hcase. destruct (Hbottom Hcase) as [Hrow Hgrid].
    split; [exact Hrow|]. by rewrite Hgrid, Hbuf2.
  - intros Hone. destruct Hbottom as [_ Hgrid]; [lia|].
    rewrite Hgrid, Hbuf2.
    destruct (storeAtCursor_wf c s Hwf) as [Hlen _].
    change (m_rows (storeAtCursor c s)) with (m_rows s) in Hlen.
    rewrite drop_ge by (rewrite Hlen; lia). reflexivity.
Qed.

Lemma print_in_last_column_witness :
  let s := processOutput [chr "a"; chr "b"] (resizeBuffer 1 3 initialTerminal) in
  isPrintableAscii (chr "c") /\ dims_ok s /\ buffer_wf s /\
  m_cursorX s = m_cols s - 1 /\
  m_buffer (processOutput [chr "c"] s) = [replicate 3 TermChar_default].
Proof.
  intros s.
  assert (Hp : isPrintableAscii (chr "c")) by (vm_compute; split; discriminate).
  assert (Hd : dims_ok s) by (vm_compute; intuition discriminate).
  assert (Hwf : buffer_wf s).
  { split; [vm_compute; reflexivity|]. vm_compute. repeat constructor. }
  assert (Hy : 0 <= m_cursorY s < m_rows s) by (vm_compute; intuition discriminate).
  assert (Hst : m_escapeState s = EscapeState.None) by (vm_compute; reflexivity).
  assert (Hidle : m_utf8Remaining s = 0) by (vm_compute; reflexivity).
  assert (Hx : m_cursorX s = m_cols s - 1) by (vm_compute; reflexivity).
  assert (Hone : m_rows s = 1) by (vm_compute; reflexivity).
  assert (Hcols : m_cols s = 3) by (vm_compute; reflexivity).
  split; [exact Hp|]. split; [exact Hd|]. split; [exact Hwf|]. split; [exact Hx|].
  destruct (print_in_last_column (chr "c") s Hp Hst Hidle Hd Hwf Hy Hx)
    as (_ & _ & _ & Hblank).
  rewrite (Hblank Hone), Hcols. reflexivity.
Defined.

(** ** Saving and restoring the cursor *)

Lemma processOutput_saved (data : QByteArray) (s : TerminalWidget) :
  noSave data s -> savedCursor (processOutput data s) = savedCursor s.
Proof.
  revert s. induction data as [|c data IH]; intros s Hno; [done|].
  destruct Hno as [Hc Hrest]. cbn [processOutput].
  rewrite (IH _ Hrest).
  by apply (processByte_mode c s).
Qed.

(** X24: ESC [ s saves the cursor position and a later ESC [ u puts the
    cursor back there, whatever was written in between, as long as no
    other ESC [ s was dispatched in between (and the grid was not
    resized).  The restore changes nothing in the grid. *)
Theorem save_restore_round_trip (data : QByteArray) (s : TerminalWidget) :
  m_escapeState s = EscapeState.None -> m_utf8Remaining s = 0 ->
  let s1 := processOutput (csiSequence [] (chr "s")) s in
  let s2 := processOutput data s1 in
  let s3 := processOutput (csiSequence [] (chr "u")) s2 in
  noSave data s1 ->
  m_escapeState s2 = EscapeState.None -> m_utf8Remaining s2 = 0 ->
  m_cursorX s3 = m_cursorX s /\ m_cursorY s3 = m_cursorY s /\
  m_buffer s3 = m_buffer s2.
Proof.
  intros Hst Hidle s1 s2 s3 Hno Hst2 Hidle2.
  assert (Hsave : savedCursor s1 = (m_cursorX s, m_cursorY s)).
  { subst s1. rewrite csi_numeric; try assumption;
      [|apply Forall_nil; exact I|vm_compute; split; discriminate|reflexivity].
    reflexivity. }
  assert (Hkeep : savedCursor s2 = (m_cursorX s, m_cursorY s)).
  { subst s2. by rewrite processOutput_saved. }
  assert (Hrestore : s3 = set_m_escapeState EscapeState.None
            (processEscapeSequence (chr "u") []
               (set_m_escapeSequence []
                  (set_m_escapeState EscapeState.Bracket s2)))).
  { subst s3. rewrite csi_numeric; try assumption;
      [reflexivity|apply Forall_nil; exact I|vm_compute; split; discriminate|reflexivity]. }
  rewrite Hrestore.
  unfold savedCursor in Hkeep. injection Hkeep as Hx Hy.
  split; [exact Hx|]. split; [exact Hy|]. reflexivity.
Qed.

Lemma save_restore_round_trip_witness :
  let s := processOutput (bytesOfString "ab") initialTerminal in
  let s2 := processOutput (bytesOfString "sun") (processOutput (csiSequence [] (chr "s")) s) in
  m_cursorX s2 = 5 /\
  m_cursorX (processOutput (csiSequence [] (chr "u")) s2) = 2.
Proof.
  intros s s2.
  assert (Hst : m_escapeState s = EscapeState.None) by (vm_compute; reflexivity).
  assert (Hidle : m_utf8Remaining s = 0) by (vm_compute; reflexivity).
  assert (Hst2 : m_escapeState s2 = EscapeState.None) by (vm_compute; reflexivity).
  assert (Hidle2 : m_utf8Remaining s2 = 0) by (vm_compute; reflexivity).
  assert (Hno : noSave (bytesOfString "sun")
                  (processOutput (csiSequence [] (chr "s")) s)).
  { vm_compute. repeat split; intros [H _]; discriminate H. }
  split; [vm_compute; reflexivity|].
  destruct (save_restore_round_trip (bytesOfString "sun") s Hst Hidle Hno Hst2 Hidle2)
    as (Hx & _ & _).
  fold s2 in Hx. rewrite Hx. vm_compute. reflexivity.
Defined.

(** ** Window resizes *)

(** X25: a resize of the window to any pixel size gives a grid of
    max(1, width / cell width) columns and max(1, height / cell height)
    rows, never an empty one; the grid stays rectangular and the cursor
    inside it.  When the size in cells does not change the widget state is
    left untouched. *)
Theorem resizeEvent_keeps_grid (width height charWidth charHeight : Z)
    (s : TerminalWidget) :
  0 < charWidth -> 0 < charHeight ->
  INT_MIN <= width <= INT_MAX - 8 -> INT_MIN <= height <= INT_MAX ->
  dims_ok s -> buffer_wf s -> cursor_ok s ->
  let t := resizeEvent width height charWidth charHeight s in
  m_cols t = Z.max 1 (Z.quot width charWidth) /\
  m_rows t = Z.max 1 (Z.quot height charHeight) /\
  dims_ok t /\ buffer_wf t /\ cursor_ok t /\
  (m_cols t = m_cols s -> m_rows t = m_rows s -> t = s).
Proof.
  intros Hcw Hch Hw Hh Hd Hwf Hc t. subst t.
  assert (Hqw : INT_MIN <= Z.quot width charWidth <= INT_MAX - 8).
  { unfold INT_MIN, INT_MAX in *.
    destruct (Z.le_gt_cases 0 width) as [Hpos|Hneg].
    - pose proof (Z.quot_pos width charWidth Hpos Hcw).
      pose proof (Z.quot_le_upper_bound width charWidth (INT_MAX - 8) Hcw).
      unfold INT_MAX in *. nia.
    - pose proof (Z.quot_opp_l width charWidth ltac:(lia)) as Hopp.
      pose proof (Z.quot_pos (- width) charWidth ltac:(lia) Hcw).
      pose proof (Z.quot_le_upper_bound (- width) charWidth (- width) Hcw).
      nia. }
  assert (Hqh : INT_MIN <= Z.quot height charHeight <= INT_MAX).
  { unfold INT_MIN, INT_MAX in *.
    destruct (Z.le_gt_cases 0 height) as [Hpos|Hneg].
    - pose proof (Z.quot_pos height charHeight Hpos Hch).
      pose proof (Z.quot_le_upper_bound height charHeight INT_MAX Hch).
      unfold INT_MAX in *. nia.
    - pose proof (Z.quot_opp_l height charHeight ltac:(lia)) as Hopp.
      pose proof (Z.quot_pos (- height) charHeight ltac:(lia) Hch).
      pose proof (Z.quot_le_upper_bound (- height) charHeight (- height) Hch).
      nia. }
  unfold resizeEvent. cbv zeta.
  unfold int_div. rewrite !wrap_int_id by (unfold INT_MIN, INT_MAX in *; lia).
  rewrite !qMax_spec.
  set (newCols := Z.max 1 (Z.quot width charWidth)).
  set (newRows := Z.max 1 (Z.quot height charHeight)).
  assert (Hsafe : operationSafe s (OpResize newRows newCols)).
  { unfold operationSafe, INT_MIN, INT_MAX in *. subst newRows newCols. lia. }
  destruct (Z.eqb_spec newCols (m_cols s)) as [Hc1|Hc1];
    [destruct (Z.eqb_spec newRows (m_rows s)) as [Hr1|Hr1]|]; cbn [negb orb].
  - split; [symmetry; exact Hc1|]. split; [symmetry; exact Hr1|].
    split; [exact Hd|]. split; [exact Hwf|]. split; [exact Hc|].
    intros _ _. reflexivity.
  - destruct (resizeBuffer_cursor newRows newCols s Hc Hsafe) as [Hd' Hc'].
    split; [reflexivity|]. split; [reflexivity|]. split; [exact Hd'|].
    split; [apply resizeBuffer_wf|].
    split; [exact Hc'|].
    intros _ Hrows. change (m_rows (resizeBuffer newRows newCols s)) with newRows in Hrows.
    exfalso. exact (Hr1 Hrows).
  - destruct (resizeBuffer_cursor newRows newCols s Hc Hsafe) as [Hd' Hc'].
    split; [reflexivity|]. split; [reflexivity|]. split; [exact Hd'|].
    split; [apply resizeBuffer_wf|].
    split; [exact Hc'|].
    intros Hcols. change (m_cols (resizeBuffer newRows newCols s)) with newCols in Hcols.
    exfalso. exact (Hc1 Hcols).
Qed.

Lemma resizeEvent_keeps_grid_witness :
  dims_ok initialTerminal /\ cursor_ok initialTerminal /\
  m_cols (resizeEvent 5 3 8 16 initialTerminal) = 1 /\
  m_rows (resizeEvent 5 3 8 16 initialTerminal) = 1 /\
  buffer_wf (resizeEvent 5 3 8 16 initialTerminal).
Proof.
  assert (Hd : dims_ok initialTerminal) by (vm_compute; intuition discriminate).
  assert (Hc : cursor_ok initialTerminal) by (vm_compute; intuition discriminate).
  assert (Hw : INT_MIN <= 5 <= INT_MAX - 8) by (vm_compute; intuition discriminate).
  assert (Hh : INT_MIN <= 3 <= INT_MAX) by (vm_compute; intuition discriminate).
  destruct (resizeEvent_keeps_grid 5 3 8 16 initialTerminal
              eq_refl eq_refl Hw Hh Hd initialTerminal_wf Hc)
    as (Hcols & Hrows & _ & Hwf & _).
  split; [exact Hd|]. split; [exact Hc|].
  split; [exact Hcols|]. split; [exact Hrows|]. exact Hwf.
Defined.

(** ** Characters outside ASCII *)

(** X26: the UTF-8 encoding of a scalar value above U+007F that is not in
    a wide range of the basic multilingual plane (and is not U+FEFF) is
    printed as one narrow glyph, in whatever state the escape parser and
    the decoder are: the first UTF-16 code unit of the character is stored
    under the cursor with the current attributes and the cursor advances
    by one column, with line wrapping.  For a character beyond U+FFFF,
    including the CJK extension planes, that unit is the high surrogate
    alone. *)
Theorem narrow_glyph (u : Z) (s : TerminalWidget) :
  isScalar u -> 128 <= u -> u <> 65279 -> ~ isWideBMP u ->
  let unit := if u <? 65536 then u else 55296 + (u - 65536) / 1024 in
  let s1 := sequenceComplete (utf8Chars u) s in
  processOutput (utf8Chars u) s =
    set_m_utf8Buffer []
      (lineWrap (set_m_cursorX (int_add (m_cursorX s) 1) (storeAtCursor unit s1))) /\
  m_escapeState (processOutput (utf8Chars u) s) = m_escapeState s /\
  m_escapeSequence (processOutput (utf8Chars u) s) = m_escapeSequence s.
Proof.
  intros Hu Hmin Hbom Hnarrow unit s1.
  assert (Heq : processOutput (utf8Chars u) s =
            set_m_utf8Buffer []
              (lineWrap (set_m_cursorX (int_add (m_cursorX s) 1)
                           (storeAtCursor unit s1)))).
  { rewrite processOutput_utf8Chars by assumption.
    fold s1. unfold processUtf8Sequence.
    rewrite fromUtf8_utf8Chars by assumption.
    unfold utf16_encode. subst unit.
    assert (Hwide : isWide (if u <? 65536 then u
                            else 55296 + (u - 65536) / 1024) = false).
    { unfold isWideBMP in Hnarrow. unfold isScalar in Hu. unfold isWide.
      destruct (Z.ltb_spec u 65536).
      - repeat match goal with
               | |- context [?a <=? ?b] => destruct (Z.leb_spec a b)
               end; simpl; try done; lia.
      - assert (55296 <= 55296 + (u - 65536) / 1024 <= 56319) by zdm.
        repeat match goal with
               | |- context [?a <=? ?b] => destruct (Z.leb_spec a b)
               end; simpl; try done; lia. }
    destruct (u <? 65536); cbv zeta; rewrite Hwide; reflexivity. }
  split; [exact Heq|].
  rewrite Heq. fields.
  destruct (lineWrap_stable
              (set_m_cursorX (int_add (m_cursorX s) 1) (storeAtCursor unit s1)))
    as [_ Hstate].
  split; [exact Hstate|].
  unfold lineWrap, nextRow, scrollUp. fields. by repeat case_match.
Qed.

Lemma narrow_glyph_witness :
  isScalar 128512 /\ ~ isWideBMP 128512 /\
  character (buffer_get (m_buffer (processOutput (utf8Chars 128512) initialTerminal)) 0 0)
    = 55357.
Proof.
  assert (Hs : isScalar 128512) by (unfold isScalar; lia).
  assert (Hn : ~ isWideBMP 128512) by (unfold isWideBMP; lia).
  split; [exact Hs|]. split; [exact Hn|].
  destruct (narrow_glyph 128512 initialTerminal Hs ltac:(lia) ltac:(lia) Hn) as [Heq _].
  rewrite Heq. vm_compute. reflexivity.
Defined.

(** ** Control characters *)

(** X27: in Ground state the C0 control characters other than CR, LF,
    BS, TAB and ESC (the bell among them) have no effect at all, and a
    backspace moves the cursor one column to the left without erasing
    anything, staying put in column 0. *)
Theorem control_characters (c : Z) (s : TerminalWidget) :
  m_escapeState s = EscapeState.None -> m_utf8Remaining s = 0 ->
  0 <= m_cursorX s <= INT_MAX ->
  0 <= c < 32 ->
  (c <> chr "013" -> c <> chr "010" -> c <> chr "008" -> c <> chr "009" ->
   c <> chr "027" -> processOutput [c] s = s) /\
  processOutput [chr "008"] s = set_m_cursorX (Z.max 0 (m_cursorX s - 1)) s.
Proof.
  intros Hst Hidle Hx Hc. split.
  - intros Hcr Hlf Hbs Htab Hesc.
    cbn [processOutput]. rewrite processByte_ascii_idle by (done || lia).
    unfold processChar. rewrite Hst.
    destruct (Z.eqb_spec c (chr "027")); [done|].
    unfold processRegularChar.
    destruct (Z.eqb_spec c (chr "013")); [done|].
    destruct (Z.eqb_spec c (chr "010")); [done|].
    destruct (Z.eqb_spec c (chr "008")); [done|].
    destruct (Z.eqb_spec c (chr "009")); [done|].
    destruct (Z.eqb_spec c (chr "007")); [done|].
    destruct (Z.leb_spec 32 c); [lia | reflexivity].
  - cbn [processOutput].
    rewrite processByte_ascii_idle by (done || (vm_compute; split; discriminate)).
    unfold processChar. rewrite Hst.
    change (chr "008" =? chr "027") with false. cbv iota.
    unfold processRegularChar.
    change (chr "008" =? chr "013") with false.
    change (chr "008" =? chr "010") with false.
    change (chr "008" =? chr "008") with true.
    cbv iota.
    destruct (Z.ltb_spec 0 (m_cursorX s)) as [Hpos|Hzero].
    + unfold int_sub. rewrite wrap_int_id by (unfold INT_MIN, INT_MAX in *; lia).
      by rewrite Z.max_r by lia.
    + assert (m_cursorX s = 0) as Hx0 by lia.
      rewrite Z.max_l by lia. destruct s; cbn in *. by rewrite Hx0.
Qed.

Lemma control_characters_witness :
  0 <= m_cursorX initialTerminal <= INT_MAX /\
  processOutput [chr "007"] initialTerminal = initialTerminal /\
  m_cursorX (processOutput [chr "008"] initialTerminal) = 0.
Proof.
  assert (Hx : 0 <= m_cursorX initialTerminal <= INT_MAX)
    by (vm_compute; intuition discriminate).
  split; [exact Hx|].
  destruct (control_characters (chr "007") initialTerminal eq_refl eq_refl Hx
              ltac:(vm_compute; intuition discriminate)) as [Hbell Hbs].
  split.
  - apply Hbell; vm_compute; discriminate.
  - rewrite Hbs. reflexivity.
Defined.

(** ** Cursor visibility *)

Lemma cursorVisible_fold (b : bool) (params : list Z) (s : TerminalWidget) :
  fold_left (fun s param => if param =? 25 then set_m_cursorVisible b s else s)
    params s =
  if existsb (Z.eqb 25) params then set_m_cursorVisible b s else s.
Proof.
  revert s. induction params as [|p params IH]; intros s; [done|].
  cbn [fold_left existsb]. rewrite IH. rewrite (Z.eqb_sym 25 p).
  destruct (p =? 25); cbn [orb]; [|done].
  by destruct (existsb (Z.eqb 25) params).
Qed.

Lemma parseParams_private (ns : list Z) :
  Forall (fun n => 0 <= n <= INT_MAX) ns ->
  parseParams (chr "?" :: joinParams ns)
    = (true, match ns with [] => [0] | _ => ns end).
Proof.
  intros Hall. unfold parseParams.
  change (startsWith (chr "?") (chr "?" :: joinParams ns)) with true.
  cbn [orb tail].
  destruct ns as [|n ns]; [reflexivity|].
  assert (Hnonneg : Forall (fun n => 0 <= n) (n :: ns)).
  { eapply Forall_impl; [exact Hall|]. intros; simpl in *; lia. }
  rewrite split_joinParams by done.
  rewrite map_map.
  assert (Hmap : map (fun x => default 0 (toInt (decimal x))) (n :: ns) = n :: ns).
  { clear Hnonneg. induction Hall as [|m ms Hm Hms IH]; [done|].
    cbn [map]. rewrite toInt_decimal by exact Hm. simpl. by rewrite IH. }
  by rewrite Hmap.
Qed.

(** X28: ESC [ ? n1 ; ... ; nk h shows and ESC [ ? n1 ; ... ; nk l hides
    the cursor when 25 is among the parameters, and does nothing
    otherwise; without the question mark the sequence has no effect
    whatever its parameters. *)
Theorem cursor_visibility_sequence (ns : list Z) (final : Z) (s : TerminalWidget) :
  m_escapeState s = EscapeState.None -> m_utf8Remaining s = 0 ->
  Forall (fun n => 0 <= n <= INT_MAX) ns ->
  final = chr "h" \/ final = chr "l" ->
  processOutput ([chr "027"; chr "["] ++ (chr "?" :: joinParams ns) ++ [final]) s =
    set_m_escapeSequence (chr "?" :: joinParams ns)
      (if existsb (Z.eqb 25) ns
       then set_m_cursorVisible (final =? chr "h") s else s) /\
  processOutput (csiSequence ns final) s = set_m_escapeSequence (joinParams ns) s.
Proof.
  intros Hst Hidle Hall Hfinal.
  assert (Hnonneg : Forall (fun n => 0 <= n) ns).
  { eapply Forall_impl; [exact Hall|]. intros; simpl in *; lia. }
  destruct (joinParams_chars ns Hnonneg) as [Hascii Hparam].
  assert (Hf : isAscii final /\ isParameterParam final = false /\
               (final =? chr "m") = false /\
               (final =? chr "H") || (final =? chr "f") = false /\
               (final =? chr "A") = false /\ (final =? chr "B") = false /\
               (final =? chr "C") = false /\ (final =? chr "D") = false /\
               (final =? chr "G") = false /\ (final =? chr "J") = false /\
               (final =? chr "K") = false /\ (final =? chr "s") = false /\
               (final =? chr "u") = false /\
               (final =? chr "l") || (final =? chr "h") = true).
  { destruct Hfinal as [-> | ->];
      (split; [vm_compute; split; discriminate|]); vm_compute; tauto. }
  destruct Hf as (Hfa & Hfp & Hm & HH & HA & HB & HC & HD & HG & HJ & HK & Hs & Hu & Hlh).
  split.
  - rewrite csi_dispatch; try assumption.
    + unfold processEscapeSequence. rewrite parseParams_private by exact Hall.
      rewrite Hm, HH, HA, HB, HC, HD, HG, HJ, HK, Hs, Hu, Hlh. cbv iota.
      rewrite cursorVisible_fold.
      assert (Hex : existsb (Z.eqb 25) (match ns with [] => [0] | _ => ns end)
                    = existsb (Z.eqb 25) ns) by (by destruct ns).
      rewrite Hex.
      destruct (existsb (Z.eqb 25) ns); destruct s; cbn in *; by rewrite Hst.
    + apply Forall_cons. split; [vm_compute; split; discriminate | exact Hascii].
    + apply Forall_cons. split; [reflexivity | exact Hparam].
    + intros c [= <-]. reflexivity.
  - rewrite csi_numeric; try assumption.
    unfold processEscapeSequence. rewrite parseParams_joinParams by exact Hall.
    rewrite Hm, HH, HA, HB, HC, HD, HG, HJ, HK, Hs, Hu, Hlh. cbv iota.
    destruct s; cbn in *. by rewrite Hst.
Qed.

Lemma cursor_visibility_sequence_witness :
  m_cursorVisible
    (processOutput ([chr "027"; chr "["] ++ (chr "?" :: joinParams [25]) ++ [chr "l"])
       initialTerminal) = false /\
  m_cursorVisible (processOutput (csiSequence [25] (chr "l")) initialTerminal) = true.
Proof.
  assert (H1 : Forall (fun n => 0 <= n <= INT_MAX) [25]).
  { repeat constructor; vm_compute; discriminate. }
  destruct (cursor_visibility_sequence [25] (chr "l") initialTerminal
              eq_refl eq_refl H1 (or_intror eq_refl)) as [Hhide Hplain].
  rewrite Hhide, Hplain. split; reflexivity.
Defined.

(** ** Recovery of the byte decoder: what is written *)





(** ** Shrinking and growing *)

(** C9: resizing an 80x24 grid to 40 columns and back to 80 gives a
    rectangular grid of 24 rows of 80 cells in which the leftmost 40 cells
    of every row are the old cells, cell for cell, and the cells of
    columns 40-79 are default cells. *)
Theorem resize_shrink_then_grow (s : TerminalWidget) :
  m_rows s = 24 -> m_cols s = 80 ->
  let s' := resizeBuffer 24 80 (resizeBuffer 24 40 s) in
  m_rows s' = 24 /\ m_cols s' = 80 /\ buffer_wf s' /\
  (forall y x, 0 <= y < 24 ->
     (0 <= x < 40 ->
        cell (m_buffer s') (Z.to_nat y) (Z.to_nat x)
          = Some (buffer_get (m_buffer s) y x) /\
        buffer_get (m_buffer s') y x = buffer_get (m_buffer s) y x) /\
     (40 <= x < 80 ->
        cell (m_buffer s') (Z.to_nat y) (Z.to_nat x) = Some TermChar_default /\
        buffer_get (m_buffer s') y x = TermChar_default)) /\
  (buffer_wf s ->
   forall y x : nat, (y < 24)%nat -> (x < 40)%nat ->
     cell (m_buffer s') y x = cell (m_buffer s) y x /\
     is_Some (cell (m_buffer s) y x)).
Proof.
  intros Hrows Hcols s'. subst s'.
  split; [done|]. split; [done|].
  split; [apply resizeBuffer_wf|].
  assert (Hcell : forall y x, 0 <= y < 24 -> 0 <= x < 80 ->
            cell (m_buffer (resizeBuffer 24 80 (resizeBuffer 24 40 s)))
                 (Z.to_nat y) (Z.to_nat x)
            = Some (if decide (x < 40)
                    then buffer_get (m_buffer s) y x else TermChar_default)).
  { intros y x0 Hy Hx0.
    rewrite resizeBuffer_cell. rewrite decide_True by lia.
    destruct (resizeBuffer_dims 24 40 s) as [-> ->].
    f_equal. rewrite !Z2Nat.id by lia.
    destruct (decide (x0 < 40)) as [Hlt|Hge].
    - rewrite decide_True by lia.
      apply buffer_get_cell.
      rewrite resizeBuffer_cell. rewrite decide_True by lia.
      rewrite Hrows, Hcols. rewrite decide_True by lia.
      by rewrite !Z2Nat.id by lia.
    - by rewrite decide_False by lia. }
  split.
  - intros y x Hy. split; intros Hx.
    + pose proof (Hcell y x Hy ltac:(lia)) as Hc.
      rewrite decide_True in Hc by lia.
      split; [exact Hc | by apply buffer_get_cell].
    + pose proof (Hcell y x Hy ltac:(lia)) as Hc.
      rewrite decide_False in Hc by lia.
      split; [exact Hc | by apply buffer_get_cell].
  - intros Hwf y x Hy Hx.
    pose proof (Hcell (Z.of_nat y) (Z.of_nat x) ltac:(lia) ltac:(lia)) as Hc.
    rewrite !Nat2Z.id in Hc. rewrite decide_True in Hc by lia.
    pose proof (cell_lookup_wf s (Z.of_nat y) (Z.of_nat x) Hwf
                  ltac:(lia) ltac:(lia)) as Hs.
    rewrite !Nat2Z.id in Hs.
    rewrite Hc, Hs. split; [reflexivity | by eexists].
Qed.

Lemma resize_shrink_then_grow_witness :
  let s := processOutput (bytesOfString "korzeterm") initialTerminal in
  let s' := resizeBuffer 24 80 (resizeBuffer 24 40 s) in
  m_rows s = 24 /\ m_cols s = 80 /\
  cell (m_buffer s') 0 3 = Some (buffer_get (m_buffer s) 0 3) /\
  cell (m_buffer s') 0 40 = Some TermChar_default.
Proof.
  intros s s'.
  assert (Hr : m_rows s = 24) by reflexivity.
  assert (Hc : m_cols s = 80) by reflexivity.
  split; [exact Hr|]. split; [exact Hc|].
  destruct (resize_shrink_then_grow s Hr Hc) as (_ & _ & _ & Hcells & _).
  split.
  - exact (proj1 (proj1 (Hcells 0 3 ltac:(lia)) ltac:(lia))).
  - exact (proj1 (proj2 (Hcells 0 40 ltac:(lia)) ltac:(lia))).
Defined.

(** ** Wide characters: the final grid *)

Lemma cell_scrolled (buf : list (list TermChar)) (rows cols : Z) (y' x' : nat) :
  1 <= rows -> 0 <= cols -> length buf = Z.to_nat rows ->
  cell (drop 1 buf ++ [replicate (Z.to_nat cols) TermChar_default]) y' x' =
    scrolledUp rows cols (cell buf) y' x'.
Proof.
  intros Hrows Hcols Hlen. unfold scrolledUp, cell.
  destruct (decide (Z.of_nat y' + 1 < rows)) as [Hin|Hout].
  - rewrite lookup_app_l by (rewrite length_drop; lia).
    by rewrite lookup_drop.
  - rewrite lookup_app_r by (rewrite length_drop; lia).
    rewrite length_drop.
    destruct (decide (Z.of_nat y' + 1 = rows /\ Z.of_nat x' < cols)) as [[Hy Hx]|Hno].
    + replace (y' - (length buf - 1))%nat with 0%nat by lia.
      simpl. apply lookup_replicate_2. lia.
    + destruct (decide (Z.of_nat y' + 1 = rows)) as [Hy|Hy].
      * replace (y' - (length buf - 1))%nat with 0%nat by lia.
        simpl. apply lookup_replicate_None. lia.
      * replace (y' - (length buf - 1))%nat with (S (y' - length buf)) by lia.
        reflexivity.
Qed.

(** Line wrapping of a state whose cursor has reached the column count. *)
Lemma lineWrap_at_end (t : TerminalWidget) :
  dims_ok t -> buffer_wf t -> 0 <= m_cursorY t < m_rows t ->
  m_cols t <= m_cursorX t ->
  m_cursorX (lineWrap t) = 0 /\
  (m_cursorY t + 1 < m_rows t ->
     m_cursorY (lineWrap t) = m_cursorY t + 1 /\ m_buffer (lineWrap t) = m_buffer t) /\
  (m_cursorY t + 1 = m_rows t ->
     m_cursorY (lineWrap t) = m_cursorY t /\
     m_buffer (lineWrap t) =
       drop 1 (m_buffer t) ++ [replicate (Z.to_nat (m_cols t)) TermChar_default]).
Proof.
  intros Hd Hwf Hy Hend. unfold lineWrap.
  destruct (Z.leb_spec (m_cols t) (m_cursorX t)); [|lia].
  destruct (nextRow_effect (set_m_cursorX 0 t) Hd Hwf Hy) as [Hin Hbottom].
  split; [|split].
  - unfold nextRow, scrollUp. fields. by case_match.
  - intros Hcase. rewrite (Hin Hcase). split; reflexivity.
  - intros Hcase. exact (Hbottom Hcase).
Qed.

(** C3, as the code has it: a wide character of the basic multilingual
    plane written at a cursor inside the grid is stored in the cell under
    the cursor with the current attributes.  When a second cell exists in
    the row its character becomes a blank (its attributes stay) and the
    cursor advances by two columns; in the last column no placeholder is
    written and the cursor advances by one column.  When the cursor
    thereby reaches the end of the row it goes at once to column 0 of the
    next row; on the bottom row the grid scrolls up by one row instead, so
    that the glyph and its placeholder end one row higher, above a blank
    bottom row, with the cursor at column 0 of the bottom row. *)
Theorem wide_glyph_bmp (u : Z) (s : TerminalWidget) :
  isWideBMP u -> dims_ok s -> buffer_wf s -> cursor_ok s ->
  let s' := processUtf8Sequence (utf8Chars u) s in
  let y := Z.to_nat (m_cursorY s) in
  let x := Z.to_nat (m_cursorX s) in
  m_rows s' = m_rows s /\ m_cols s' = m_cols s /\ buffer_wf s' /\
  wideWritten s u y x = Some (glyphCell s u) /\
  (m_cursorX s + 1 < m_cols s ->
     wideWritten s u y (S x) = set_character (chr " ") <$> cell (m_buffer s) y (S x) /\
     is_Some (cell (m_buffer s) y (S x))) /\
  (m_cursorX s + 1 = m_cols s ->
     forall y' x', (y', x') <> (y, x) ->
       wideWritten s u y' x' = cell (m_buffer s) y' x') /\
  (m_cursorX s + 2 < m_cols s ->
     m_cursorY s' = m_cursorY s /\ m_cursorX s' = m_cursorX s + 2 /\
     forall y' x', cell (m_buffer s') y' x' = wideWritten s u y' x') /\
  (m_cols s <= m_cursorX s + 2 -> m_cursorY s + 1 < m_rows s ->
     m_cursorY s' = m_cursorY s + 1 /\ m_cursorX s' = 0 /\
     forall y' x', cell (m_buffer s') y' x' = wideWritten s u y' x') /\
  (m_cols s <= m_cursorX s + 2 -> m_cursorY s + 1 = m_rows s ->
     m_cursorY s' = m_cursorY s /\ m_cursorX s' = 0 /\
     forall y' x',
       cell (m_buffer s') y' x' =
         scrolledUp (m_rows s) (m_cols s) (wideWritten s u) y' x').
Proof.
  intros Hu Hd Hwf Hc s' y x.
  pose proof Hd as [Hrows Hcols]. pose proof Hc as [Hy Hx].
  destruct (isWideBMP_decoded u Hu) as [Hdec Hwide].
  pose proof (processUtf8Sequence_stable (utf8Chars u) s) as Hstable.
  unfold stableFields in Hstable.
  split; [subst s'; congruence|]. split; [subst s'; congruence|].
  split; [subst s'; by apply processUtf8Sequence_wf|].
  clear Hstable.
  (* the cell under the cursor and the cell beyond the row *)
  destruct (cell_wf s y x Hwf) as [c0 Hc0]; [subst y; lia | subst x; lia |].
  assert (Hbeyond : cell (m_buffer s) y (Z.to_nat (m_cols s)) = None).
  { unfold cell. destruct Hwf as [Hlen Hrow].
    destruct (m_buffer s !! y) as [row|] eqn:Hlook; [|done]. simpl.
    apply lookup_ge_None.
    rewrite Forall_lookup in Hrow. rewrite (Hrow _ _ Hlook). lia. }
  split.
  { unfold wideWritten. rewrite decide_True by done. by rewrite Hc0. }
  split.
  { intros Hroom. unfold wideWritten.
    rewrite decide_False by (subst x; lia).
    rewrite decide_True by (subst x y; split; [done | lia]).
    split; [reflexivity|]. apply cell_wf; [done | subst y; lia | subst x; lia]. }
  split.
  { intros Hlast y' x' Hne. unfold wideWritten.
    rewrite decide_False by (intros [-> ->]; by apply Hne).
    destruct (decide (y' = Z.to_nat (m_cursorY s) /\
                      x' = Z.to_nat (m_cursorX s + 1))) as [[-> ->]|]; [|done].
    replace (m_cursorX s + 1) with (m_cols s) by lia.
    fold y. by rewrite Hbeyond. }
  (* the state before line wrapping *)
  assert (Hx1 : int_add (m_cursorX s) 1 = m_cursorX s + 1).
  { unfold int_add. apply wrap_int_id. unfold INT_MIN, INT_MAX in *. lia. }
  assert (Hx2 : int_add (m_cursorX s + 1) 1 = m_cursorX s + 2).
  { unfold int_add. rewrite wrap_int_id by (unfold INT_MIN, INT_MAX in *; lia). lia. }
  assert (Hcell1 : forall y' x',
            cell (m_buffer (storeAtCursor u s)) y' x' =
              if decide (y' = Z.to_nat (m_cursorY s) /\ x' = Z.to_nat (m_cursorX s))
              then (fun _ => glyphCell s u) <$> cell (m_buffer s) y' x'
              else cell (m_buffer s) y' x').
  { intros y' x'. apply cell_storeAtCursor; lia. }
  assert (Hstep : exists t,
            s' = lineWrap t /\ dims_ok t /\ buffer_wf t /\
            m_rows t = m_rows s /\ m_cols t = m_cols s /\
            m_cursorY t = m_cursorY s /\
            m_cursorX t = (if m_cursorX s + 1 <? m_cols s
                           then m_cursorX s + 2 else m_cursorX s + 1) /\
            forall y' x', cell (m_buffer t) y' x' = wideWritten s u y' x').
  { subst s'. unfold processUtf8Sequence. rewrite Hdec, Hwide.
    pose proof (storeAtCursor_wf u s Hwf) as Hwf1.
    unfold storeAtCursor in *. fields. rewrite Hx1.
    destruct (Z.ltb_spec (m_cursorX s + 1) (m_cols s)) as [Hroom|Hlast].
    - eexists. split; [reflexivity|]. fields. rewrite Hx2.
      split; [exact Hd|].
      split; [revert Hwf1; unfold buffer_wf; fields; apply gridShape_buffer_alter|].
      repeat (split; [reflexivity|]).
      intros y' x'. rewrite cell_buffer_alter by lia. rewrite Hcell1.
      unfold wideWritten.
      repeat case_decide; try done; try lia.
      all: destruct (cell (m_buffer s) y' x'); done.
    - eexists. split; [reflexivity|]. fields.
      split; [exact Hd|]. split; [exact Hwf1|].
      repeat (split; [reflexivity|]).
      intros y' x'. rewrite Hcell1. unfold wideWritten.
      destruct (decide (y' = Z.to_nat (m_cursorY s) /\
                        x' = Z.to_nat (m_cursorX s))); [done|].
      destruct (decide (y' = Z.to_nat (m_cursorY s) /\
                        x' = Z.to_nat (m_cursorX s + 1))) as [[-> ->]|]; [|done].
      replace (m_cursorX s + 1) with (m_cols s) by lia.
      fold y. by rewrite Hbeyond. }
  destruct Hstep as (t & Heq & Hdt & Hwft & Hrt & Hct & Hyt & Hxt & Hcells).
  rewrite Heq.
  split; [|split].
  - intros Hfit.
    destruct (Z.ltb_spec (m_cursorX s + 1) (m_cols s)); [|lia].
    assert (Hstay : lineWrap t = t).
    { unfold lineWrap. rewrite Hct, Hxt.
      by destruct (Z.leb_spec (m_cols s) (m_cursorX s + 2)); [lia|]. }
    rewrite Hstay. split; [exact Hyt|]. split; [exact Hxt|]. exact Hcells.
  - intros Hend Hrow.
    destruct (lineWrap_at_end t Hdt Hwft) as (Hzero & Hin & _).
    { rewrite Hyt, Hrt. exact Hy. }
    { rewrite Hct, Hxt. destruct (Z.ltb_spec (m_cursorX s + 1) (m_cols s)); lia. }
    destruct Hin as [Hrow' Hbuf]; [rewrite Hyt, Hrt; exact Hrow|].
    split; [by rewrite Hrow', Hyt|]. split; [exact Hzero|].
    intros y' x'. rewrite Hbuf. apply Hcells.
  - intros Hend Hrow.
    destruct (lineWrap_at_end t Hdt Hwft) as (Hzero & _ & Hbottom).
    { rewrite Hyt, Hrt. exact Hy. }
    { rewrite Hct, Hxt. destruct (Z.ltb_spec (m_cursorX s + 1) (m_cols s)); lia. }
    destruct Hbottom as [Hrow' Hbuf]; [rewrite Hyt, Hrt; exact Hrow|].
    split; [by rewrite Hrow', Hyt|]. split; [exact Hzero|].
    intros y' x'. rewrite Hbuf, Hct.
    rewrite (cell_scrolled (m_buffer t) (m_rows s) (m_cols s)); try lia.
    + unfold scrolledUp. rewrite Hcells. reflexivity.
    + destruct Hwft as [Hlen _]. by rewrite Hlen, Hrt.
Qed.

Lemma wide_glyph_bmp_witness :
  let s := set_m_cursorX 1 (resizeBuffer 1 3 initialTerminal) in
  let s' := processUtf8Sequence (utf8Chars 20013) s in
  isWideBMP 20013 /\ dims_ok s /\ buffer_wf s /\ cursor_ok s /\
  m_cursorY s' = 0 /\ m_cursorX s' = 0 /\
  cell (m_buffer s') 0 1 = Some TermChar_default.
Proof.
  intros s s'.
  assert (H1 : isWideBMP 20013) by (unfold isWideBMP; lia).
  assert (H2 : dims_ok s) by (vm_compute; intuition discriminate).
  assert (H3 : buffer_wf s).
  { split; [vm_compute; reflexivity|]. vm_compute. repeat constructor. }
  assert (H4 : cursor_ok s) by (vm_compute; intuition discriminate).
  repeat (split; [assumption|]).
  destruct (wide_glyph_bmp 20013 s H1 H2 H3 H4)
    as (_ & _ & _ & _ & _ & _ & _ & _ & Hscroll).
  destruct Hscroll as (Hy & Hx & Hcells);
    [vm_compute; discriminate | vm_compute; reflexivity |].
  split; [exact Hy|]. split; [exact Hx|].
  rewrite Hcells. vm_compute. reflexivity.
Defined.
